(** * jail: shadow filesystem and jail construction engine

    A shallow embedding of [sfs.py] (the [Stat] shadow node) and of the
    parts of [jail.py] that drive it ([Jail.writable], the command loop,
    [bindopts], [ldlist], the tail of [mount]), followed by the properties
    established about them.

    Conventions of the embedding:
    - Python [int] and [long] are [Z]; a Python [float] is an IEEE 754
      binary64 number, with the arithmetic of [SpecFloat] (round to nearest,
      ties to even); a timestamp that is a float is a finite one, as the
      operating system and [time] hand them out; the percentage of
      [hitratio] alone is kept as an exact rational [Q];
    - Python objects with identity (the [Stat] nodes) live in a heap
      [gmap nat Stat]; a node reference is its key;
    - a method that mutates, prints, raises or calls the OS is a function in
      the monad [M]: it threads the [state] and returns an [outcome];
    - every interaction with the operating system appends an [event] to the
      trace, and the host's answer is a function of the trace so far;
    - loops whose termination depends on the heap take a [fuel] argument and
      return [Fuel] when it runs out. *)

From Stdlib Require Import String Ascii ZArith QArith Qabs List Lia.
From Stdlib Require Import Sorting.Sorted Sorting.Permutation.
From Stdlib Require OrderedTypeEx SpecFloat.
From stdpp Require Import gmap strings list fin_maps.

Open Scope string_scope.

(** ** Python string primitives *)

Module Py.

(** [s.startswith(p)] *)
Definition startswith (s p : string) : bool := String.prefix p s.

(** [s.split(sep)] for a one-character separator: never returns [[]]. *)
Fixpoint split (sep : ascii) (s : string) : list string :=
  match s with
  | EmptyString => [EmptyString]
  | String a rest =>
      if Ascii.eqb a sep then EmptyString :: split sep rest
      else match split sep rest with
           | h :: t => String a h :: t
           | [] => [String a EmptyString]
           end
  end.

(** [s.count(c)] for a one-character needle. *)
Fixpoint count (c : ascii) (s : string) : nat :=
  match s with
  | EmptyString => 0
  | String a rest => (if Ascii.eqb a c then 1 else 0) + count c rest
  end.

(** [c in s] for a one-character needle. *)
Fixpoint contains (c : ascii) (s : string) : bool :=
  match s with
  | EmptyString => false
  | String a rest => Ascii.eqb a c || contains c rest
  end.

Definition is_space (a : ascii) : bool :=
  let n := nat_of_ascii a in
  (n =? 32)%nat || ((9 <=? n)%nat && (n <=? 13)%nat).

Fixpoint lstrip (s : string) : string :=
  match s with
  | String a rest => if is_space a then lstrip rest else s
  | EmptyString => EmptyString
  end.

Fixpoint rstrip (s : string) : string :=
  match s with
  | EmptyString => EmptyString
  | String a rest =>
      match rstrip rest with
      | EmptyString => if is_space a then EmptyString else String a EmptyString
      | r => String a r
      end
  end.

(** [s.strip()] *)
Definition strip (s : string) : string := rstrip (lstrip s).

Definition lower_ascii (a : ascii) : ascii :=
  let n := nat_of_ascii a in
  if ((65 <=? n)%nat && (n <=? 90)%nat)%bool then ascii_of_nat (n + 32) else a.

(** [s.lower()] *)
Fixpoint lower (s : string) : string :=
  match s with
  | EmptyString => EmptyString
  | String a rest => String (lower_ascii a) (lower rest)
  end.

(** [s[n:]] *)
Fixpoint drop (n : nat) (s : string) : string :=
  match n, s with
  | O, _ => s
  | S n', String _ rest => drop n' rest
  | S _, EmptyString => EmptyString
  end.

(** [sep.join(l)] *)
Fixpoint join (sep : string) (l : list string) : string :=
  match l with
  | [] => ""
  | [x] => x
  | x :: rest => x ++ sep ++ join sep rest
  end.

(** Truthiness of a [str]: non-empty. *)
Definition truthy (s : string) : bool :=
  match s with EmptyString => false | _ => true end.

(** Truthiness of a value that may be [None]. *)
Definition truthy_opt (s : option string) : bool :=
  match s with Some x => truthy x | None => false end.


(** [os.path.join(a, b)] on POSIX, for two components. *)
Definition path_join (a b : string) : string :=
  if startswith b "/" then b
  else match a with
       | EmptyString => b
       | _ => if startswith (String.substring (String.length a - 1) 1 a) "/"
              then a ++ b else a ++ "/" ++ b
       end.

(** Index of the last ['/'] of [s], if any. *)
Fixpoint rfind_slash (s : string) : option nat :=
  match s with
  | EmptyString => None
  | String a rest =>
      match rfind_slash rest with
      | Some i => Some (S i)
      | None => if Ascii.eqb a "/" then Some 0%nat else None
      end
  end.

Fixpoint all_slashes (s : string) : bool :=
  match s with
  | EmptyString => true
  | String a rest => Ascii.eqb a "/" && all_slashes rest
  end.

Fixpoint rstrip_slashes (s : string) : string :=
  match s with
  | EmptyString => EmptyString
  | String a rest =>
      match rstrip_slashes rest with
      | EmptyString => if Ascii.eqb a "/" then EmptyString else String a EmptyString
      | r => String a r
      end
  end.

(** [os.path.split(p)] on POSIX: the head loses its trailing slashes unless
    it consists of slashes only. *)
Definition path_split (p : string) : string * string :=
  match rfind_slash p with
  | None => ("", p)
  | Some i =>
      let head := String.substring 0 (S i) p in
      let tail := drop (S i) p in
      (if all_slashes head then head else rstrip_slashes head, tail)
  end.

(** [sorted(set(l))] for strings: Python 2 compares [str] bytewise. *)
Fixpoint insert_sorted (x : string) (l : list string) : list string :=
  match l with
  | [] => [x]
  | y :: rest =>
      match String.compare x y with
      | Lt => x :: l
      | Eq => l
      | Gt => y :: insert_sorted x rest
      end
  end.

Definition sorted_set (l : list string) : list string :=
  foldr insert_sorted [] l.

(** [s.partition(sep)] for a one-character separator, without the
    separator itself: the text before the first [sep] and the text after
    it, or [s] and [""] when there is none. *)
Fixpoint partition (sep : ascii) (s : string) : string * string :=
  match s with
  | EmptyString => ("", "")
  | String a rest =>
      if Ascii.eqb a sep then ("", rest)
      else let '(h, t) := partition sep rest in (String a h, t)
  end.

(** *** Numbers *)

(** A [float]: binary64 has 53 bits of mantissa, and its infinities have
    exponent 1024. *)
Definition float : Type := SpecFloat.spec_float.
Definition prec : Z := 53.
Definition emax : Z := 1024.

(** The floats that stand for a number: zeros and the finite values in
    canonical form. *)
Definition finite (f : float) : bool :=
  match f with
  | SpecFloat.S754_zero _ => true
  | SpecFloat.S754_finite _ m e => SpecFloat.bounded prec emax m e
  | _ => false
  end.

(** A finite float, as [os.lstat], [time.time()] and [time.mktime] return
    them. *)
Record finite_float := mkFinite {
  float_of : float;
  float_finite : finite float_of = true
}.

(** A number: an [int] (or [long]) or a [float]. *)
Inductive number :=
| Int (z : Z)
| Float (f : float).

(** The literals [0.0] and [0.5]. *)
Definition zero : float := SpecFloat.S754_zero false.
Definition half : float := SpecFloat.S754_finite false 4503599627370496 (-53).

(** The conversion of an [int] or [long] for mixed arithmetic: rounded to
    the nearest float, [None] ([OverflowError]) when that is beyond the
    range. *)
Definition float_of_int (z : Z) : option float :=
  match SpecFloat.binary_normalize prec emax z 0 false with
  | SpecFloat.S754_infinity _ => None
  | f => Some f
  end.

(** [a - b]: exact on two [int]s, in floats as soon as one operand is a
    float; [None] stands for the [OverflowError] of the conversion. *)
Definition sub (a b : number) : option number :=
  match a, b with
  | Int x, Int y => Some (Int (x - y))
  | Int x, Float g =>
      match float_of_int x with
      | Some f => Some (Float (SpecFloat.SFsub prec emax f g))
      | None => None
      end
  | Float f, Int y =>
      match float_of_int y with
      | Some g => Some (Float (SpecFloat.SFsub prec emax f g))
      | None => None
      end
  | Float f, Float g => Some (Float (SpecFloat.SFsub prec emax f g))
  end.

(** [abs(a)] *)
Definition abs (a : number) : number :=
  match a with
  | Int z => Int (Z.abs z)
  | Float f => Float (SpecFloat.SFabs f)
  end.

(** [a < 0.5] and [a > 0.5]: Python compares an [int] with a float by
    value, and a comparison with a NaN is false. *)
Definition lt_half (a : number) : bool :=
  match a with
  | Int z => (z <? 1)%Z
  | Float f => SpecFloat.SFltb f half
  end.

Definition gt_half (a : number) : bool :=
  match a with
  | Int z => (0 <? z)%Z
  | Float f => SpecFloat.SFltb half f
  end.

(** [a < 0] and [a > 0] *)
Definition negative (a : number) : bool :=
  match a with
  | Int z => (z <? 0)%Z
  | Float f => SpecFloat.SFltb f zero
  end.

Definition positive (a : number) : bool :=
  match a with
  | Int z => (0 <? z)%Z
  | Float f => SpecFloat.SFltb zero f
  end.

(** [f == z] for a float and an [int], by value. *)
Definition float_eq_int (f : float) (z : Z) : bool :=
  match f with
  | SpecFloat.S754_zero _ => (z =? 0)%Z
  | SpecFloat.S754_finite s m e =>
      let v := SpecFloat.cond_Zopp s (Zpos m) in
      if (0 <=? e)%Z then (z =? v * 2 ^ e)%Z else (z * 2 ^ (- e) =? v)%Z
  | _ => false
  end.

(** [a != b] *)
Definition ne (a b : number) : bool :=
  negb match a, b with
       | Int x, Int y => (x =? y)%Z
       | Int x, Float g => float_eq_int g x
       | Float f, Int y => float_eq_int f y
       | Float f, Float g => SpecFloat.SFeqb f g
       end.

End Py.

(** ** [stat] module constants *)

Definition S_IFMT (mode : Z) : Z := Z.land mode 61440.   (* 0o170000 *)
Definition S_IMODE (mode : Z) : Z := Z.land mode 4095.   (* 0o7777 *)
Definition S_IFREG : Z := 32768.   (* 0o100000 *)
Definition S_IFDIR : Z := 16384.   (* 0o040000 *)
Definition S_IFLNK : Z := 40960.   (* 0o120000 *)
Definition S_IFCHR : Z := 8192.    (* 0o020000 *)
Definition S_IFBLK : Z := 24576.   (* 0o060000 *)
Definition S_IFIFO : Z := 4096.    (* 0o010000 *)
Definition S_IFSOCK : Z := 49152.  (* 0o140000 *)

(** ** Exceptions, outcomes and the host *)

(** The exception classes the modelled code raises or lets through.  Message
    texts are abbreviated: no property below depends on them. *)
Inductive exn :=
| ValueError (msg : string)
| AssertionError
| AttributeError
| TypeError
| KeyError
| OverflowError
| UnboundLocalError
| CalledProcessError
| SystemError (msg : string)
| IOError (strerror : string)
| OSError (strerror : string)
| JailError (strerror : string).

Inductive outcome (A : Type) :=
| Ret (a : A)
| Exc (e : exn)
| Fuel.
Arguments Ret {A} a.
Arguments Exc {A} e.
Arguments Fuel {A}.

(** A timestamp field holds a Python [float] (from [lstat], [time.time()],
    [time.mktime]) or an [int], such as the 0 that [clear] writes. *)
Inductive pytime :=
| TInt (z : Z)
| TFloat (f : Py.finite_float).

(** The timestamp as an operand of arithmetic. *)
Definition time_val (t : pytime) : Py.number :=
  match t with TInt z => Py.Int z | TFloat f => Py.Float (Py.float_of f) end.

(** [os.stat_result]; [r_flags] is [None] where the platform has no
    [st_flags] attribute. *)
Record stat_result := mkStatResult {
  r_mode : Z; r_ino : Z; r_dev : Z; r_nlink : Z;
  r_uid : Z; r_gid : Z; r_size : Z;
  r_atime : Py.finite_float; r_mtime : Py.finite_float; r_ctime : Py.finite_float;
  r_blocks : Z; r_blksize : Z; r_rdev : Z;
  r_flags : option Z
}.

(** Calls that change the world outside the process. *)
Inductive syscall :=
| os_symlink (target path : string)
| os_mkdir (path : string) (mode : Z)
| os_mknod (path : string) (mode device : Z)
| copydata (src dst : string)
| os_lchown (path : string) (uid gid : Z)
| os_chmod (path : string) (mode : Z)
| os_chflags (path : string) (flags : Z)
| os_utime (path : string) (atime mtime : pytime)
| os_remove (path : string)
| os_rmdir (path : string)
| os_setgid (gid : Z)
| os_setuid (uid : Z).

(** Everything the process does that the outside can observe or answer. *)
Inductive event :=
| EvPrint (text : string)
| EvSys (c : syscall)
| EvLstat (path : string)
| EvReadlink (path : string)
| EvListdir (path : string)
| EvExists (path : string)
| EvClock
| EvPopen (args : list string).

Inductive lstat_answer :=
| LstatOk (d : stat_result)
| LstatENOENT
| LstatError (strerror : string).

Inductive listdir_answer :=
| ListdirOk (names : list string)
| ListdirENOENT
| ListdirError (strerror : string).

Inductive sys_answer :=
| SysOk (v : Z)
| SysError (strerror : string).

(** A subprocess either runs to its end, with an exit status and its
    output, or cannot be started. *)
Inductive popen_answer :=
| PopenOutput (status : Z) (text : string)
| PopenOSError (strerror : string).

(** The host: the operating system's answers as functions of the trace so
    far (newest event first), and the Python built-ins used to render
    command texts. *)
Class Host := {
  host_lstat : list event -> string -> lstat_answer;
  host_readlink : list event -> string -> option string;
  host_listdir : list event -> string -> listdir_answer;
  host_exists : list event -> string -> bool;
  host_sys : list event -> syscall -> sys_answer;
  host_popen : list event -> list string -> popen_answer;
  host_time : list event -> Py.finite_float;
  host_geteuid : list event -> Z;
  host_getegid : list event -> Z;
  host_pw_name : Z -> option string;
  host_gr_name : Z -> option string;
  host_has_utime : bool;
  host_has_chflags : bool;
  host_major : Z -> Z;
  host_minor : Z -> Z;
  host_strftime : pytime -> string;
  host_strptime : string -> option Py.finite_float;
  py_int0 : string -> option Z;
  py_repr : string -> string;
  py_oct : Z -> string;
  py_format_o : Z -> string;
  py_str : Z -> string
}.

(** ** The shadow filesystem ([sfs.py]) *)

Module Sfs.

(** A [Stat] object: [__slots__] of the class, references as heap keys. *)
Record Stat := mkStat {
  _parent : option nat;
  _name : option string;
  _children : gmap string nat;
  _link : option string;
  st_mode : Z; st_ino : Z; st_dev : Z; st_nlink : Z;
  st_uid : Z; st_gid : Z; st_size : Z;
  st_atime : pytime; st_mtime : pytime; st_ctime : pytime;
  st_blocks : Z; st_blksize : Z; st_rdev : Z;
  st_flags : Z
}.

Record state := mkState {
  heap : gmap nat Stat;
  trace : list event;
  _count_statcalls : nat;
  _count_accesses : nat
}.

Definition M (A : Type) : Type := state -> outcome A * state.

Definition ret {A} (a : A) : M A := fun s => (Ret a, s).
Definition raise {A} (e : exn) : M A := fun s => (Exc e, s).
Definition out_of_fuel {A} : M A := fun s => (Fuel, s).
Definition bind {A B} (m : M A) (f : A -> M B) : M B :=
  fun s =>
    match m s with
    | (Ret a, s') => f a s'
    | (Exc e, s') => (Exc e, s')
    | (Fuel, s') => (Fuel, s')
    end.

Notation "'let!' x ':=' m 'in' k" := (bind m (fun x => k))
  (at level 10, x name, m at level 100, k at level 200, only parsing).
Notation "'let!' ' p ':=' m 'in' k" := (bind m (fun x => match x with p => k end))
  (at level 10, p strict pattern, m at level 100, k at level 200, only parsing).
Notation "'do!' m 'in' k" := (bind m (fun _ => k))
  (at level 10, m at level 100, k at level 200, only parsing).

(** [assert b] *)
Definition assert (b : bool) : M unit :=
  if b then ret tt else raise AssertionError.

Definition the_trace : M (list event) := fun s => (Ret (trace s), s).
Definition the_heap : M (gmap nat Stat) := fun s => (Ret (heap s), s).

Definition emit (e : event) : M unit :=
  fun s => (Ret tt, mkState (heap s) (e :: trace s) (_count_statcalls s) (_count_accesses s)).

Definition set_heap (h : gmap nat Stat) : M unit :=
  fun s => (Ret tt, mkState h (trace s) (_count_statcalls s) (_count_accesses s)).

Definition incr_statcalls : M unit :=
  fun s => (Ret tt, mkState (heap s) (trace s) (S (_count_statcalls s)) (_count_accesses s)).

Definition incr_accesses : M unit :=
  fun s => (Ret tt, mkState (heap s) (trace s) (_count_statcalls s) (S (_count_accesses s))).

(** Dereference a node; a key outside the heap cannot arise from Python
    references and is reported as [SystemError]. *)
Definition load (id : nat) : M Stat :=
  fun s => match heap s !! id with
           | Some n => (Ret n, s)
           | None => (Exc (SystemError "dangling reference"), s)
           end.

(** Attribute assignment on the object [id]. *)
Definition update (id : nat) (f : Stat -> Stat) : M unit :=
  let! h := the_heap in set_heap (alter f id h).

(** Allocate an object. *)
Definition alloc (n : Stat) : M nat :=
  let! h := the_heap in
  let id := fresh (dom h) in
  do! set_heap (<[id := n]> h) in ret id.

(** [for x in l: acc = body(acc, x)] *)
Fixpoint for_each {A S : Type} (body : S -> A -> M S) (l : list A) (acc : S) : M S :=
  match l with
  | [] => ret acc
  | x :: rest => let! acc' := body acc x in for_each body rest acc'
  end.

(** *** Field setters *)

Definition set_parent (v : option nat) (n : Stat) : Stat :=
  mkStat v (_name n) (_children n) (_link n) (st_mode n) (st_ino n) (st_dev n)
    (st_nlink n) (st_uid n) (st_gid n) (st_size n) (st_atime n) (st_mtime n)
    (st_ctime n) (st_blocks n) (st_blksize n) (st_rdev n) (st_flags n).
Definition set_children (v : gmap string nat) (n : Stat) : Stat :=
  mkStat (_parent n) (_name n) v (_link n) (st_mode n) (st_ino n) (st_dev n)
    (st_nlink n) (st_uid n) (st_gid n) (st_size n) (st_atime n) (st_mtime n)
    (st_ctime n) (st_blocks n) (st_blksize n) (st_rdev n) (st_flags n).
Definition set_link (v : option string) (n : Stat) : Stat :=
  mkStat (_parent n) (_name n) (_children n) v (st_mode n) (st_ino n) (st_dev n)
    (st_nlink n) (st_uid n) (st_gid n) (st_size n) (st_atime n) (st_mtime n)
    (st_ctime n) (st_blocks n) (st_blksize n) (st_rdev n) (st_flags n).
Definition set_mode (v : Z) (n : Stat) : Stat :=
  mkStat (_parent n) (_name n) (_children n) (_link n) v (st_ino n) (st_dev n)
    (st_nlink n) (st_uid n) (st_gid n) (st_size n) (st_atime n) (st_mtime n)
    (st_ctime n) (st_blocks n) (st_blksize n) (st_rdev n) (st_flags n).
Definition set_uid (v : Z) (n : Stat) : Stat :=
  mkStat (_parent n) (_name n) (_children n) (_link n) (st_mode n) (st_ino n) (st_dev n)
    (st_nlink n) v (st_gid n) (st_size n) (st_atime n) (st_mtime n)
    (st_ctime n) (st_blocks n) (st_blksize n) (st_rdev n) (st_flags n).
Definition set_gid (v : Z) (n : Stat) : Stat :=
  mkStat (_parent n) (_name n) (_children n) (_link n) (st_mode n) (st_ino n) (st_dev n)
    (st_nlink n) (st_uid n) v (st_size n) (st_atime n) (st_mtime n)
    (st_ctime n) (st_blocks n) (st_blksize n) (st_rdev n) (st_flags n).
Definition set_size (v : Z) (n : Stat) : Stat :=
  mkStat (_parent n) (_name n) (_children n) (_link n) (st_mode n) (st_ino n) (st_dev n)
    (st_nlink n) (st_uid n) (st_gid n) v (st_atime n) (st_mtime n)
    (st_ctime n) (st_blocks n) (st_blksize n) (st_rdev n) (st_flags n).
Definition set_atime (v : pytime) (n : Stat) : Stat :=
  mkStat (_parent n) (_name n) (_children n) (_link n) (st_mode n) (st_ino n) (st_dev n)
    (st_nlink n) (st_uid n) (st_gid n) (st_size n) v (st_mtime n)
    (st_ctime n) (st_blocks n) (st_blksize n) (st_rdev n) (st_flags n).
Definition set_mtime (v : pytime) (n : Stat) : Stat :=
  mkStat (_parent n) (_name n) (_children n) (_link n) (st_mode n) (st_ino n) (st_dev n)
    (st_nlink n) (st_uid n) (st_gid n) (st_size n) (st_atime n) v
    (st_ctime n) (st_blocks n) (st_blksize n) (st_rdev n) (st_flags n).
Definition set_rdev (v : Z) (n : Stat) : Stat :=
  mkStat (_parent n) (_name n) (_children n) (_link n) (st_mode n) (st_ino n) (st_dev n)
    (st_nlink n) (st_uid n) (st_gid n) (st_size n) (st_atime n) (st_mtime n)
    (st_ctime n) (st_blocks n) (st_blksize n) v (st_flags n).
Definition set_flags (v : Z) (n : Stat) : Stat :=
  mkStat (_parent n) (_name n) (_children n) (_link n) (st_mode n) (st_ino n) (st_dev n)
    (st_nlink n) (st_uid n) (st_gid n) (st_size n) (st_atime n) (st_mtime n)
    (st_ctime n) (st_blocks n) (st_blksize n) (st_rdev n) v.

(** The assignments of [refresh]: every [_st_attr] from the stat record. *)
Definition set_st_attr (d : stat_result) (n : Stat) : Stat :=
  mkStat (_parent n) (_name n) (_children n) (_link n)
    (r_mode d) (r_ino d) (r_dev d) (r_nlink d) (r_uid d) (r_gid d) (r_size d)
    (TFloat (r_atime d)) (TFloat (r_mtime d)) (TFloat (r_ctime d))
    (r_blocks d) (r_blksize d) (r_rdev d)
    (match r_flags d with Some f => f | None => 0%Z end).

(** *** Pure accessors *)

Definition mode (n : Stat) : Z := S_IMODE (st_mode n).
Definition fmt (n : Stat) : Z := S_IFMT (st_mode n).
Definition isdir (n : Stat) : bool := (fmt n =? S_IFDIR)%Z.
Definition ischr (n : Stat) : bool := (fmt n =? S_IFCHR)%Z.
Definition isblk (n : Stat) : bool := (fmt n =? S_IFBLK)%Z.
Definition isreg (n : Stat) : bool := (fmt n =? S_IFREG)%Z.
Definition islnk (n : Stat) : bool := (fmt n =? S_IFLNK)%Z.
Definition readlink (n : Stat) : option string := _link n.

(** [__nonzero__]: [bool(self.st_ino or self.mode())] *)
Definition __nonzero__ (n : Stat) : bool :=
  negb (st_ino n =? 0)%Z || negb (mode n =? 0)%Z.

(** Comparison of two [_link] values as Python 2 orders them: [None] is
    below every string, strings compare bytewise. *)
Definition link_compare (a b : option string) : comparison :=
  match a, b with
  | None, None => Eq
  | None, Some _ => Lt
  | Some _, None => Gt
  | Some x, Some y => String.compare x y
  end.

Definition sign (z : Z) : Z :=
  if (z <? 0)%Z then (-1)%Z else if (0 <? z)%Z then 1%Z else 0%Z.

(** [or] on integers: the left operand unless it is zero. *)
Definition or_else (a b : Z) : Z := if (a =? 0)%Z then b else a.

(** The last line of [__cmp__]: [-1 if diff < 0 else 1 if diff > 0 else 0]. *)
Definition sign_of (diff : Py.number) : Z :=
  if Py.negative diff then (-1)%Z else if Py.positive diff then 1%Z else 0%Z.

(** [__cmp__]; the subtraction of the two [st_mtime] raises
    [OverflowError] when one is a float and the other an [int] beyond the
    range of the floats. *)
Definition __cmp__ (self other : Stat) : outcome Z :=
  if negb (__nonzero__ self) then Ret (if __nonzero__ other then 1 else 0)%Z
  else if negb (__nonzero__ other) then Ret (-1)%Z
  else
    let diff := (mode self - mode other)%Z in
    let diff := or_else diff (st_uid self - st_uid other)%Z in
    let diff := or_else diff (st_gid self - st_gid other)%Z in
    let diff := or_else diff (st_size self - st_size other)%Z in
    if (diff =? 0)%Z then
      if islnk self then
        Ret match link_compare (readlink self) (readlink other) with
            | Lt => (-1)%Z
            | Gt => 1%Z
            | Eq => 0%Z
            end
      else
        match Py.sub (time_val (st_mtime self)) (time_val (st_mtime other)) with
        | None => Exc OverflowError
        | Some diff =>
            let diff := if Py.gt_half (Py.abs diff) then diff else Py.Int 0 in
            Ret (sign_of diff)
        end
    else Ret (sign diff).

(** *** Methods that touch the heap and the host *)

Section Methods.
Context `{Host}.

(** The class attribute [Stat.writable], installed by [writable_fn]: called
    with a path (or [None]) and a command text. *)
Variable writable : option string -> string -> M bool.

(** [time.time()] *)
Definition time_time : M Py.finite_float :=
  let! tr := the_trace in
  do! emit EvClock in
  ret (host_time tr).

Definition os_geteuid : M Z := let! tr := the_trace in ret (host_geteuid tr).
Definition os_getegid : M Z := let! tr := the_trace in ret (host_getegid tr).

(** [os_lstat]: [None] on [ENOENT], other errors propagate. *)
Definition os_lstat (p : string) : M (option stat_result) :=
  do! incr_statcalls in
  let! tr := the_trace in
  do! emit (EvLstat p) in
  match host_lstat tr p with
  | LstatOk d => ret (Some d)
  | LstatENOENT => ret None
  | LstatError e => raise (OSError e)
  end.

(** The loop of [root]: follow [_parent] until it is [None]. *)
Fixpoint root_loop (fuel : nat) (h : gmap nat Stat) (node : nat) : outcome nat :=
  match fuel with
  | O => Fuel
  | S f =>
      match h !! node with
      | None => Exc (SystemError "dangling reference")
      | Some n =>
          match _parent n with
          | None => Ret node
          | Some p => root_loop f h p
          end
      end
  end.

(** [root]: a parent chain without a cycle is no longer than the heap. *)
Definition root (self : nat) : M nat :=
  fun s => (root_loop (S (size (heap s))) (heap s) self, s).

(** The loop of the [path] property. [None + '/'] and ['/' + None] raise
    [TypeError]. *)
Fixpoint path_loop (fuel : nat) (h : gmap nat Stat) (n : Stat) (acc : option string)
  : outcome (option string) :=
  match _parent n with
  | None => Ret acc
  | Some p =>
      match fuel with
      | O => Fuel
      | S f =>
          match h !! p with
          | None => Exc (SystemError "dangling reference")
          | Some pn =>
              match _name pn, acc with
              | Some pname, Some a => path_loop f h pn (Some (pname ++ "/" ++ a))
              | _, _ => Exc TypeError
              end
          end
      end
  end.

(** The [path] property; [None.startswith] raises [AttributeError]. *)
Definition path (self : nat) : M string :=
  let! n := load self in
  let! h := the_heap in
  let! r := (fun s => (path_loop (size h) h n (_name n), s)) in
  match r with
  | None => raise AttributeError
  | Some a => ret (if Py.startswith a "/" then a else "/" ++ a)
  end.

(** [refresh] *)
Definition refresh (self : nat) (st_data : option stat_result) : M unit :=
  let! st_data :=
    match st_data with
    | None => let! p := path self in os_lstat p
    | Some d => ret (Some d)
    end in
  match st_data with
  | Some d =>
      do! update self (set_st_attr d) in
      let! n := load self in
      if islnk n then
        let! p := path self in
        let! tr := the_trace in
        do! emit (EvReadlink p) in
        match host_readlink tr p with
        | Some target => update self (set_link (Some target))
        | None => raise (OSError "readlink")
        end
      else update self (set_link None)
  | None => ret tt
  end.

(** The third argument of the constructor: nothing, a mode, or a stat
    record. *)
Inductive init_data :=
| DataNone
| DataInt (mode : Z)
| DataStat (d : stat_result).

Definition blank (parent : option nat) (name : string) (uid gid : Z)
    (t : Py.finite_float) : Stat :=
  mkStat parent (Some name) ∅ None 0 0 0 0 uid gid 0
    (TFloat t) (TFloat t) (TFloat t) 0 0 0 0.

(** The part of the constructor that creates the object and enters it in
    its parent's [_children].  The object is put into the heap once the
    assertions have passed: when one fails the half-built object is
    referenced by nothing. *)
Definition register (parent : option nat) (name : string) (uid gid : Z)
    (t : Py.finite_float) : M nat :=
  match parent with
  | None => alloc (blank None name uid gid t)
  | Some p =>
      do! assert (Py.truthy name) in
      let! pn := load p in
      do! assert (negb (bool_decide (is_Some (_children pn !! name)))) in
      let! self := alloc (blank (Some p) name uid gid t) in
      do! update p (fun pn => set_children (<[name := self]> (_children pn)) pn) in
      ret self
  end.

(** [Stat.__init__] *)
Definition __init__ (parent : option nat) (name : string) (data : init_data) : M nat :=
  do! assert (negb (Py.contains "/" name)) in
  let! uid := os_geteuid in
  let! gid := os_getegid in
  let! t := time_time in
  let! self := register parent name uid gid t in
  do! match data with
      | DataInt m => update self (set_mode m)
      | DataNone => refresh self None
      | DataStat d => refresh self (Some d)
      end in
  ret self.

Definition cleared : Stat :=
  mkStat None None ∅ None 0 0 0 0 0 0 0 (TInt 0) (TInt 0) (TInt 0) 0 0 0 0.

(** [clear] *)
Definition clear (self : nat) : M unit :=
  let! n := load self in
  do! for_each (fun (_ : unit) child => update child (set_parent None))
        (map_to_list (_children n)).*2 tt in
  update self (fun _ => cleared).

(** The head of the loop body of [get], at a node that is not [None]: a
    symlink is resolved through [rec], the recursive call
    [node._parent.get(node._link, root, links)], unless it is in [links]
    already. *)
Definition follow_link
    (rec : nat -> string -> nat -> gset nat -> M (option nat * gset nat))
    (root_ node : nat) (links : gset nat) : M (option nat * gset nat) :=
  let! n := load node in
  if Py.truthy_opt (_link n) then
    do! assert (islnk n) in
    do! assert (bool_decide (is_Some (_parent n))) in
    if bool_decide (node ∈ links) then raise (ValueError "recursive symlink")
    else
      match _parent n, _link n with
      | Some p, Some target => rec p target root_ ({[node]} ∪ links)
      | _, _ => raise AssertionError
      end
  else ret (Some node, links).

(** One iteration of the loop of [get].  The loop state is the current
    node and the shared [links] set; once the node is [None] the loop has
    left through [break]. *)
Definition get_body
    (rec : nat -> string -> nat -> gset nat -> M (option nat * gset nat))
    (root_ : nat) (acc : option nat * gset nat) (name : string)
  : M (option nat * gset nat) :=
  match acc with
  | (None, _) => ret acc
  | (Some node, links) =>
      let! acc1 := follow_link rec root_ node links in
      match acc1 with
      | (None, _) => ret acc1
      | (Some node, links) =>
          if negb (Py.truthy name) || String.eqb name "." then ret acc1
          else
            let! n := load node in
            match _children n !! name with
            | Some child => ret (Some child, links)
            | None =>
                if String.eqb name ".." then
                  if Nat.eqb node root_ then ret acc1 else ret (_parent n, links)
                else
                  let! p := path node in
                  let! st_data := os_lstat (Py.path_join p name) in
                  match st_data with
                  | Some d =>
                      let! child := __init__ (Some node) name (DataStat d) in
                      ret (Some child, links)
                  | None => ret (None, links)
                  end
            end
      end
  end.

(** [get]: returns the node (or [None]) and the [links] set as the walk
    left it.  [fuel] bounds the depth of the recursion through symlinks. *)
Fixpoint get (fuel : nat) (self : nat) (p : string) (root_ : option nat)
    (links : option (gset nat)) : M (option nat * gset nat) :=
  match fuel with
  | O => out_of_fuel
  | S f =>
      let! r := match root_ with None => root self | Some r => ret r end in
      let links := default ∅ links in
      let node := if Py.startswith p "/" then r else self in
      do! incr_accesses in
      for_each (get_body (fun q t r' l => get f q t (Some r') (Some l)) r)
        (Py.split "/" p) (Some node, links)
  end.

(** [getdefault] *)
Definition getdefault (fuel : nat) (self : nat) (p : option string) (fmt_ : Z)
    (root_ : option nat) (links : option (gset nat)) : M (nat * gset nat) :=
  let p := default "" p in
  let! r := match root_ with None => root self | Some r => ret r end in
  let links := default ∅ links in
  let '(head, tail) := Py.path_split p in
  let! '(headstat, links) := get fuel self head (Some r) (Some links) in
  let! '(headstat, links) :=
    match headstat with
    | Some hs =>
        let! hn := load hs in
        if islnk hn then get fuel hs "" (Some r) (Some links)
        else ret (headstat, links)
    | None => ret (headstat, links)
    end in
  match headstat with
  | None => raise (ValueError "missing head")
  | Some hs =>
      let! '(node, links) :=
        if Py.truthy tail then
          let! '(node, links) := get fuel hs tail (Some r) (Some links) in
          match node with
          | Some nd => ret (nd, links)
          | None =>
              let! nd := __init__ (Some hs) tail (DataInt fmt_) in
              ret (nd, links)
          end
        else ret (hs, links) in
      let! n := load node in
      if negb (fmt_ =? 0)%Z && negb (fmt n =? fmt_)%Z
      then raise (ValueError "unexpected format")
      else ret (node, links)
  end.

(** [lstat] *)
Definition lstat (fuel : nat) (self : nat) (p : string) (fmt_ : option Z) : M (option nat) :=
  match fmt_ with
  | None => let! '(node, _) := get fuel self p (Some self) None in ret node
  | Some f => let! '(node, _) := getdefault fuel self (Some p) f (Some self) None in ret (Some node)
  end.

(** [stat] *)
Definition stat (fuel : nat) (self : nat) (p : string) (fmt_ : option Z) : M (option nat) :=
  let links : gset nat := ∅ in
  let! '(node, links) :=
    match fmt_ with
    | None => get fuel self p (Some self) (Some links)
    | Some f =>
        let! '(node, links) := getdefault fuel self (Some p) f (Some self) (Some links) in
        ret (Some node, links)
    end in
  match node with
  | None => ret None
  | Some nd => let! '(node, _) := get fuel nd "" (Some self) (Some links) in ret node
  end.

(** *** Mutating operations *)

(** [write_call]: the system call is made only when the [writable]
    predicate answers true; an [OSError] gets the command text prefixed. *)
Definition write_call (self : nat) (cmd : string) (c : syscall) : M (option Z) :=
  let! p := path self in
  let! ok := writable (Some p) cmd in
  if ok then
    let! tr := the_trace in
    do! emit (EvSys c) in
    match host_sys tr c with
    | SysOk v => ret (Some v)
    | SysError e =>
        match c with
        | copydata _ _ => raise (IOError e)
        | _ => raise (OSError (cmd ++ ": " ++ e))
        end
    end
  else ret None.

(** A system call made without asking [writable]. *)
Definition os_call (c : syscall) : M unit :=
  let! tr := the_trace in
  do! emit (EvSys c) in
  match host_sys tr c with
  | SysOk _ => ret tt
  | SysError e => raise (OSError e)
  end.

(** [symlink] *)
Definition symlink (fuel : nat) (self : nat) (target : string) (p : option string) : M nat :=
  let! dststat :=
    match p with
    | None => ret self
    | Some q => let! '(d, _) := getdefault fuel self (Some q) S_IFLNK None None in ret d
    end in
  let! n := load dststat in
  do! if negb (__nonzero__ n) || negb (bool_decide (_link n = Some target)) then
        let! dp := path dststat in
        let cmd := "ln -sf " ++ py_repr target ++ " " ++ py_repr dp in
        let! _ := write_call dststat cmd (os_symlink target dp) in
        do! update dststat (set_mode (Z.lor S_IFLNK 511)) in
        do! update dststat (set_size (Z.of_nat (String.length target))) in
        update dststat (set_link (Some target))
      else ret tt in
  ret dststat.

(** [None < 0] holds in Python 2: a missing id is treated as negative. *)
Definition id_or (given : option Z) (current : Z) : Z :=
  match given with
  | None => current
  | Some v => if (v <? 0)%Z then current else v
  end.

(** [chown] *)
Definition chown (self : nat) (uid gid : option Z) : M nat :=
  let! n := load self in
  let uid := id_or uid (st_uid n) in
  let gid := id_or gid (st_gid n) in
  do! if negb (uid =? st_uid n)%Z || negb (gid =? st_gid n)%Z then
        let! p := path self in
        let cmd := "chown " ++
                   (if negb (uid =? st_uid n)%Z then py_str uid else "") ++
                   (if negb (gid =? st_gid n)%Z then ":" ++ py_str gid else "") ++
                   " " ++ py_repr p in
        let! _ := write_call self cmd (os_lchown p uid gid) in
        do! update self (set_uid uid) in
        update self (set_gid gid)
      else ret tt in
  ret self.

(** [chmod] *)
Definition chmod (self : nat) (mode_ : Z) : M nat :=
  let mode_ := S_IMODE mode_ in
  let! n := load self in
  do! if negb (mode n =? mode_)%Z then
        let! p := path self in
        let cmd := "chmod " ++ py_oct mode_ ++ " " ++ py_repr p in
        let! _ := write_call self cmd (os_chmod p mode_) in
        let! n := load self in
        update self (set_mode (Z.lor (fmt n) mode_))
      else ret tt in
  ret self.

(** [mkdir] *)
Definition mkdir (fuel : nat) (self : nat) (p : option string) (mode_ : Z)
    (uid gid : option Z) : M nat :=
  let! '(dststat, _) := getdefault fuel self p S_IFDIR None None in
  let mode_ := S_IMODE mode_ in
  let! n := load dststat in
  do! if negb (__nonzero__ n) then
        let! dp := path dststat in
        let cmd := "mkdir -m " ++ py_format_o mode_ ++ " " ++ py_repr dp in
        let! _ := write_call dststat cmd (os_mkdir dp mode_) in
        let! n := load dststat in
        update dststat (set_mode (Z.lor (fmt n) mode_))
      else if isdir n then
        let! _ := chmod dststat mode_ in ret tt
      else raise (ValueError "expected dir") in
  let! _ := chown dststat uid gid in
  ret dststat.

(** [mknod] *)
Definition mknod (fuel : nat) (self : nat) (p : option string) (mode_ device : Z) : M nat :=
  let! '(dststat, _) := getdefault fuel self p (S_IFMT mode_) None None in
  let! n := load dststat in
  do! if negb (__nonzero__ n) then
        let! dp := path dststat in
        let cmd := "mknod -m " ++ py_format_o (S_IMODE mode_) ++ " " ++ py_repr dp ++ " " ++
                   (if (S_IFMT mode_ =? S_IFCHR)%Z then "c"
                    else if (S_IFMT mode_ =? S_IFBLK)%Z then "b" else "?") ++ " " ++
                   py_str (host_major device) ++ " " ++ py_str (host_minor device) in
        let! _ := write_call dststat cmd (os_mknod dp mode_ device) in
        do! update dststat (set_mode mode_) in
        update dststat (set_rdev device)
      else
        do! assert (fmt n =? S_IFMT mode_)%Z in
        do! assert (st_rdev n =? device)%Z in
        let! _ := chmod dststat mode_ in ret tt in
  ret dststat.

(** A float is compared with the 0.5 s tolerance, an integer exactly;
    [None] stands for the [OverflowError] of the subtraction. *)
Definition time_differs (old new : pytime) : option bool :=
  match new with
  | TFloat _ =>
      match Py.sub (time_val new) (time_val old) with
      | Some d => Some (Py.gt_half (Py.abs d))
      | None => None
      end
  | TInt _ => Some (Py.ne (time_val new) (time_val old))
  end.

(** [checkcache] *)
Definition checkcache (self : nat) : M bool :=
  let! old := load self in
  let full := negb (isdir old || islnk old) in
  let! p := path self in
  let! tr := the_trace in
  do! emit (EvExists p) in
  do! if host_exists tr p then refresh self None else ret tt in
  let! new := load self in
  let! mtime_differs :=
    if full then
      match time_differs (st_mtime old) (st_mtime new) with
      | Some b => ret b
      | None => raise OverflowError
      end
    else ret false in
  let diff :=
    negb (bool_decide (_link new = _link old))
    || negb (st_mode new =? st_mode old)%Z
    || negb (st_uid new =? st_uid old)%Z
    || negb (st_gid new =? st_gid old)%Z
    || negb (st_rdev new =? st_rdev old)%Z
    || (full && (negb (st_size new =? st_size old)%Z || mtime_differs)) in
  if diff then raise (ValueError "mismatch vs disk") else ret true.

(** [copy2]: both early [raise] statements read [cmd] before it is
    assigned. *)
Definition copy2 (self : nat) (dststat : nat) : M (option nat) :=
  if Nat.eqb self dststat then ret None
  else
    let! src := load self in
    if negb (isreg src) then raise UnboundLocalError
    else
      let! dst := load dststat in
      if __nonzero__ dst && negb (isreg dst) then raise UnboundLocalError
      else
        let! sp := path self in
        let! dp := path dststat in
        let cmd := "cp -p " ++ sp ++ " " ++ dp in
        do! update dststat (set_size (st_size src)) in
        do! update dststat (set_uid (st_uid src)) in
        do! update dststat (set_gid (st_gid src)) in
        do! update dststat (set_flags (st_flags src)) in
        do! update dststat (set_mode (st_mode src)) in
        do! update dststat (set_atime (st_atime src)) in
        do! update dststat (set_mtime (st_mtime src)) in
        let! written := write_call dststat cmd (copydata sp dp) in
        do! match written with
            | Some v =>
                if (v =? 0)%Z then ret tt
                else
                  let! dp := path dststat in
                  do! os_call (os_lchown dp (st_uid src) (st_gid src)) in
                  do! os_call (os_chmod dp (st_mode src)) in
                  do! if host_has_chflags then os_call (os_chflags dp (st_flags src))
                      else ret tt in
                  do! os_call (os_utime dp (st_atime src) (st_mtime src)) in
                  let! _ := checkcache dststat in ret tt
            | None => ret tt
            end in
        ret (Some dststat).

(** The [mtime] argument of [utime]: nothing, a text in [_utimeformat], or
    a number (an [int], or a float that is finite). *)
Inductive utime_arg :=
| UtNone
| UtStr (text : string)
| UtNum (t : pytime).

(** [utime]; the subtraction raises [OverflowError] when one of [mtime] and
    [st_mtime] is a float and the other an [int] beyond the range of the
    floats. *)
Definition utime (self : nat) (mtime : utime_arg) : M (option nat) :=
  let! mtime :=
    match mtime with
    | UtNone => let! t := time_time in ret (TFloat t)
    | UtStr text =>
        match host_strptime text with
        | Some t => ret (TFloat t)
        | None => raise (ValueError "time data does not match format")
        end
    | UtNum t => ret t
    end in
  let! n := load self in
  match Py.sub (time_val mtime) (time_val (st_mtime n)) with
  | None => raise OverflowError
  | Some d =>
      if Py.lt_half (Py.abs d) then ret None
      else
        do! if host_has_utime then
              let! p := path self in
              let cmd := "touch -m -t " ++ host_strftime mtime ++ " " ++ py_repr p in
              let! _ := write_call self cmd (os_utime p mtime mtime) in
              ret tt
            else ret tt in
        do! update self (set_atime mtime) in
        do! update self (set_mtime mtime) in
        ret (Some self)
  end.

(** The [flags] argument of [chflags]. *)
Inductive flags_arg :=
| FlStr (text : string)
| FlInt (flags : Z).

(** [chflags] *)
Definition chflags (self : nat) (flags : flags_arg) : M (option nat) :=
  let! flags :=
    match flags with
    | FlInt z => ret z
    | FlStr text =>
        match py_int0 text with
        | Some z => ret z
        | None => raise (ValueError "invalid literal for int()")
        end
    end in
  let! n := load self in
  if (st_flags n =? flags)%Z then ret None
  else
    do! if host_has_chflags then
          let! p := path self in
          let cmd := "chflags " ++ py_oct flags ++ " " ++ py_repr p in
          let! _ := write_call self cmd (os_chflags p flags) in
          ret tt
        else ret tt in
    do! update self (set_flags flags) in
    ret (Some self).

(** [remove] *)
Definition remove (self : nat) : M unit :=
  let! n := load self in
  do! assert (negb (isdir n)) in
  let! p := path self in
  let cmd := "rm -f " ++ py_repr p in
  let! _ := write_call self cmd (os_remove p) in
  clear self.

(** [rmdir] *)
Definition rmdir (self : nat) : M unit :=
  let! n := load self in
  do! assert (isdir n) in
  let! p := path self in
  let cmd := "rmdir " ++ py_repr p in
  let! _ := write_call self cmd (os_rmdir p) in
  clear self.

(** [listdir]; [None.path] raises [AttributeError]. *)
Definition listdir (fuel : nat) (self : nat) (p : option string) : M (list string) :=
  let! node :=
    match p with
    | None => ret (Some self)
    | Some q => stat fuel self q None
    end in
  match node with
  | None => raise AttributeError
  | Some nd =>
      let! np := path nd in
      let! tr := the_trace in
      do! emit (EvListdir np) in
      let! entries :=
        match host_listdir tr np with
        | ListdirOk names => ret names
        | ListdirENOENT => ret []
        | ListdirError e => raise (OSError e)
        end in
      let! n := load nd in
      ret (Py.sorted_set (entries ++ (map_to_list (_children n)).*1))
  end.

(** [rm_rf] *)
Fixpoint rm_rf (fuel : nat) (self : nat) (dstpath : string) : M unit :=
  match fuel with
  | O => out_of_fuel
  | S f =>
      let! '(dststat, _) := get f self dstpath None None in
      match dststat with
      | None => ret tt
      | Some d =>
          let! n := load d in
          if __nonzero__ n then
            if isdir n then
              let! dp := path d in
              do! assert (2 <? Py.count "/" dp)%nat in
              let! names := listdir f d None in
              do! for_each (fun (_ : unit) name => rm_rf f d name) names tt in
              rmdir d
            else remove d
          else ret tt
      end
  end.

(** [setgid] *)
Definition setgid (gid : Z) : M unit :=
  let! egid := os_getegid in
  if (gid <? 1)%Z || (gid =? egid)%Z then ret tt
  else
    match host_gr_name gid with
    | None => raise KeyError
    | Some name =>
        let cmd := "sg " ++ name in
        let! ok := writable None cmd in
        if ok then os_call (os_setgid gid) else ret tt
    end.

(** [setuid] *)
Definition setuid (uid : Z) : M unit :=
  let! euid := os_geteuid in
  if (uid <? 1)%Z || (uid =? euid)%Z then ret tt
  else
    match host_pw_name uid with
    | None => raise KeyError
    | Some name =>
        let cmd := "su " ++ name in
        let! ok := writable None cmd in
        if ok then os_call (os_setuid uid) else ret tt
    end.

(** [makedirs]: the components of [path] that are not empty are looked up
    one after the other, and created with [mkdir] where the lookup finds
    nothing. *)
Definition makedirs (fuel : nat) (self : nat) (p : string) (mode_ : option Z)
    (root_ : option nat) (links : option (gset nat)) : M nat :=
  let mode_ := match mode_ with None => 488%Z | Some m => S_IMODE m end in
  let! r := match root_ with None => root self | Some r => ret r end in
  let links := default ∅ links in
  let node := if Py.startswith p "/" then r else self in
  let! '(node, _) :=
    for_each
      (fun (acc : nat * gset nat) name =>
         let '(node, links) := acc in
         let! '(child, links) := get fuel node name (Some r) (Some links) in
         match child with
         | Some c => ret (c, links)
         | None =>
             let! c := mkdir fuel node (Some name) mode_ None None in
             ret (c, links)
         end)
      (List.filter Py.truthy (Py.split "/" p)) (node, links) in
  ret node.

(** [cp_p]; [None.fmt()] raises [AttributeError]. *)
Definition cp_p (fuel : nat) (self : nat) (srcpath dstpath : string) : M nat :=
  let! '(srcstat, _) := get fuel self srcpath None None in
  match srcstat with
  | None => raise AttributeError
  | Some src =>
      let! sn := load src in
      let! '(dststat, _) := getdefault fuel self (Some dstpath) (fmt sn) None None in
      let! _ := copy2 src dststat in
      ret dststat
  end.

(** The module-level function [default_readable_fn], called with a path
    and a command text. *)
Definition default_readable_fn (p : option string) (command_text : string) : M bool :=
  do! (if Py.truthy command_text then emit (EvPrint command_text) else ret tt) in
  ret true.

(** The module-level function [default_writable_fn], called with a path
    and a command text; [repr(None)] is ["None"]. *)
Definition default_writable_fn (p : option string) (command_text : string) : M bool :=
  do! (if Py.truthy command_text then
         emit (EvPrint ("# " ++ py_repr command_text ++ " (" ++
                        match p with Some q => py_repr q | None => "None" end ++ ")"))
       else ret tt) in
  ret false.

(** The class attribute [Stat.writable] as the class body leaves it,
    [writable = default_writable_fn]: a plain function stored in a class is
    bound as a method when it is looked up.  [self.writable(self.path, cmd)]
    therefore hands three arguments to the two-argument function, and
    [cls.writable(None, cmd)] calls an unbound method on something that is no
    [Stat]: both raise [TypeError] before the function body runs.  The
    attribute can be called once [writable_fn] has put a bound method in its
    place, as [Jail.parse] does with [self.writable]. *)
Definition Stat_writable (p : option string) (command_text : string) : M bool :=
  raise TypeError.

(** [count_statcalls], [count_accesses] *)
Definition count_statcalls : M nat := fun s => (Ret (_count_statcalls s), s).
Definition count_accesses : M nat := fun s => (Ret (_count_accesses s), s).

(** [hitratio]: [100] minus the percentage of accesses that led to a
    [lstat] call, and [100] when nothing was accessed. *)
Definition hitratio : M Q :=
  fun s =>
    let misspercentage :=
      if (_count_accesses s =? 0)%nat then 0%Q
      else ((100 * inject_Z (Z.of_nat (_count_statcalls s)))
            / inject_Z (Z.of_nat (_count_accesses s)))%Q in
    (Ret (100 - misspercentage)%Q, s).

End Methods.

End Sfs.

(** ** The jail builder ([jail.py]) *)

Module Jail.

(** The part of [JailConfig] the modelled methods read.  A compiled regular
    expression is represented by its [match] function. *)
Record JailConfig := mkJailConfig {
  test : bool;
  verbose : bool;
  writepath_rx : string -> bool
}.

(** The [Jail] object: its configuration, the [--try] counter, the loader
    caches and templates, and the shadow filesystem it drives ([_srcroot] is
    the root node, [fs] the state that node lives in).  The
    [ldlist] command template is represented by the argument vector it
    formats to, the [ldlist] regular expression by the list of its first
    groups over a text. *)
Record Jail := mkJail {
  cfg : JailConfig;
  _srcroot : nat;
  opt_try : Z;
  ldlinux_so : option string;
  _ldlist_cmd : option string -> string -> list string;
  _ldlist_rx : string -> list string;
  ldlist_count : nat;
  _ldlist_cache : gmap string (gset string);
  _ldso_cache : gmap string (gset string);
  fs : Sfs.state
}.

Definition JM (A : Type) : Type := Jail -> outcome A * Jail.

Definition ret {A} (a : A) : JM A := fun j => (Ret a, j).
Definition raise {A} (e : exn) : JM A := fun j => (Exc e, j).
Definition bind {A B} (m : JM A) (f : A -> JM B) : JM B :=
  fun j =>
    match m j with
    | (Ret a, j') => f a j'
    | (Exc e, j') => (Exc e, j')
    | (Fuel, j') => (Fuel, j')
    end.

Notation "'let!' x ':=' m 'in' k" := (bind m (fun x => k))
  (at level 10, x name, m at level 100, k at level 200, only parsing).
Notation "'let!' ' p ':=' m 'in' k" := (bind m (fun x => match x with p => k end))
  (at level 10, p strict pattern, m at level 100, k at level 200, only parsing).
Notation "'do!' m 'in' k" := (bind m (fun _ => k))
  (at level 10, m at level 100, k at level 200, only parsing).

(** [try: m] with the outcome handed to the handlers. *)
Definition attempt {A} (m : JM A) : JM (outcome A) :=
  fun j => let '(r, j') := m j in (Ret r, j').

Definition set_fs (j : Jail) (s : Sfs.state) : Jail :=
  mkJail (cfg j) (_srcroot j) (opt_try j) (ldlinux_so j) (_ldlist_cmd j) (_ldlist_rx j)
    (ldlist_count j) (_ldlist_cache j) (_ldso_cache j) s.

Definition set_opt_try (v : Z) (j : Jail) : Jail :=
  mkJail (cfg j) (_srcroot j) v (ldlinux_so j) (_ldlist_cmd j) (_ldlist_rx j)
    (ldlist_count j) (_ldlist_cache j) (_ldso_cache j) (fs j).



(** Run a shadow-filesystem computation on the jail's [fs]. *)
Definition lift {A} (m : Sfs.M A) : JM A :=
  fun j => let '(r, s) := m (fs j) in (r, set_fs j s).

Definition self_ : JM Jail := fun j => (Ret j, j).
Definition modify (f : Jail -> Jail) : JM unit := fun j => (Ret tt, f j).

(** [print >> sys.stderr, text] *)
Definition print (text : string) : JM unit := lift (Sfs.emit (EvPrint text)).

(** [log] *)
Definition log (text : string) : JM unit :=
  let! j := self_ in
  if test (cfg j) || verbose (cfg j) then print ("## " ++ text) else ret tt.

(** [writable], as a computation on the shadow filesystem's state: it reads
    the configuration only. *)
Definition writable (c : JailConfig) (dstpath : option string) (cmd : option string)
  : Sfs.M bool :=
  let allowed := match dstpath with None => true | Some p => writepath_rx c p end in
  Sfs.bind
    (if Py.truthy_opt cmd then
       let text := default "" cmd in
       if negb allowed then Sfs.raise (ValueError "writepath disallows")
       else if test c then Sfs.emit (EvPrint text)
       else if verbose c then Sfs.emit (EvPrint ("# " ++ text))
       else Sfs.ret tt
     else Sfs.ret tt)
    (fun _ => Sfs.ret (if test c then false else allowed)).

(** The predicate [parse] installs with [writable_fn(self.writable)]. *)
Definition writable_fn (c : JailConfig) : option string -> string -> Sfs.M bool :=
  fun dstpath cmd => writable c dstpath (Some cmd).

Section Commands.
Context `{Host}.

(** *** The command loop *)

(** A queued [cli.Command]: its text and the bound method it calls. *)
Record Command := mkCommand {
  text : string;
  func : JM unit
}.

(** [Command.__call__]: a [CommandLineError] (of which [JailError] is the
    only one raised here) gets the command text prefixed. *)
Definition call (c : Command) : JM unit :=
  let! r := attempt (func c) in
  match r with
  | Ret _ => ret tt
  | Exc (JailError e) => raise (JailError (text c ++ ": " ++ e))
  | Exc e => raise e
  | Fuel => fun j => (Fuel, j)
  end.

(** [cli_try], the handler of [--try]. *)
Definition cli_try : JM unit := modify (set_opt_try 2).

(** The head of the loop body of [parse]: the counter goes down by one
    unless it is zero, and the command's text is logged. *)
Definition parse_enter (c : Command) : JM unit :=
  do! (let! j := self_ in
       if negb (opt_try j =? 0)%Z then modify (set_opt_try (opt_try j - 1)) else ret tt) in
  log (text c).

(** The [try] statement of the loop body: only [JailError] and [OSError]
    are handled, and re-raised when the counter is zero. *)
Definition parse_try (c : Command) : JM unit :=
  let! r := attempt (call c) in
  match r with
  | Ret _ => ret tt
  | Exc e =>
      match e with
      | JailError msg | OSError msg =>
          let! j := self_ in
          let msg' := (if negb (opt_try j =? 0)%Z then "--try " else "") ++ msg in
          do! log msg' in
          let! j := self_ in
          if (opt_try j =? 0)%Z then
            raise (match e with JailError _ => JailError msg' | _ => OSError msg' end)
          else ret tt
      | _ => raise e
      end
  | Fuel => fun j => (Fuel, j)
  end.

(** One iteration of the loop of [parse]. *)
Definition parse_step (c : Command) : JM unit :=
  do! parse_enter c in parse_try c.

(** The loop [for cmd in cli_list] of [parse]. *)
Fixpoint parse_loop (cli_list : list Command) : JM unit :=
  match cli_list with
  | [] => ret tt
  | c :: rest => do! parse_step c in parse_loop rest
  end.

(** [chmod], the handler of [--chmod], for a [dstpath] that is absolute and
    holds no [{key}] token (so that [subprops] and [abspath] leave it as it
    is) and a [mode] already decoded.  [dststat]'s bookkeeping of the uids
    and gids it has seen is left out. *)
Definition chmod (fuel : nat) (dstpath : string) (mode_ : Z) : JM unit :=
  let! j := self_ in
  let! _ := lift (writable (cfg j) (Some dstpath) None) in
  let dstpath := if String.eqb dstpath "//" then "/" else dstpath in
  let! '(dststat, _) := lift (Sfs.get fuel (_srcroot j) dstpath None None) in
  match dststat with
  | None => raise AttributeError
  | Some d => let! _ := lift (Sfs.chmod (writable_fn (cfg j)) d mode_) in ret tt
  end.

(** *** Subprocesses *)

(** [pcall]: [Popen] raises [OSError] when the program cannot be started;
    the exit status is not examined. *)
Definition pcall (args : list string) : JM string :=
  let! j := self_ in
  do! (if verbose (cfg j) then print ("# " ++ Py.join " " args) else ret tt) in
  let! tr := lift Sfs.the_trace in
  do! lift (Sfs.emit (EvPopen args)) in
  match host_popen tr args with
  | PopenOutput _ out => ret out
  | PopenOSError e => raise (OSError e)
  end.

(** [subcall] *)
Definition subcall (args : list string) : JM string :=
  let! j := self_ in
  if test (cfg j) then do! print (Py.join " " args) in ret ""
  else
    let! r := attempt (pcall args) in
    match r with
    | Ret out => ret out
    | Exc CalledProcessError => raise (JailError (py_repr (Py.join " " args)))
    | Exc e => raise e
    | Fuel => fun j => (Fuel, j)
    end.




(** *** Bind mounts *)

(** The module constant [JAILHOME], read from the environment at import. *)
Variable JAILHOME : string.

(** One token of the loop of [bindopts]. *)
Definition bindopts_token (opts : gset string) (opt : string) : gset string :=
  if negb (Py.truthy opt) || String.eqb opt "suid" then opts
  else
    let opts :=
      if String.eqb opt "rw" then opts ∖ {["ro"]}
      else if String.eqb opt "ro" then opts ∖ {["rw"]}
      else if Py.startswith opt "no" then opts ∖ {[Py.drop 2 opt]}
      else opts ∖ {["no" ++ opt]} in
    opts ∪ {[opt]}.

(** [bindopts] *)
Definition bindopts (c : JailConfig) (srcpath : option string) (bindopts_ : option string)
  : gset string :=
  let '(srcpath, opts) :=
    if Py.truthy_opt srcpath
    then (default "" srcpath,
          ({["noexec"; "ro"; "nosuid"; "remount"; "bind"; "noatime"]} : gset string))
    else ("", ({["exec"; "rw"; "suid"; "remount"; "noatime"]} : gset string)) in
  let b := Py.lower (if Py.truthy_opt bindopts_ then default "" bindopts_ else "auto") in
  let b :=
    if String.eqb b "auto" then
      if Py.startswith srcpath JAILHOME then "exec,ro"
      else if writepath_rx c srcpath then "noexec,rw"
      else "noexec,ro"
    else b in
  foldl bindopts_token opts (map Py.strip (Py.split "," b)).

(** A stable sort by an integer key, as [sorted] and [list.sort] are:
    insertion from the right keeps equal keys in their order. *)
Fixpoint insert_by (key : string -> nat) (x : string) (l : list string) : list string :=
  match l with
  | [] => [x]
  | y :: rest => if (key x <=? key y)%nat then x :: l else y :: insert_by key x rest
  end.

Definition sort_by (key : string -> nat) (l : list string) : list string :=
  foldr (insert_by key) [] l.

(** Iteration orders Python leaves unspecified: the keys of a [dict] and
    the elements of a [set]. *)
Variable iterkeys : gmap string (string * gset string) -> list string.
Variable iter_set : gset string -> list string.

(** [pathlist] of [mount]: sorted by length, then sorted by ['/']-count. *)
Definition pathlist (binds : gmap string (string * gset string)) : list string :=
  sort_by (Py.count "/") (sort_by String.length (iterkeys binds)).

(** The body of the final loop of [mount], over a list of destinations. *)
Fixpoint mount_loop (binds mounts : gmap string (string * gset string))
    (l : list string) : JM unit :=
  match l with
  | [] => ret tt
  | dstpath :: rest =>
      match binds !! dstpath with
      | None => raise KeyError
      | Some (srcpath, opts) =>
          do! (if bool_decide (is_Some (mounts !! dstpath)) then ret tt
               else let! _ := subcall ["/bin/mount"; "--bind"; srcpath; dstpath] in ret tt) in
          let! _ := subcall ["/bin/mount"; "-o"; Py.join "," (iter_set opts); dstpath] in
          mount_loop binds mounts rest
      end
  end.

(** The final loop of [mount] over the fresh bind-specs. *)
Definition mount_binds (binds mounts : gmap string (string * gset string)) : JM unit :=
  mount_loop binds mounts (pathlist binds).

(** A stable sort by an integer key with [reverse=True]: descending keys,
    equal keys in their original order. *)
Fixpoint insert_by_desc (key : string -> nat) (x : string) (l : list string) : list string :=
  match l with
  | [] => [x]
  | y :: rest => if (key y <=? key x)%nat then x :: l else y :: insert_by_desc key x rest
  end.

Definition sort_by_desc (key : string -> nat) (l : list string) : list string :=
  foldr (insert_by_desc key) [] l.

(** [dirs] of [umount]: sorted by length and then by ['/']-count, both
    descending. *)
Definition umount_dirs (mounts : gmap string (string * gset string)) : list string :=
  sort_by_desc (Py.count "/") (sort_by_desc String.length (iterkeys mounts)).

End Commands.

(** [readable] *)
Definition readable (c : JailConfig) (srcpath : option string) (cmd : option string)
  : Sfs.M bool :=
  Sfs.bind
    (if Py.truthy_opt cmd then
       let text := default "" cmd in
       if test c then Sfs.emit (EvPrint text)
       else if verbose c then Sfs.emit (EvPrint ("# " ++ text))
       else Sfs.ret tt
     else Sfs.ret tt)
    (fun _ => Sfs.ret true).

(** One argument of [_cli_mapper]: a bundle of short options [-abc] is
    taken apart into [-a], [-b], [-c]. *)
Definition _cli_mapper_arg (arg : string) : list string :=
  if (2 <? String.length arg)%nat
     && bool_decide (String.get 0 arg = Some "-"%char)
     && negb (bool_decide (String.get 1 arg = Some "-"%char))
  then map (fun ch => String "-" (String ch EmptyString)) (list_ascii_of_string (Py.drop 1 arg))
  else [arg].

(** [_cli_mapper] *)
Definition _cli_mapper (args : list string) : list string :=
  flat_map _cli_mapper_arg args.

(** A user or group argument of [namespec]: nothing, a name, or a number. *)
Inductive name_arg :=
| NameNone
| NameStr (name : string)
| NameInt (id : Z).

(** [x or None] on a string. *)
Definition or_none (s : string) : name_arg :=
  if Py.truthy s then NameStr s else NameNone.

(** The check of one name of [namespec] against [validname_rx]. *)
Definition checked_name (validname_rx : string -> bool) (what : string) (x : name_arg)
  : outcome name_arg :=
  match x with
  | NameStr s =>
      match or_none s with
      | NameStr s' =>
          if validname_rx s' then Ret (NameStr s')
          else Exc (JailError ("invalid " ++ what ++ " name"))
      | other => Ret other
      end
  | other => Ret other
  end.

(** [JailConfig.namespec] *)
Definition namespec (validname_rx : string -> bool) (user group : name_arg)
  : outcome (name_arg * name_arg) :=
  let '(user, group) :=
    match user, group with
    | NameStr u, NameNone => let '(a, b) := Py.partition ":" u in (NameStr a, NameStr b)
    | _, _ => (user, group)
    end in
  match checked_name validname_rx "user" user with
  | Ret user =>
      match checked_name validname_rx "group" group with
      | Ret group => Ret (user, group)
      | Exc e => Exc e
      | Fuel => Fuel
      end
  | Exc e => Exc e
  | Fuel => Fuel
  end.

End Jail.

(** ** A host for examples *)

Module Demo.

(** A host with an empty disk on which every call succeeds: the process
    runs as uid and gid 1000, [repr] quotes, numbers print as ["0"]. *)
Definition epoch : Py.finite_float := Py.mkFinite Py.zero eq_refl.

(** The float nearest to [n / 10], for [n] from 0 to 10: what Python reads
    the literals [0.1] to [0.9] as. *)
Definition tenth_of (n : Z) : Py.float :=
  SpecFloat.SFdiv Py.prec Py.emax
    (SpecFloat.binary_normalize Py.prec Py.emax n 0 false)
    (SpecFloat.binary_normalize Py.prec Py.emax 10 0 false).

Definition tenths (n : Z) : Py.finite_float :=
  match Py.finite (tenth_of n) as b return Py.finite (tenth_of n) = b -> Py.finite_float with
  | true => Py.mkFinite (tenth_of n)
  | false => fun _ => epoch
  end eq_refl.

Definition quiet_host : Host := {|
  host_lstat := fun _ _ => LstatENOENT;
  host_readlink := fun _ _ => None;
  host_listdir := fun _ _ => ListdirENOENT;
  host_exists := fun _ _ => false;
  host_sys := fun _ _ => SysOk 0;
  host_popen := fun _ _ => PopenOutput 0 "";
  host_time := fun _ => epoch;
  host_geteuid := fun _ => 1000%Z;
  host_getegid := fun _ => 1000%Z;
  host_pw_name := fun _ => Some "user";
  host_gr_name := fun _ => Some "group";
  host_has_utime := true;
  host_has_chflags := false;
  host_major := fun _ => 0%Z;
  host_minor := fun _ => 0%Z;
  host_strftime := fun _ => "197001010000.00";
  host_strptime := fun _ => None;
  py_int0 := fun _ => None;
  py_repr := fun s => "'" ++ s ++ "'";
  py_oct := fun _ => "0";
  py_format_o := fun _ => "0";
  py_str := fun _ => "0"
|}.


(** The default [writepath] expression
    [^/(tmp|(run|mnt|var)/jailbase)($|/)] as a function. *)
Definition default_writepath (p : string) : bool :=
  existsb (fun base => String.eqb p base || Py.startswith p (base ++ "/"))
    ["/tmp"; "/run/jailbase"; "/mnt/jailbase"; "/var/jailbase"].

Definition production : Jail.JailConfig := Jail.mkJailConfig false false default_writepath.
Definition test_mode : Jail.JailConfig := Jail.mkJailConfig true false default_writepath.

(** A node with inode 1 and the given links, target and mode. *)
Definition node (parent : option nat) (name : string) (children : gmap string nat)
    (link : option string) (mode_ : Z) : Sfs.Stat :=
  Sfs.mkStat parent (Some name) children link mode_ 1 0 0 0 0 0
    (TInt 0) (TInt 0) (TInt 0) 0 0 0 0.

(** The state of a fresh process holding the heap [h]. *)
Definition state_of (h : gmap nat Sfs.Stat) : Sfs.state := Sfs.mkState h [] 0 0.

(** A jail object over a filesystem state, rooted at node 0, with empty
    caches. *)
Definition jail_of (c : Jail.JailConfig) (s : Sfs.state) : Jail.Jail :=
  Jail.mkJail c 0 0 (Some "/lib64/ld-linux-x86-64.so.2")
    (fun so p => [default "None" so; "--list"; p]) (fun _ => []) 0 ∅ ∅ s.

End Demo.

(** * Properties *)

(** ** The comparison order of two nodes *)

Module CmpOrder.
Import Sfs.

Definition cmp_to_Z (c : comparison) : Z :=
  match c with Lt => (-1)%Z | Eq => 0%Z | Gt => 1%Z end.

(** The result of a comparison that may raise. *)
Definition cmp_result (r : outcome comparison) : outcome Z :=
  match r with
  | Ret c => Ret (cmp_to_Z c)
  | Exc e => Exc e
  | Fuel => Fuel
  end.

(** Lexicographic combination: the first difference decides. *)
Definition lex (c1 c2 : comparison) : comparison :=
  match c1 with Eq => c2 | _ => c1 end.

(** Modification times: with [d] the difference [a.st_mtime - b.st_mtime]
    as Python computes it (exactly on two [int]s, in floats otherwise), the
    times are equal unless [abs(d)] exceeds 0.5, and ordered by the sign of
    [d] when it does. *)
Definition mtime_order (a b : Stat) : outcome comparison :=
  match Py.sub (time_val (st_mtime a)) (time_val (st_mtime b)) with
  | None => Exc OverflowError
  | Some d =>
      Ret (if Py.gt_half (Py.abs d) then (if Py.negative d then Lt else Gt) else Eq)
  end.

(** Permission bits, then uid, then gid, then size. *)
Definition fields_order (a b : Stat) : comparison :=
  lex (mode a ?= mode b)%Z
   (lex (st_uid a ?= st_uid b)%Z
     (lex (st_gid a ?= st_gid b)%Z (st_size a ?= st_size b)%Z)).

(** The order on two existing nodes: the fields, and where they are equal
    the link targets or the modification times. *)
Definition existing_order (a b : Stat) : outcome comparison :=
  match fields_order a b with
  | Eq => if islnk a then Ret (link_compare (readlink a) (readlink b))
          else mtime_order a b
  | c => Ret c
  end.

(** The order as the specification words it: a non-existent node after an
    existing one, every other pair by the field comparison. *)
Definition spec_order (a b : Stat) : outcome comparison :=
  match __nonzero__ a, __nonzero__ b with
  | false, true => Ret Gt
  | true, false => Ret Lt
  | _, _ => existing_order a b
  end.

(** The order the code implements: two non-existent nodes are equal. *)
Definition code_order (a b : Stat) : outcome comparison :=
  match __nonzero__ a, __nonzero__ b with
  | false, true => Ret Gt
  | true, false => Ret Lt
  | false, false => Ret Eq
  | true, true => existing_order a b
  end.

Lemma sign_sub (x y : Z) : sign (x - y) = cmp_to_Z (x ?= y)%Z.
Proof.
  unfold sign. destruct (Z.compare_spec x y) as [E|L|G]; simpl.
  - subst. rewrite Z.sub_diag. reflexivity.
  - destruct (Z.ltb_spec (x - y) 0); [reflexivity | lia].
  - destruct (Z.ltb_spec (x - y) 0); [lia |].
    destruct (Z.ltb_spec 0 (x - y)); [reflexivity | lia].
Qed.

Lemma sub_eqb_0 (x y : Z) : (x - y =? 0)%Z = true <-> (x ?= y)%Z = Eq.
Proof.
  rewrite Z.eqb_eq, Z.compare_eq_iff. lia.
Qed.

Lemma or_else_sub (x y d : Z) :
  or_else (x - y) d = if (x - y =? 0)%Z then d else (x - y)%Z.
Proof. reflexivity. Qed.

(** A float beyond 0.5 in absolute value is negative or positive. *)
Lemma beyond_half_signed (d : Py.number) :
  Py.gt_half (Py.abs d) = true -> Py.positive d = negb (Py.negative d).
Proof.
  destruct d as [z|f]; cbn [Py.gt_half Py.abs Py.positive Py.negative].
  - intros Hz. apply Z.ltb_lt in Hz.
    destruct (Z.ltb_spec z 0), (Z.ltb_spec 0 z); cbn [negb]; try reflexivity; lia.
  - destruct f as [s|s| |s m e]; cbn; try discriminate; destruct s; reflexivity.
Qed.

Lemma mtime_branch (a b : Stat) :
  match Py.sub (time_val (st_mtime a)) (time_val (st_mtime b)) with
  | None => Exc OverflowError
  | Some diff =>
      let diff := if Py.gt_half (Py.abs diff) then diff else Py.Int 0 in
      Ret (sign_of diff)
  end = cmp_result (mtime_order a b).
Proof.
  unfold mtime_order.
  destruct (Py.sub (time_val (st_mtime a)) (time_val (st_mtime b))) as [d|];
    [|reflexivity].
  cbv zeta. cbn [cmp_result]. f_equal.
  destruct (Py.gt_half (Py.abs d)) eqn:E; [|reflexivity].
  unfold sign_of. rewrite (beyond_half_signed d E).
  destruct (Py.negative d); reflexivity.
Qed.

(** The last step of [__cmp__] on an accumulated difference. *)
Definition finish (diff tz : Z) : Z := if (diff =? 0)%Z then tz else sign diff.

Lemma or_else_assoc (a b c : Z) : or_else (or_else a b) c = or_else a (or_else b c).
Proof. unfold or_else. destruct (a =? 0)%Z eqn:E; [reflexivity | now rewrite E]. Qed.

Lemma finish_or_else (d e tz : Z) :
  finish (or_else d e) tz = if (d =? 0)%Z then finish e tz else sign d.
Proof. unfold finish, or_else. destruct (d =? 0)%Z eqn:E; [reflexivity | now rewrite E]. Qed.

Lemma lex_step (x y v : Z) (c : comparison) :
  v = cmp_to_Z c ->
  (if (x - y =? 0)%Z then v else sign (x - y)) = cmp_to_Z (lex (x ?= y)%Z c).
Proof.
  intros Hv. rewrite sign_sub.
  destruct (Z.eqb_spec (x - y) 0) as [E|E].
  - assert (Hc : (x ?= y)%Z = Eq) by (apply Z.compare_eq_iff; lia).
    rewrite Hc. exact Hv.
  - destruct (x ?= y)%Z eqn:Hc; try reflexivity.
    apply Z.compare_eq_iff in Hc. lia.
Qed.

(** The chain [diff = diff or ...] followed by the sign is the
    lexicographic comparison of the four fields, then the tie-break. *)
Lemma diff_chain (m1 m2 u1 u2 g1 g2 s1 s2 tz : Z) (tc : comparison) :
  tz = cmp_to_Z tc ->
  finish (or_else (or_else (or_else (m1 - m2) (u1 - u2)) (g1 - g2)) (s1 - s2)) tz
  = cmp_to_Z (lex (m1 ?= m2)%Z (lex (u1 ?= u2)%Z (lex (g1 ?= g2)%Z (lex (s1 ?= s2)%Z tc)))).
Proof.
  intros Ht. rewrite !or_else_assoc, !finish_or_else.
  apply lex_step, lex_step, lex_step.
  unfold finish. now apply lex_step.
Qed.

Lemma lex_Eq (c : comparison) : lex c Eq = c.
Proof. destruct c; reflexivity. Qed.

Lemma sign_0 (z : Z) : (z =? 0)%Z = true -> sign z = 0%Z.
Proof. intros Hz. apply Z.eqb_eq in Hz. subst z. reflexivity. Qed.

(** The accumulated difference of [__cmp__] has the sign of the
    comparison of the four fields. *)
Lemma fields_diff (a b : Stat) :
  sign (or_else (or_else (or_else (mode a - mode b) (st_uid a - st_uid b))
                  (st_gid a - st_gid b)) (st_size a - st_size b))
  = cmp_to_Z (fields_order a b).
Proof.
  pose proof (diff_chain (mode a) (mode b) (st_uid a) (st_uid b) (st_gid a) (st_gid b)
                (st_size a) (st_size b) 0 Eq eq_refl) as Hc.
  rewrite lex_Eq in Hc. unfold fields_order. rewrite <- Hc. unfold finish.
  destruct (_ =? 0)%Z eqn:E; [|reflexivity]. now apply sign_0.
Qed.

Lemma cmp_to_Z_0 (c : comparison) : cmp_to_Z c = 0%Z <-> c = Eq.
Proof. destruct c; cbn; split; intros; try reflexivity; discriminate. Qed.

Lemma sign_eq_0 (z : Z) : sign z = 0%Z <-> z = 0%Z.
Proof.
  unfold sign. destruct (Z.ltb_spec z 0), (Z.ltb_spec 0 z); split; intros; try lia;
    discriminate.
Qed.

(** C7 (as amended). [__cmp__] puts a non-existent node after an existing
    one, makes two non-existent nodes equal, and orders two existing nodes
    by permission bits, then uid, then gid, then size, then -- when the left
    node is a symlink -- by the link targets compared as strings, and
    otherwise by the sign of the difference of the modification times as
    Python computes it (in floats unless both are [int]s), where a
    difference of at most 0.5 counts as equal; that subtraction is the only
    step that can raise. *)
Theorem cmp_is_code_order (a b : Stat) :
  __cmp__ a b = cmp_result (code_order a b).
Proof.
  unfold __cmp__, code_order.
  destruct (__nonzero__ a), (__nonzero__ b); cbn [negb]; try reflexivity.
  unfold existing_order. cbv zeta.
  pose proof (fields_diff a b) as Hs.
  set (diff := or_else _ _) in *.
  destruct (Z.eqb_spec diff 0) as [E|E].
  - rewrite E in Hs. symmetry in Hs. apply cmp_to_Z_0 in Hs. rewrite Hs.
    destruct (islnk a).
    + cbn [cmp_result]. destruct (link_compare (readlink a) (readlink b)); reflexivity.
    + apply mtime_branch.
  - destruct (fields_order a b) eqn:Hf; cbn [cmp_result]; rewrite Hs; try reflexivity.
    exfalso. apply E. apply sign_eq_0. exact Hs.
Qed.

(** A planned directory (file-type bits only, owned by uid 1000) and a
    cleared node: neither exists. *)
Definition planned : Stat :=
  mkStat None (Some "x") ∅ None S_IFDIR 0 0 0 1000 1000 0
    (TInt 0) (TInt 0) (TInt 0) 0 0 0 0.

(** C7 (counterexample). Two non-existent nodes with different owners
    compare equal, where the field-by-field comparison of the claim orders
    them by uid. *)
Lemma cmp_not_spec_order :
  __nonzero__ planned = false /\ __nonzero__ cleared = false /\
  __cmp__ planned cleared = Ret 0%Z /\
  cmp_result (spec_order planned cleared) = Ret 1%Z.
Proof. vm_compute. repeat split; reflexivity. Qed.

(** Two regular files that differ in their modification time only. *)
Definition file_at (t : Py.finite_float) : Stat :=
  mkStat None (Some "f") ∅ None (Z.lor S_IFREG 420) 1 0 1 0 0 0
    (TFloat t) (TFloat t) (TFloat t) 0 0 0 0.

(** The half second is measured on the float difference: the floats
    nearest to 0.8 and 0.3 differ by at most 0.5 as floats and compare
    equal, those nearest to 0.9 and 0.3 do not. *)
Lemma cmp_half_second :
  __cmp__ (file_at (Demo.tenths 8)) (file_at (Demo.tenths 3)) = Ret 0%Z /\
  __cmp__ (file_at (Demo.tenths 9)) (file_at (Demo.tenths 3)) = Ret 1%Z /\
  __cmp__ (file_at (Demo.tenths 3)) (file_at (Demo.tenths 9)) = Ret (-1)%Z.
Proof. vm_compute. repeat split; reflexivity. Qed.

End CmpOrder.

(** ** The options of an automatic bind under the jail home *)

Module BindOpts.
Import Jail.

(** The token loop on the two tokens of ["exec,ro"], from the options a
    non-empty source path starts with. *)
Lemma auto_jailhome_tokens :
  foldl bindopts_token
    ({["noexec"; "ro"; "nosuid"; "remount"; "bind"; "noatime"]} : gset string)
    (map Py.strip (Py.split "," "exec,ro"))
  = {["exec"; "ro"; "nosuid"; "remount"; "bind"; "noatime"]}.
Proof. vm_compute. reflexivity. Qed.

(** C5. For a non-empty source path that starts with [JAILHOME],
    [bindopts(srcpath, "auto")] is exactly the set
    {exec, ro, nosuid, remount, bind, noatime}. *)
Theorem bindopts_auto_jailhome (JAILHOME : string) (c : JailConfig) (srcpath : string) :
  srcpath <> "" ->
  Py.startswith srcpath JAILHOME = true ->
  bindopts JAILHOME c (Some srcpath) (Some "auto")
  = {["exec"; "ro"; "nosuid"; "remount"; "bind"; "noatime"]}.
Proof.
  intros Hne Hpre. unfold bindopts.
  destruct srcpath as [|a rest]; [congruence|].
  cbn [Py.truthy_opt Py.truthy]. unfold default, id. cbv beta iota zeta.
  change (Py.lower "auto") with "auto".
  change (String.eqb "auto" "auto") with true. cbv iota.
  rewrite Hpre. apply auto_jailhome_tokens.
Qed.

Lemma bindopts_auto_jailhome_witness :
  "/var/jailbase/bob" <> "" /\
  Py.startswith "/var/jailbase/bob" "/var/jailbase" = true /\
  bindopts "/var/jailbase" (mkJailConfig false false (fun _ => false))
    (Some "/var/jailbase/bob") (Some "auto")
  = {["exec"; "ro"; "nosuid"; "remount"; "bind"; "noatime"]}.
Proof.
  split; [discriminate|]. split; [reflexivity|].
  apply (bindopts_auto_jailhome "/var/jailbase"); [discriminate | reflexivity].
Defined.

End BindOpts.

(** ** The privilege-drop wrappers *)

Module PrivDrop.
Import Sfs.

Section Wrappers.
Context `{Host}.
Variable writable : option string -> string -> M bool.

(** C10. [setuid] and [setgid] return at once, with the state untouched
    and whatever the [writable] predicate is, when the id is below 1 or is
    the current effective id; otherwise they look the name up, ask
    [writable], and make the system call only when it answers true. *)
Theorem setuid_setgid_conditional (uid gid : Z) (s : state) :
  ((uid < 1 \/ uid = host_geteuid (trace s))%Z ->
     setuid writable uid s = (Ret tt, s)) /\
  ((gid < 1 \/ gid = host_getegid (trace s))%Z ->
     setgid writable gid s = (Ret tt, s)) /\
  (forall name, (1 <= uid)%Z -> uid <> host_geteuid (trace s) ->
     host_pw_name uid = Some name ->
     setuid writable uid s
     = bind (writable None ("su " ++ name))
         (fun ok => if ok then os_call (os_setuid uid) else ret tt) s) /\
  (forall name, (1 <= gid)%Z -> gid <> host_getegid (trace s) ->
     host_gr_name gid = Some name ->
     setgid writable gid s
     = bind (writable None ("sg " ++ name))
         (fun ok => if ok then os_call (os_setgid gid) else ret tt) s).
Proof.
  repeat split.
  - intros Hc. unfold setuid, os_geteuid, bind, the_trace, ret. cbn.
    destruct Hc as [Hlt|Heq].
    + destruct (Z.ltb_spec uid 1); [reflexivity | lia].
    + rewrite <- Heq, Z.eqb_refl, orb_true_r. reflexivity.
  - intros Hc. unfold setgid, os_getegid, bind, the_trace, ret. cbn.
    destruct Hc as [Hlt|Heq].
    + destruct (Z.ltb_spec gid 1); [reflexivity | lia].
    + rewrite <- Heq, Z.eqb_refl, orb_true_r. reflexivity.
  - intros name Hge Hne Hname.
    unfold setuid, os_geteuid. unfold bind at 1 2. unfold the_trace, ret at 1. cbn.
    destruct (Z.ltb_spec uid 1); [lia|].
    destruct (Z.eqb_spec uid (host_geteuid (trace s))); [contradiction|].
    cbn. rewrite Hname. reflexivity.
  - intros name Hge Hne Hname.
    unfold setgid, os_getegid. unfold bind at 1 2. unfold the_trace, ret at 1. cbn.
    destruct (Z.ltb_spec gid 1); [lia|].
    destruct (Z.eqb_spec gid (host_getegid (trace s))); [contradiction|].
    cbn. rewrite Hname. reflexivity.
Qed.

End Wrappers.

(** On the quiet host (effective ids 1000): ids 0 and 1000 are left alone
    even by a predicate that would raise, and for id 33 in test mode the
    command is printed and no system call is made. *)
Lemma setuid_setgid_conditional_witness :
  let s := Demo.state_of ∅ in
  let angry : option string -> string -> M bool := fun _ _ => raise TypeError in
  setuid (H := Demo.quiet_host) angry 0 s = (Ret tt, s) /\
  setgid (H := Demo.quiet_host) angry 1000 s = (Ret tt, s) /\
  setuid (H := Demo.quiet_host) (Jail.writable_fn Demo.test_mode) 33 s
  = (Ret tt, mkState ∅ [EvPrint "su user"] 0 0) /\
  setgid (H := Demo.quiet_host) (Jail.writable_fn Demo.production) 33 s
  = (Ret tt, mkState ∅ [EvSys (os_setgid 33)] 0 0).
Proof.
  cbv zeta.
  pose proof (setuid_setgid_conditional (H := Demo.quiet_host)
                (fun _ _ => raise TypeError) 0 1000 (Demo.state_of ∅)) as [A [B _]].
  pose proof (setuid_setgid_conditional (H := Demo.quiet_host)
                (Jail.writable_fn Demo.test_mode) 33 33 (Demo.state_of ∅)) as [_ [_ [C _]]].
  pose proof (setuid_setgid_conditional (H := Demo.quiet_host)
                (Jail.writable_fn Demo.production) 33 33 (Demo.state_of ∅)) as [_ [_ [_ D]]].
  split; [apply A; left; lia|].
  split; [apply B; right; reflexivity|].
  split.
  - rewrite (C "user"); [reflexivity | lia | discriminate | reflexivity].
  - rewrite (D "group"); [reflexivity | lia | discriminate | reflexivity].
Defined.

End PrivDrop.

(** ** The [--try] modifier *)

Module TryNext.
Import Jail.

(** The exceptions the loop of [parse] handles. *)
Definition handled (e : exn) : bool :=
  match e with JailError _ | OSError _ => true | _ => false end.

(** The jail after [log] has been handed a text: the text is printed, with
    [##] in front, in test mode and in verbose mode. *)
Definition logged (msg : string) (j : Jail) : Jail :=
  if test (cfg j) || verbose (cfg j)
  then set_fs j (Sfs.mkState (Sfs.heap (fs j)) (EvPrint ("## " ++ msg) :: Sfs.trace (fs j))
                   (Sfs._count_statcalls (fs j)) (Sfs._count_accesses (fs j)))
  else j.

(** The jail in which the command [c] of the list runs: the counter has
    gone down by one unless it was zero, and the command's text has been
    logged. *)
Definition entered (c : Command) (j : Jail) : Jail :=
  logged (text c) (if (opt_try j =? 0)%Z then j else set_opt_try (opt_try j - 1) j).

(** The text that is logged for an error of the command [c]:
    [Command.__call__] has put the command's text in front of a
    [JailError]. *)
Definition message (c : Command) (e : exn) : string :=
  match e with
  | JailError msg => text c ++ ": " ++ msg
  | OSError msg => msg
  | _ => ""
  end.

(** The error with which the loop ends when it does not absorb it. *)
Definition reraised (c : Command) (e : exn) : exn :=
  match e with
  | JailError msg => JailError (text c ++ ": " ++ msg)
  | other => other
  end.

(** The loop gets through the commands of the list, from the jail [j] to
    the jail [j']: each command, in the jail in which the loop runs it,
    returns, or raises an error the loop handles while the counter is not
    zero.  None of them assigns the counter (as [--try] would). *)
Inductive pass : list Command -> Jail -> Jail -> Prop :=
| pass_nil (j : Jail) : pass [] j j
| pass_returns (c : Command) (l : list Command) (j j1 j2 : Jail) :
    func c (entered c j) = (Ret tt, j1) ->
    opt_try j1 = opt_try (entered c j) ->
    pass l j1 j2 ->
    pass (c :: l) j j2
| pass_absorbed (c : Command) (l : list Command) (j j1 j2 : Jail) (e : exn) :
    func c (entered c j) = (Exc e, j1) -> handled e = true ->
    opt_try j1 = opt_try (entered c j) -> opt_try j1 <> 0%Z ->
    pass l (logged ("--try " ++ message c e) j1) j2 ->
    pass (c :: l) j j2.

Section Loop.
Context `{Host}.

Lemma log_run (msg : string) (j : Jail) : log msg j = (Ret tt, logged msg j).
Proof.
  unfold log, logged, bind, self_. destruct (test (cfg j) || verbose (cfg j)); reflexivity.
Qed.

Lemma logged_opt_try (msg : string) (j : Jail) : opt_try (logged msg j) = opt_try j.
Proof. unfold logged. destruct (test (cfg j) || verbose (cfg j)); reflexivity. Qed.

Lemma enter_run (c : Command) (j : Jail) : parse_enter c j = (Ret tt, entered c j).
Proof.
  unfold parse_enter, entered. unfold bind at 1 2. unfold self_ at 1.
  destruct (opt_try j =? 0)%Z; cbn [negb]; unfold ret, modify; apply log_run.
Qed.

Lemma entered_opt_try (c : Command) (j : Jail) :
  opt_try (entered c j) = (if (opt_try j =? 0)%Z then 0 else opt_try j - 1)%Z.
Proof.
  unfold entered. rewrite logged_opt_try.
  destruct (Z.eqb_spec (opt_try j) 0) as [E|E]; [exact E | reflexivity].
Qed.

(** One iteration on a command that returns. *)
Lemma step_returns (c : Command) (j j1 : Jail) :
  func c (entered c j) = (Ret tt, j1) -> parse_step c j = (Ret tt, j1).
Proof.
  intros Hc. unfold parse_step. unfold bind at 1. rewrite enter_run.
  unfold parse_try, bind, attempt, call. unfold bind, attempt. rewrite Hc. reflexivity.
Qed.

(** One iteration on a command that raises an error the loop handles: the
    error is logged, with [--try ] in front while the counter is not zero,
    and raised again when the counter is zero. *)
Lemma step_handled (c : Command) (j j1 : Jail) (e : exn) :
  func c (entered c j) = (Exc e, j1) -> handled e = true ->
  parse_step c j
  = if (opt_try j1 =? 0)%Z
    then (Exc (reraised c e), logged (message c e) j1)
    else (Ret tt, logged ("--try " ++ message c e) j1).
Proof.
  intros Hc Hh. unfold parse_step. unfold bind at 1. rewrite enter_run.
  unfold parse_try. unfold bind at 1. unfold attempt, call. unfold bind at 1. unfold attempt.
  rewrite Hc.
  destruct e; try discriminate Hh; unfold raise; unfold bind at 1; unfold self_ at 1;
    unfold bind at 1; rewrite log_run; unfold bind, self_; rewrite logged_opt_try;
    cbn [message reraised]; destruct (opt_try j1 =? 0)%Z; reflexivity.
Qed.

(** One iteration on a command that raises another error: the loop lets
    it through. *)
Lemma step_unhandled (c : Command) (j j1 : Jail) (e : exn) :
  func c (entered c j) = (Exc e, j1) -> handled e = false ->
  parse_step c j = (Exc e, j1).
Proof.
  intros Hc Hh. unfold parse_step. unfold bind at 1. rewrite enter_run.
  unfold parse_try. unfold bind at 1. unfold attempt, call. unfold bind at 1. unfold attempt.
  rewrite Hc. destruct e; try discriminate Hh; reflexivity.
Qed.

(** One iteration on [--try]: the counter is set to two. *)
Lemma step_try (t : Command) (j : Jail) :
  func t = cli_try -> parse_step t j = (Ret tt, set_opt_try 2 (entered t j)).
Proof. intros Ht. apply step_returns. rewrite Ht. reflexivity. Qed.

Lemma loop_cons (c : Command) (l : list Command) (j j' : Jail) :
  parse_step c j = (Ret tt, j') -> parse_loop (c :: l) j = parse_loop l j'.
Proof. intros Hs. cbn [parse_loop]. unfold bind. rewrite Hs. reflexivity. Qed.

Lemma loop_abort (c : Command) (l : list Command) (j j' : Jail) (e : exn) :
  parse_step c j = (Exc e, j') -> parse_loop (c :: l) j = (Exc e, j').
Proof. intros Hs. cbn [parse_loop]. unfold bind. rewrite Hs. reflexivity. Qed.

(** The loop gets through the commands of a list that passes. *)
Lemma loop_pass (mid l : list Command) (j j' : Jail) :
  pass mid j j' -> parse_loop (mid ++ l) j = parse_loop l j'.
Proof.
  induction 1 as [j|c mid j j1 j2 Hc Ho Hm IH|c mid j j1 j2 e Hc Hh Ho Hz Hm IH].
  - reflexivity.
  - rewrite <- app_comm_cons, (loop_cons _ _ _ _ (step_returns c j j1 Hc)). exact IH.
  - rewrite <- app_comm_cons.
    rewrite (loop_cons c _ j (logged ("--try " ++ message c e) j1)); [exact IH|].
    rewrite (step_handled c j j1 e Hc Hh).
    destruct (Z.eqb_spec (opt_try j1) 0) as [E|E]; [contradiction | reflexivity].
Qed.

(** The counter goes down to zero and stays there. *)
Lemma pass_counter (mid : list Command) (j j' : Jail) :
  pass mid j j' -> (0 <= opt_try j <= 1)%Z -> (0 <= opt_try j' <= 1)%Z.
Proof.
  induction 1 as [j|c mid j j1 j2 Hc Ho Hm IH|c mid j j1 j2 e Hc Hh Ho Hz Hm IH]; intros Hj.
  - exact Hj.
  - apply IH. rewrite Ho, entered_opt_try. destruct (Z.eqb_spec (opt_try j) 0); lia.
  - apply IH. rewrite logged_opt_try, Ho, entered_opt_try.
    destruct (Z.eqb_spec (opt_try j) 0); lia.
Qed.

(** After one command that has passed, a counter of two is at one. *)
Lemma pass_first (a : Command) (mid : list Command) (j j' : Jail) :
  pass (a :: mid) j j' -> opt_try j = 2%Z -> (0 <= opt_try j' <= 1)%Z.
Proof.
  intros Hp Hj. inversion Hp as [|c l j0 j1 j2 Hc Ho Hm|c l j0 j1 j2 e Hc Hh Ho Hz Hm]; subst.
  - apply (pass_counter mid j1 j' Hm). rewrite Ho, entered_opt_try, Hj. cbn. lia.
  - apply (pass_counter mid _ j' Hm). rewrite logged_opt_try, Ho, entered_opt_try, Hj.
    cbn. lia.
Qed.

(** C2 (as amended). After a queued [--try], a [JailError] or [OSError]
    that the next command raises is handed to [log] with [--try ] in front,
    and the loop goes on with the commands that follow.  When the second
    command after [--try], or any later one with no [--try] in between,
    raises such an error -- the commands before it having returned, or the
    first of them having had its error absorbed --, the error is handed to
    [log] and the loop ends with it.  An error of another class ends the
    loop even when the command that raises it comes right after [--try]:
    the loop does not handle it.  Each command is taken in the jail in
    which the loop runs it; a failing command leaves the counter as it
    is. *)
Theorem try_is_one_shot (t : Command) (j : Jail) :
  func t = cli_try ->
  let j0 := set_opt_try 2 (entered t j) in
  (forall a l ea ja,
     func a (entered a j0) = (Exc ea, ja) -> handled ea = true ->
     opt_try ja = opt_try (entered a j0) ->
     parse_loop (t :: a :: l) j = parse_loop l (logged ("--try " ++ message a ea) ja)) /\
  (forall a mid b rest jm eb jb,
     pass (a :: mid) j0 jm ->
     func b (entered b jm) = (Exc eb, jb) -> handled eb = true ->
     opt_try jb = opt_try (entered b jm) ->
     parse_loop (t :: a :: mid ++ b :: rest) j
     = (Exc (reraised b eb), logged (message b eb) jb)) /\
  (forall c l e jc,
     func c (entered c j0) = (Exc e, jc) -> handled e = false ->
     parse_loop (t :: c :: l) j = (Exc e, jc)).
Proof.
  intros Ht j0.
  pose proof (step_try t j Ht) as Hs0. fold j0 in Hs0.
  split; [|split].
  - intros a l ea ja Ha Hha Hoa.
    assert (Hja : opt_try ja = 1%Z) by (rewrite Hoa, entered_opt_try; reflexivity).
    rewrite (loop_cons _ _ _ _ Hs0). apply loop_cons.
    rewrite (step_handled a j0 ja ea Ha Hha), Hja. reflexivity.
  - intros a mid b rest jm eb jb Hp Hb Hhb Hob.
    pose proof (pass_first a mid j0 jm Hp eq_refl) as Hjm.
    rewrite (loop_cons _ _ _ _ Hs0).
    rewrite (app_comm_cons mid (b :: rest) a), (loop_pass (a :: mid) (b :: rest) j0 jm Hp).
    apply loop_abort. rewrite (step_handled b jm jb eb Hb Hhb).
    assert (Hjb : opt_try jb = 0%Z).
    { rewrite Hob, entered_opt_try. destruct (Z.eqb_spec (opt_try jm) 0); lia. }
    rewrite Hjb. reflexivity.
  - intros c l e jc Hc Hh. rewrite (loop_cons _ _ _ _ Hs0).
    apply loop_abort. exact (step_unhandled c j0 jc e Hc Hh).
Qed.

End Loop.

(** [--try], an [--add] of a path that is not there, a [--print] that
    succeeds. *)
Definition try_cmd : Command := mkCommand "--try" cli_try.
Definition add_missing : Command :=
  mkCommand "--add /nonexistent" (raise (JailError "not found: '/nonexistent'")).
Definition print_cmd : Command := mkCommand "--print" (print "jail").

(** A verbose run of [--try --add /nonexistent --print ...]: the log holds
    the two commands and the error with [--try ] in front, and the loop goes
    on; a second [--add /nonexistent], after the [--print], ends it; and so
    does one after a [--print] that came right after [--try]. *)
Lemma try_is_one_shot_witness :
  let j := Demo.jail_of (mkJailConfig false true Demo.default_writepath) (Demo.state_of ∅) in
  let j0 := set_opt_try 2 (entered try_cmd j) in
  let failure := JailError "not found: '/nonexistent'" in
  let j1 := logged ("--try " ++ message add_missing failure) (entered add_missing j0) in
  Sfs.trace (fs j1)
  = [EvPrint "## --try --add /nonexistent: not found: '/nonexistent'";
     EvPrint "## --add /nonexistent"; EvPrint "## --try"] /\
  (forall l, parse_loop (try_cmd :: add_missing :: l) j = parse_loop l j1) /\
  fst (parse_loop (try_cmd :: add_missing :: [print_cmd] ++ add_missing :: [print_cmd]) j)
  = Exc (JailError "--add /nonexistent: not found: '/nonexistent'") /\
  fst (parse_loop (try_cmd :: print_cmd :: [] ++ add_missing :: [print_cmd]) j)
  = Exc (JailError "--add /nonexistent: not found: '/nonexistent'").
Proof.
  intros j j0 failure j1.
  destruct (try_is_one_shot try_cmd j eq_refl) as [Habsorbed [Haborts _]].
  split; [reflexivity|]. split; [|split].
  - intros l. apply (Habsorbed add_missing l failure (entered add_missing j0));
      reflexivity.
  - set (jm := snd (func print_cmd (entered print_cmd j1))).
    rewrite (Haborts add_missing [print_cmd] add_missing [print_cmd] jm failure
               (entered add_missing jm)); try reflexivity.
    apply (pass_absorbed add_missing [print_cmd] j0 (entered add_missing j0) jm failure);
      [reflexivity | reflexivity | reflexivity | discriminate |].
    apply (pass_returns print_cmd [] j1 jm jm); [reflexivity | reflexivity | apply pass_nil].
  - set (jm := snd (func print_cmd (entered print_cmd j0))).
    rewrite (Haborts print_cmd [] add_missing [print_cmd] jm failure
               (entered add_missing jm)); try reflexivity.
    apply (pass_returns print_cmd [] j0 jm jm); [reflexivity | reflexivity | apply pass_nil].
Defined.

(** [/etc/hosts], a regular file with mode 0644, under the root. *)
Definition etc_hosts : gmap nat Sfs.Stat :=
  {[ 0%nat := Demo.node None "" {[ "etc" := 1%nat ]} None (Z.lor S_IFDIR 493);
     1%nat := Demo.node (Some 0%nat) "etc" {[ "hosts" := 2%nat ]} None (Z.lor S_IFDIR 493);
     2%nat := Demo.node (Some 1%nat) "hosts" ∅ None (Z.lor S_IFREG 420) ]}.

Definition chmod_hosts : Command :=
  mkCommand "--chmod /etc/hosts 0600" (chmod (H := Demo.quiet_host) 8 "/etc/hosts" 384).

(** C2 (counterexample). [--try --chmod /etc/hosts 0600] outside test mode:
    the write policy raises [ValueError], which the loop does not handle,
    so the run ends with it although [--try] came just before. *)
Lemma try_does_not_cover_ValueError :
  fst (parse_loop [try_cmd; chmod_hosts]
         (Demo.jail_of Demo.production (Demo.state_of etc_hosts)))
  = Exc (ValueError "writepath disallows").
Proof. vm_compute. reflexivity. Qed.

End TryNext.

(** ** Memoization of the dependency listing *)

Module LdList.
Import Jail.

Section Memo.
Context `{Host}.





End Memo.






End LdList.

(** ** The order and the commands of [--mount] *)

Module MountOrder.
Import Jail.

(** No longer than. *)
Definition len_le (x y : string) : Prop := (String.length x <= String.length y)%nat.

(** The order of [pathlist]: fewer slashes first, and among paths with
    the same number of slashes the shorter first. *)
Definition mount_le (x y : string) : Prop :=
  (Py.count "/" x < Py.count "/" y)%nat \/
  (Py.count "/" x = Py.count "/" y /\ String.length x <= String.length y)%nat.

(** The subprocesses a trace (newest event first) records, oldest first. *)
Fixpoint popen_calls (tr : list event) : list (list string) :=
  match tr with
  | [] => []
  | EvPopen args :: rest => (popen_calls rest ++ [args])%list
  | _ :: rest => popen_calls rest
  end.

Lemma insert_by_perm (key : string -> nat) (x : string) (l : list string) :
  Permutation (insert_by key x l) (x :: l).
Proof.
  induction l as [|y l IH]; cbn [insert_by]; [reflexivity|].
  destruct (key x <=? key y)%nat; [reflexivity|].
  rewrite IH. apply perm_swap.
Qed.

Lemma sort_by_perm (key : string -> nat) (l : list string) :
  Permutation (sort_by key l) l.
Proof.
  induction l as [|x l IH]; [reflexivity|].
  unfold sort_by in *. cbn [foldr]. rewrite insert_by_perm. now constructor.
Qed.

Lemma insert_by_sorted (key : string -> nat) (x : string) (l : list string) :
  StronglySorted (fun a b => (key a <= key b)%nat) l ->
  StronglySorted (fun a b => (key a <= key b)%nat) (insert_by key x l).
Proof.
  induction 1 as [|y l Hs IH Hy]; cbn [insert_by].
  - repeat constructor.
  - destruct (Nat.leb_spec (key x) (key y)) as [Hle|Hgt].
    + constructor; [constructor; assumption|].
      constructor; [exact Hle|].
      eapply Forall_impl; [exact Hy|]. cbn. intros z Hz. lia.
    + constructor; [exact IH|].
      eapply Permutation_Forall; [symmetry; apply insert_by_perm|].
      constructor; [lia | exact Hy].
Qed.

Lemma sort_by_sorted (key : string -> nat) (l : list string) :
  StronglySorted (fun a b => (key a <= key b)%nat) (sort_by key l).
Proof.
  induction l as [|x l IH]; [constructor|].
  unfold sort_by in *. cbn [foldr]. now apply insert_by_sorted.
Qed.

(** Inserting by slash count a path that is no longer than any of the
    list keeps the list in the order [mount_le]: the sort is stable. *)
Lemma insert_count_sorted (x : string) (l : list string) :
  StronglySorted mount_le l ->
  Forall (len_le x) l ->
  StronglySorted mount_le (insert_by (Py.count "/") x l).
Proof.
  induction 1 as [|y l Hs IH Hy]; intros Hx; cbn [insert_by].
  - repeat constructor.
  - inversion Hx as [|? ? Hxy Hxl]; subst.
    destruct (Nat.leb_spec (Py.count "/" x) (Py.count "/" y)) as [Hle|Hgt].
    + constructor; [constructor; assumption|].
      constructor.
      * unfold mount_le, len_le in *. lia.
      * rewrite Forall_forall in *. intros z Hz.
        specialize (Hy z Hz). specialize (Hxl z Hz).
        unfold mount_le, len_le in *. lia.
    + constructor; [apply IH; exact Hxl|].
      eapply Permutation_Forall; [symmetry; apply insert_by_perm|].
      constructor; [|exact Hy].
      unfold mount_le. lia.
Qed.

Lemma sort_count_sorted (l : list string) :
  StronglySorted len_le l ->
  StronglySorted mount_le (sort_by (Py.count "/") l).
Proof.
  induction 1 as [|x l Hs IH Hx]; [constructor|].
  unfold sort_by in *. cbn [foldr].
  apply insert_count_sorted; [exact IH|].
  eapply Permutation_Forall; [symmetry; apply (sort_by_perm (Py.count "/"))|].
  exact Hx.
Qed.

Section Mount.
Context `{Host}.
Variable iterkeys : gmap string (string * gset string) -> list string.
Variable iter_set : gset string -> list string.

(** The [mount] commands for one destination. *)
Definition plan (binds mounts : gmap string (string * gset string)) (dstpath : string)
  : list (list string) :=
  match binds !! dstpath with
  | None => []
  | Some (srcpath, opts) =>
      ((if bool_decide (is_Some (mounts !! dstpath)) then []
        else [["/bin/mount"; "--bind"; srcpath; dstpath]])
       ++ [["/bin/mount"; "-o"; Py.join "," (iter_set opts); dstpath]])%list
  end.

(** Every program can be started. *)
Definition spawns : Prop :=
  forall tr args, exists status out, host_popen tr args = PopenOutput status out.

Lemma subcall_runs (args : list string) (j : Jail) :
  test (cfg j) = false -> spawns ->
  exists out j', subcall args j = (Ret out, j') /\ cfg j' = cfg j /\
    popen_calls (Sfs.trace (fs j')) = (popen_calls (Sfs.trace (fs j)) ++ [args])%list.
Proof.
  intros Ht Hsp.
  unfold subcall, pcall, attempt, bind, self_, print, lift, ret, raise,
    Sfs.emit, Sfs.the_trace.
  rewrite Ht.
  destruct (verbose (cfg j)); cbn;
    match goal with |- context [host_popen ?t ?a] =>
      destruct (Hsp t a) as [st [out Hp]]; rewrite Hp end;
    eexists _, _; repeat split.
Qed.

Lemma subcall_prints (args : list string) (j : Jail) :
  test (cfg j) = true ->
  exists j', subcall args j = (Ret "", j') /\ cfg j' = cfg j /\
    Sfs.trace (fs j') = EvPrint (Py.join " " args) :: Sfs.trace (fs j).
Proof.
  intros Ht.
  unfold subcall, bind, self_, print, lift, ret, Sfs.emit. rewrite Ht. cbn.
  eexists. repeat split.
Qed.

Lemma mount_loop_runs (binds mounts : gmap string (string * gset string))
    (l : list string) (j : Jail) :
  test (cfg j) = false -> spawns ->
  Forall (fun k => is_Some (binds !! k)) l ->
  exists j', mount_loop iter_set binds mounts l j = (Ret tt, j') /\
    popen_calls (Sfs.trace (fs j'))
    = (popen_calls (Sfs.trace (fs j)) ++ concat (map (plan binds mounts) l))%list.
Proof.
  intros Ht Hsp Hl. revert j Ht.
  induction Hl as [|k l [[src opts] Hk] Hl IH]; intros j Ht.
  - exists j. cbn. rewrite app_nil_r. split; reflexivity.
  - cbn [mount_loop map concat]. unfold plan at 1. rewrite Hk.
    destruct (bool_decide (is_Some (mounts !! k))).
    + unfold bind at 1. unfold ret at 1.
      destruct (subcall_runs ["/bin/mount"; "-o"; Py.join "," (iter_set opts); k] j Ht Hsp)
        as [out [j1 [Hs [Hc Hp]]]].
      unfold bind at 1. rewrite Hs.
      destruct (IH j1) as [j2 [Hm Hp2]]; [congruence|].
      exists j2. split; [exact Hm|].
      rewrite Hp2, Hp. cbn. now rewrite <- app_assoc.
    + destruct (subcall_runs ["/bin/mount"; "--bind"; src; k] j Ht Hsp)
        as [out0 [j0 [Hs0 [Hc0 Hp0]]]].
      unfold bind at 1. unfold bind at 1. rewrite Hs0. unfold ret at 1.
      destruct (subcall_runs ["/bin/mount"; "-o"; Py.join "," (iter_set opts); k] j0)
        as [out [j1 [Hs [Hc Hp]]]]; [congruence | exact Hsp |].
      unfold bind at 1. rewrite Hs.
      destruct (IH j1) as [j2 [Hm Hp2]]; [congruence|].
      exists j2. split; [exact Hm|].
      rewrite Hp2, Hp, Hp0. cbn. now rewrite <- !app_assoc.
Qed.

Lemma mount_loop_prints (binds mounts : gmap string (string * gset string))
    (l : list string) (j : Jail) :
  test (cfg j) = true ->
  Forall (fun k => is_Some (binds !! k)) l ->
  exists j', mount_loop iter_set binds mounts l j = (Ret tt, j') /\
    Sfs.trace (fs j')
    = (rev (map (fun args => EvPrint (Py.join " " args))
              (concat (map (plan binds mounts) l))) ++ Sfs.trace (fs j))%list.
Proof.
  intros Ht Hl. revert j Ht.
  induction Hl as [|k l [[src opts] Hk] Hl IH]; intros j Ht.
  - exists j. split; reflexivity.
  - cbn [mount_loop map concat]. unfold plan at 1. rewrite Hk.
    destruct (bool_decide (is_Some (mounts !! k))).
    + unfold bind at 1. unfold ret at 1.
      destruct (subcall_prints ["/bin/mount"; "-o"; Py.join "," (iter_set opts); k] j Ht)
        as [j1 [Hs [Hc Hp]]].
      unfold bind at 1. rewrite Hs.
      destruct (IH j1) as [j2 [Hm Hp2]]; [congruence|].
      exists j2. split; [exact Hm|].
      rewrite Hp2, Hp. cbn [app map rev]. rewrite <- app_assoc. reflexivity.
    + destruct (subcall_prints ["/bin/mount"; "--bind"; src; k] j Ht)
        as [j0 [Hs0 [Hc0 Hp0]]].
      unfold bind at 1. unfold bind at 1. rewrite Hs0. unfold ret at 1.
      destruct (subcall_prints ["/bin/mount"; "-o"; Py.join "," (iter_set opts); k] j0)
        as [j1 [Hs [Hc Hp]]]; [congruence|].
      unfold bind at 1. rewrite Hs.
      destruct (IH j1) as [j2 [Hm Hp2]]; [congruence|].
      exists j2. split; [exact Hm|].
      rewrite Hp2, Hp, Hp0. cbn [app map rev]. rewrite <- !app_assoc. reflexivity.
Qed.

(** C9. The destinations of the fresh bind-specs are processed in the
    order obtained by sorting them by length and then sorting the result by
    ['/']-count: a rearrangement of the keys of [binds] in which fewer
    slashes come first and, among equal counts, the shorter path first.
    For each destination in that order [/bin/mount --bind src dst] is run
    when [dst] is not in the mount table, then [/bin/mount -o opts dst];
    in test mode the same commands are printed instead. *)
Theorem mount_binds_in_order (binds mounts : gmap string (string * gset string)) (j : Jail) :
  (forall k, In k (iterkeys binds) -> is_Some (binds !! k)) ->
  let l := pathlist iterkeys binds in
  Permutation l (iterkeys binds) /\
  StronglySorted mount_le l /\
  (test (cfg j) = false -> spawns ->
     exists j', mount_binds iterkeys iter_set binds mounts j = (Ret tt, j') /\
       popen_calls (Sfs.trace (fs j'))
       = (popen_calls (Sfs.trace (fs j)) ++ concat (map (plan binds mounts) l))%list) /\
  (test (cfg j) = true ->
     exists j', mount_binds iterkeys iter_set binds mounts j = (Ret tt, j') /\
       Sfs.trace (fs j')
       = (rev (map (fun args => EvPrint (Py.join " " args))
                 (concat (map (plan binds mounts) l))) ++ Sfs.trace (fs j))%list).
Proof.
  intros Hkeys l.
  assert (Hperm : Permutation l (iterkeys binds)).
  { unfold l, pathlist. now rewrite !sort_by_perm. }
  assert (Hin : Forall (fun k => is_Some (binds !! k)) l).
  { apply Forall_forall. intros k Hk. apply Hkeys.
    eapply Permutation_in; [exact Hperm|]. apply list_elem_of_In. exact Hk. }
  split; [exact Hperm|]. split.
  - unfold l, pathlist. apply sort_count_sorted. apply (sort_by_sorted String.length).
  - split.
    + intros Ht Hsp. apply mount_loop_runs; assumption.
    + intros Ht. apply mount_loop_prints; assumption.
Qed.

End Mount.

(** Three fresh bind-specs; [/mnt/jailbase/bob] is mounted already. *)
Definition binds0 : gmap string (string * gset string) :=
  {[ "/mnt/jailbase/bob/jailbase" := ("/tmp/jailbase", {["rw"]});
     "/mnt/jailbase/bob" := ("/var/jailbase/bob", {["ro"]});
     "/mnt/jailbase/bob/etc" := ("/etc", {["ro"]}) ]}.
Definition mounts0 : gmap string (string * gset string) :=
  {[ "/mnt/jailbase/bob" := ("/var/jailbase/bob", {["rw"]}) ]}.
Definition keys_of (m : gmap string (string * gset string)) : list string :=
  (map_to_list m).*1.

Lemma mount_binds_in_order_witness :
  let j := Demo.jail_of Demo.production (Demo.state_of ∅) in
  let l := pathlist keys_of binds0 in
  l = ["/mnt/jailbase/bob"; "/mnt/jailbase/bob/etc"; "/mnt/jailbase/bob/jailbase"] /\
  exists j', mount_binds (H := Demo.quiet_host) keys_of elements binds0 mounts0 j = (Ret tt, j') /\
    popen_calls (Sfs.trace (fs j'))
    = [ ["/bin/mount"; "-o"; "ro"; "/mnt/jailbase/bob"];
        ["/bin/mount"; "--bind"; "/etc"; "/mnt/jailbase/bob/etc"];
        ["/bin/mount"; "-o"; "ro"; "/mnt/jailbase/bob/etc"];
        ["/bin/mount"; "--bind"; "/tmp/jailbase"; "/mnt/jailbase/bob/jailbase"];
        ["/bin/mount"; "-o"; "rw"; "/mnt/jailbase/bob/jailbase"] ].
Proof.
  cbv zeta. split; [vm_compute; reflexivity|].
  assert (Hk : forall k, In k (keys_of binds0) -> is_Some (binds0 !! k)).
  { intros k Hk. unfold keys_of in Hk. apply list_elem_of_In in Hk.
    apply list_elem_of_fmap in Hk. destruct Hk as [[k' v] [-> Hkv]].
    apply elem_of_map_to_list in Hkv. cbn. eauto. }
  destruct (mount_binds_in_order (H := Demo.quiet_host) keys_of elements binds0 mounts0
              (Demo.jail_of Demo.production (Demo.state_of ∅)) Hk) as [_ [_ [Hrun _]]].
  destruct Hrun as [j' [Hm Hp]]; [reflexivity | intros tr args; eexists _, _; reflexivity |].
  exists j'. split; [exact Hm|]. rewrite Hp. vm_compute. reflexivity.
Defined.

End MountOrder.

(** ** Relations every step of a computation respects *)

Module Steps.
Import Sfs.

(** An update that leaves the tree links of a node alone. *)
Definition keeps_links (f : Stat -> Stat) : Prop :=
  forall n, _parent (f n) = _parent n /\ _name (f n) = _name n /\ _children (f n) = _children n.

(** Events that ask the host something without changing the world. *)
Definition is_read (e : event) : Prop :=
  match e with EvSys _ => False | _ => True end.

Section Respects.
Context `{Host}.
Variable writable : option string -> string -> M bool.

(** A relation between the state before and the state after. *)
Variable R : state -> state -> Prop.
Hypothesis R_refl : forall s, R s s.
Hypothesis R_trans : forall a b c, R a b -> R b c -> R a c.

(** Every run of [m], whatever its outcome, relates the states. *)
Definition respects {A} (m : M A) : Prop := forall s, R s (snd (m s)).

Hypothesis R_emit : forall e, is_read e -> respects (emit e).
Hypothesis R_statcalls : respects incr_statcalls.
Hypothesis R_accesses : respects incr_accesses.
Hypothesis R_update : forall id f, keeps_links f -> respects (update id f).
Hypothesis R_register : forall parent name uid gid t, respects (register parent name uid gid t).
Hypothesis R_clear : forall self, respects (clear self).
Hypothesis R_write_call : forall self cmd c, respects (write_call writable self cmd c).

Lemma respects_ret {A} (a : A) : respects (ret a).
Proof. intros s. apply R_refl. Qed.

Lemma respects_raise {A} (e : exn) : respects (raise (A := A) e).
Proof. intros s. apply R_refl. Qed.

Lemma respects_fuel {A} : respects (out_of_fuel (A := A)).
Proof. intros s. apply R_refl. Qed.

Lemma respects_bind {A B} (m : M A) (f : A -> M B) :
  respects m -> (forall a, respects (f a)) -> respects (bind m f).
Proof.
  intros Hm Hf s. unfold bind. specialize (Hm s).
  destruct (m s) as [[a|e|] s1]; cbn in *; [|exact Hm..].
  eapply R_trans; [exact Hm | apply Hf].
Qed.

(** Sequencing, when the continuation is only run on values that satisfy
    what [m] guarantees of its results. *)
Lemma respects_bind_ret {A B} (P : A -> Prop) (m : M A) (f : A -> M B) :
  respects m ->
  (forall s a s', m s = (Ret a, s') -> P a) ->
  (forall a, P a -> respects (f a)) ->
  respects (bind m f).
Proof.
  intros Hm HP Hf s. unfold bind. specialize (Hm s). specialize (HP s).
  destruct (m s) as [[a|e|] s1]; cbn in *; [|exact Hm..].
  eapply R_trans; [exact Hm | apply Hf; eapply HP; reflexivity].
Qed.

Lemma respects_reader {A} (g : state -> outcome A) : respects (fun s => (g s, s)).
Proof. intros s. apply R_refl. Qed.

Lemma respects_assert (b : bool) : respects (assert b).
Proof. unfold assert. destruct b; [apply respects_ret | apply respects_raise]. Qed.

Lemma respects_load (id : nat) : respects (load id).
Proof. intros s. unfold load. destruct (heap s !! id); apply R_refl. Qed.

Lemma respects_the_trace : respects the_trace.
Proof. intros s. apply R_refl. Qed.

Lemma respects_the_heap : respects the_heap.
Proof. intros s. apply R_refl. Qed.

Lemma respects_for_each {A S} (body : S -> A -> M S) (l : list A) (acc : S) :
  (forall a x, respects (body a x)) -> respects (for_each body l acc).
Proof.
  intros Hb. revert acc. induction l as [|x l IH]; intros acc; cbn [for_each].
  - apply respects_ret.
  - apply respects_bind; [apply Hb | intros a; apply IH].
Qed.

Lemma keeps_set_mode v : keeps_links (set_mode v).
Proof. intros n. repeat split. Qed.
Lemma keeps_set_link v : keeps_links (set_link v).
Proof. intros n. repeat split. Qed.
Lemma keeps_set_uid v : keeps_links (set_uid v).
Proof. intros n. repeat split. Qed.
Lemma keeps_set_gid v : keeps_links (set_gid v).
Proof. intros n. repeat split. Qed.
Lemma keeps_set_size v : keeps_links (set_size v).
Proof. intros n. repeat split. Qed.
Lemma keeps_set_atime v : keeps_links (set_atime v).
Proof. intros n. repeat split. Qed.
Lemma keeps_set_mtime v : keeps_links (set_mtime v).
Proof. intros n. repeat split. Qed.
Lemma keeps_set_rdev v : keeps_links (set_rdev v).
Proof. intros n. repeat split. Qed.
Lemma keeps_set_flags v : keeps_links (set_flags v).
Proof. intros n. repeat split. Qed.
Lemma keeps_set_st_attr d : keeps_links (set_st_attr d).
Proof. intros n. repeat split. Qed.

Create HintDb steps.
#[local] Hint Resolve keeps_set_mode keeps_set_link keeps_set_uid keeps_set_gid keeps_set_size
  keeps_set_atime keeps_set_mtime keeps_set_rdev keeps_set_flags keeps_set_st_attr : steps.

(** One step of a proof that a computation respects [R]: a primitive, a
    sequencing, or a case distinction on what the code branches on. *)
Ltac step :=
  first
    [ assumption
    | match goal with Hyp : forall x, _ |- respects _ => solve [simple apply Hyp] end
    | apply respects_ret
    | apply respects_raise
    | apply respects_fuel
    | apply respects_assert
    | apply respects_load
    | apply respects_the_trace
    | apply respects_the_heap
    | apply respects_reader
    | apply R_statcalls
    | apply R_accesses
    | apply R_register
    | apply R_clear
    | apply R_write_call
    | apply R_emit; exact I
    | apply R_update; auto with steps
    | apply respects_for_each; intros ? ?
    | apply respects_bind; [| intros ?]
    | match goal with
      | |- respects (match ?x with _ => _ end) => destruct x
      end ].

Ltac steps := repeat step.

Lemma respects_time : respects time_time.
Proof. unfold time_time. steps. Qed.

Lemma respects_geteuid : respects os_geteuid.
Proof. unfold os_geteuid. steps. Qed.

Lemma respects_getegid : respects os_getegid.
Proof. unfold os_getegid. steps. Qed.

Lemma respects_os_lstat p : respects (os_lstat p).
Proof. unfold os_lstat. steps. Qed.

Lemma respects_root self : respects (root self).
Proof. unfold root. steps. Qed.

Lemma respects_path self : respects (path self).
Proof. unfold path. steps. Qed.

Lemma respects_refresh self d : respects (refresh self d).
Proof.
  unfold refresh. pose proof respects_path. pose proof respects_os_lstat. steps.
Qed.

Lemma respects_init parent name data : respects (__init__ parent name data).
Proof.
  unfold __init__.
  pose proof respects_time. pose proof respects_geteuid. pose proof respects_getegid.
  pose proof respects_refresh. steps.
Qed.

Lemma respects_get_body rec root_ acc name :
  (forall p t r l, respects (rec p t r l)) ->
  respects (get_body rec root_ acc name).
Proof.
  intros Hrec. unfold get_body, follow_link.
  pose proof respects_path. pose proof respects_os_lstat. pose proof respects_init.
  steps.
Qed.

Lemma respects_get fuel self p root_ links : respects (get fuel self p root_ links).
Proof.
  revert self p root_ links. induction fuel as [|f IH]; intros self p root_ links.
  - apply respects_fuel.
  - cbn [get]. pose proof respects_root.
    apply respects_bind; [destruct root_; steps|]. intros r.
    apply respects_bind; [steps|]. intros _.
    apply respects_for_each. intros acc name.
    apply respects_get_body. intros q t r' l. apply IH.
Qed.

Lemma respects_getdefault fuel self p fmt_ root_ links :
  respects (getdefault fuel self p fmt_ root_ links).
Proof.
  unfold getdefault.
  pose proof respects_root. pose proof respects_get. pose proof respects_init.
  steps.
Qed.

Lemma respects_lstat fuel self p fmt_ : respects (lstat fuel self p fmt_).
Proof.
  unfold lstat. pose proof respects_get. pose proof respects_getdefault. steps.
Qed.

Lemma respects_stat fuel self p fmt_ : respects (stat fuel self p fmt_).
Proof.
  unfold stat. pose proof respects_get. pose proof respects_getdefault. steps.
Qed.

Lemma respects_listdir fuel self p : respects (listdir fuel self p).
Proof.
  unfold listdir. pose proof respects_stat. pose proof respects_path. steps.
Qed.

Lemma respects_chown self uid gid : respects (chown writable self uid gid).
Proof. unfold chown. pose proof respects_path. steps. Qed.

Lemma respects_chmod self mode_ : respects (chmod writable self mode_).
Proof. unfold chmod. pose proof respects_path. steps. Qed.

Lemma respects_symlink fuel self target p : respects (symlink writable fuel self target p).
Proof.
  unfold symlink. pose proof respects_path. pose proof respects_getdefault. steps.
Qed.

Lemma respects_mkdir fuel self p mode_ uid gid :
  respects (mkdir writable fuel self p mode_ uid gid).
Proof.
  unfold mkdir. pose proof respects_path. pose proof respects_getdefault.
  pose proof respects_chmod. pose proof respects_chown. steps.
Qed.

Lemma respects_mknod fuel self p mode_ device :
  respects (mknod writable fuel self p mode_ device).
Proof.
  unfold mknod. pose proof respects_path. pose proof respects_getdefault.
  pose proof respects_chmod. steps.
Qed.

Lemma respects_utime self mtime : respects (utime writable self mtime).
Proof. unfold utime. pose proof respects_path. pose proof respects_time. steps. Qed.

Lemma respects_chflags self flags : respects (chflags writable self flags).
Proof. unfold chflags. pose proof respects_path. steps. Qed.

Lemma respects_remove self : respects (remove writable self).
Proof. unfold remove. pose proof respects_path. steps. Qed.

Lemma respects_rmdir self : respects (rmdir writable self).
Proof. unfold rmdir. pose proof respects_path. steps. Qed.

Lemma respects_rm_rf fuel self dstpath : respects (rm_rf writable fuel self dstpath).
Proof.
  revert self dstpath. induction fuel as [|f IH]; intros self dstpath.
  - apply respects_fuel.
  - cbn [rm_rf]. pose proof respects_get. pose proof respects_path.
    pose proof respects_listdir. pose proof respects_remove. pose proof respects_rmdir.
    steps.
Qed.

End Respects.

End Steps.

(** ** The parent link of every node is mirrored in its parent *)

Module TreeLinks.
Import Sfs Steps.

(** Every node with a parent is entered in that parent's [_children] under
    its own name: [n.parent.children[n.name] is n]. *)
Definition linked (h : gmap nat Stat) : Prop :=
  forall id n p, h !! id = Some n -> _parent n = Some p ->
    exists pn nm, h !! p = Some pn /\ _name n = Some nm /\ _children pn !! nm = Some id.

(** The step relation: [linked] before gives [linked] after. *)
Definition keeps_linked (s s' : state) : Prop := linked (heap s) -> linked (heap s').

(** The step relation of code that leaves the heap alone. *)
Definition same_heap (s s' : state) : Prop := heap s' = heap s.

Lemma keeps_linked_refl s : keeps_linked s s.
Proof. intros Hl. exact Hl. Qed.

Lemma keeps_linked_trans a b c : keeps_linked a b -> keeps_linked b c -> keeps_linked a c.
Proof. unfold keeps_linked. auto. Qed.

Lemma same_heap_refl s : same_heap s s.
Proof. reflexivity. Qed.

Lemma same_heap_trans a b c : same_heap a b -> same_heap b c -> same_heap a c.
Proof. unfold same_heap. congruence. Qed.

Lemma same_heap_keeps {A} (m : M A) : respects same_heap m -> respects keeps_linked m.
Proof. intros Hm s Hl. rewrite (Hm s). exact Hl. Qed.

Lemma lookup_alter_inv (f : Stat -> Stat) (h : gmap nat Stat) (id id' : nat) (n' : Stat) :
  alter f id h !! id' = Some n' ->
  exists n0, h !! id' = Some n0 /\ ((id' <> id /\ n' = n0) \/ (id' = id /\ n' = f n0)).
Proof.
  destruct (decide (id = id')) as [->|Hne].
  - rewrite lookup_alter_eq. destruct (h !! id') as [n0|]; [|discriminate].
    intros [= <-]. exists n0. split; [reflexivity|]. right. split; reflexivity.
  - rewrite lookup_alter_ne by exact Hne. intros Hn. exists n'.
    split; [exact Hn|]. left. split; [congruence | reflexivity].
Qed.

Lemma lookup_alter_fwd (f : Stat -> Stat) (h : gmap nat Stat) (id p : nat) (pn : Stat) :
  keeps_links f -> h !! p = Some pn ->
  exists pn', alter f id h !! p = Some pn' /\ _children pn' = _children pn.
Proof.
  intros Hk Hp. destruct (decide (id = p)) as [->|Hne].
  - rewrite lookup_alter_eq, Hp. exists (f pn). split; [reflexivity | apply Hk].
  - rewrite lookup_alter_ne by exact Hne. exists pn. split; [exact Hp | reflexivity].
Qed.

(** Assigning fields other than the links keeps the tree linked. *)
Lemma linked_alter (f : Stat -> Stat) (id : nat) (h : gmap nat Stat) :
  keeps_links f -> linked h -> linked (alter f id h).
Proof.
  intros Hk Hl id' n' p Hn Hp.
  apply lookup_alter_inv in Hn as [n0 [H0 Hc]].
  assert (Hpar : _parent n0 = Some p /\ _name n0 = _name n').
  { destruct Hc as [[_ ->] | [_ ->]]; [auto|].
    destruct (Hk n0) as [Hp' [Hn' _]]. split; congruence. }
  destruct Hpar as [Hpar Hname].
  destruct (Hl id' n0 p H0 Hpar) as [pn [nm [Hpn [Hnm Hch]]]].
  destruct (lookup_alter_fwd f h id p pn Hk Hpn) as [pn' [Hpn' Hch']].
  exists pn', nm. split; [exact Hpn'|]. split; [congruence | congruence].
Qed.

Lemma keeps_set_parent_children v : forall n,
  _name (set_parent v n) = _name n /\ _children (set_parent v n) = _children n.
Proof. intros n. split; reflexivity. Qed.

(** Detaching a node from its parent keeps the tree linked. *)
Lemma linked_detach (id : nat) (h : gmap nat Stat) :
  linked h -> linked (alter (set_parent None) id h).
Proof.
  intros Hl id' n' p Hn Hp.
  apply lookup_alter_inv in Hn as [n0 [H0 Hc]].
  destruct Hc as [[Hne ->] | [_ ->]]; [|discriminate Hp].
  destruct (Hl id' n0 p H0 Hp) as [pn [nm [Hpn [Hnm Hch]]]].
  destruct (decide (id = p)) as [->|Hnp].
  - exists (set_parent None pn), nm. rewrite lookup_alter_eq, Hpn. repeat split; assumption.
  - exists pn, nm. rewrite lookup_alter_ne by exact Hnp. repeat split; assumption.
Qed.

Section Instance.
Context `{Host}.

Lemma kl_emit e : respects keeps_linked (emit e).
Proof. intros s Hl. exact Hl. Qed.

Lemma kl_statcalls : respects keeps_linked incr_statcalls.
Proof. intros s Hl. exact Hl. Qed.

Lemma kl_accesses : respects keeps_linked incr_accesses.
Proof. intros s Hl. exact Hl. Qed.

Lemma kl_update id f : keeps_links f -> respects keeps_linked (update id f).
Proof. intros Hk s Hl. cbn. now apply linked_alter. Qed.

(** The constructor enters the new node under a name that is free. *)
Lemma kl_register parent name uid gid t :
  respects keeps_linked (register parent name uid gid t).
Proof.
  intros s Hl. unfold register. destruct parent as [p|].
  - unfold bind at 1. unfold assert. destruct (Py.truthy name); [|exact Hl].
    unfold ret at 1. unfold bind at 1. unfold load.
    destruct (heap s !! p) as [pn|] eqn:Hp; [|exact Hl].
    unfold bind at 1. unfold assert.
    destruct (bool_decide (is_Some (_children pn !! name))) eqn:Hfree; [exact Hl|].
    cbn. apply bool_decide_eq_false in Hfree.
    assert (Hnone : _children pn !! name = None).
    { destruct (_children pn !! name) eqn:E; [|reflexivity]. exfalso. apply Hfree. eauto. }
    remember (fresh (dom (heap s))) as new eqn:Enew.
    assert (Hnew : heap s !! new = None).
    { subst new. apply not_elem_of_dom. apply is_fresh. }
    clear Enew.
    assert (Hpn : new <> p) by (intros ->; congruence).
    intros id n q Hn Hq.
    apply lookup_alter_inv in Hn as [n0 [H0 Hc]].
    destruct (decide (id = new)) as [->|Hidn].
    + rewrite lookup_insert_eq in H0. injection H0 as <-.
      destruct Hc as [[_ ->] | [-> _]]; [|congruence].
      cbn in Hq. injection Hq as <-.
      eexists _, name. rewrite lookup_alter_eq, lookup_insert_ne, Hp by exact Hpn.
      cbn. split; [reflexivity|]. split; [reflexivity|]. apply lookup_insert_eq.
    + rewrite lookup_insert_ne in H0 by congruence.
      assert (Hq0 : _parent n0 = Some q /\ _name n0 = _name n).
      { destruct Hc as [[_ ->] | [_ ->]]; auto. }
      destruct Hq0 as [Hq0 Hnm0].
      destruct (Hl id n0 q H0 Hq0) as [qn [nm [Hqn [Hnm Hch]]]].
      assert (Hqnew : new <> q) by (intros ->; congruence).
      destruct (decide (p = q)) as [<-|Hpq].
      * eexists _, nm. rewrite lookup_alter_eq, lookup_insert_ne, Hp by exact Hpn.
        cbn. split; [reflexivity|]. split; [congruence|].
        assert (pn = qn) by congruence. subst qn.
        change (<[name:=new]> (_children pn) !! nm = Some id).
        rewrite lookup_insert_ne; [exact Hch|]. intros ->. congruence.
      * exists qn, nm. rewrite lookup_alter_ne by exact Hpq.
        rewrite lookup_insert_ne by exact Hqnew.
        repeat split; [exact Hqn | congruence | exact Hch].
  - cbn. remember (fresh (dom (heap s))) as new eqn:Enew.
    assert (Hnew : heap s !! new = None).
    { subst new. apply not_elem_of_dom. apply is_fresh. }
    clear Enew.
    intros id n q Hn Hq.
    destruct (decide (id = new)) as [->|Hidn].
    + rewrite lookup_insert_eq in Hn. injection Hn as <-. discriminate Hq.
    + rewrite lookup_insert_ne in Hn by congruence.
      destruct (Hl id n q Hn Hq) as [qn [nm [Hqn [Hnm Hch]]]].
      exists qn, nm. rewrite lookup_insert_ne by (intros ->; congruence).
      repeat split; assumption.
Qed.

(** The heap after the loop of [clear]. *)
Definition detach_all (l : list nat) (h : gmap nat Stat) : gmap nat Stat :=
  foldl (fun h c => alter (set_parent None) c h) h l.

Lemma clear_loop (l : list nat) (s : state) :
  for_each (fun (_ : unit) child => update child (set_parent None)) l tt s
  = (Ret tt, mkState (detach_all l (heap s)) (trace s) (_count_statcalls s) (_count_accesses s)).
Proof.
  revert s. induction l as [|c l IH]; intros s; cbn [for_each detach_all foldl].
  - destruct s; reflexivity.
  - unfold bind at 1. unfold update at 1. unfold bind, the_heap, set_heap.
    rewrite IH. reflexivity.
Qed.

Lemma detach_all_lookup (l : list nat) (h : gmap nat Stat) (id : nat) :
  detach_all l h !! id
  = if bool_decide (id ∈ l) then set_parent None <$> h !! id else h !! id.
Proof.
  revert h. induction l as [|c l IH]; intros h; cbn [detach_all foldl].
  - rewrite bool_decide_eq_false_2; [reflexivity | apply not_elem_of_nil].
  - fold (detach_all l (alter (set_parent None) c h)). rewrite IH.
    destruct (decide (c = id)) as [->|Hne].
    + rewrite lookup_alter_eq. rewrite (bool_decide_eq_true_2 (id ∈ id :: l)) by left.
      destruct (bool_decide (id ∈ l)); destruct (h !! id); reflexivity.
    + rewrite lookup_alter_ne by exact Hne.
      destruct (bool_decide (id ∈ l)) eqn:E.
      * apply bool_decide_eq_true in E.
        rewrite bool_decide_eq_true_2; [reflexivity | now right].
      * apply bool_decide_eq_false in E.
        rewrite bool_decide_eq_false_2; [reflexivity|].
        rewrite elem_of_cons. intros [->|Hin]; [congruence | contradiction].
Qed.

(** [clear] orphans exactly the nodes whose parent it is. *)
Lemma kl_clear self : respects keeps_linked (clear self).
Proof.
  intros s Hl. unfold clear. unfold bind at 1. unfold load.
  destruct (heap s !! self) as [n|] eqn:Hself; [|exact Hl].
  unfold bind. rewrite clear_loop. cbn.
  set (l := (map_to_list (_children n)).*2).
  intros id n' p Hn Hp.
  apply lookup_alter_inv in Hn as [n0 [H0 Hc]].
  destruct Hc as [[Hne ->] | [_ ->]]; [|discriminate Hp].
  rewrite detach_all_lookup in H0.
  destruct (bool_decide (id ∈ l)) eqn:Hin.
  { destruct (heap s !! id); [|discriminate]. injection H0 as <-. discriminate Hp. }
  apply bool_decide_eq_false in Hin.
  destruct (Hl id n0 p H0 Hp) as [pn [nm [Hpn [Hnm Hch]]]].
  assert (Hps : p <> self).
  { intros ->. apply Hin. assert (pn = n) by congruence. subst pn.
    unfold l. apply list_elem_of_fmap. exists (nm, id). split; [reflexivity|].
    apply elem_of_map_to_list. exact Hch. }
  assert (Hp' : exists pn', detach_all l (heap s) !! p = Some pn'
                            /\ _children pn' = _children pn).
  { rewrite detach_all_lookup, Hpn. destruct (bool_decide (p ∈ l)); eexists; split; reflexivity. }
  destruct Hp' as [pn' [Hpn' Hch']].
  exists pn', nm. rewrite lookup_alter_ne by congruence.
  split; [exact Hpn'|]. split; [exact Hnm | congruence].
Qed.

(** The write policy of the jail looks at no node. *)
Lemma writable_same_heap (c : Jail.JailConfig) p cmd :
  respects same_heap (Jail.writable_fn c p cmd).
Proof.
  intros s. unfold Jail.writable_fn, Jail.writable, same_heap, bind, emit, raise, ret.
  destruct (Py.truthy_opt (Some cmd)); [|reflexivity].
  destruct (negb _); [reflexivity|].
  destruct (Jail.test c); [reflexivity|].
  destruct (Jail.verbose c); reflexivity.
Qed.

Lemma write_call_same_heap (c : Jail.JailConfig) self cmd call :
  respects same_heap (write_call (Jail.writable_fn c) self cmd call).
Proof.
  unfold write_call.
  apply (respects_bind _ same_heap_trans).
  { apply (respects_path _ same_heap_refl same_heap_trans). }
  intros p. apply (respects_bind _ same_heap_trans); [apply writable_same_heap|].
  intros [|]; [|intros s; reflexivity].
  apply (respects_bind _ same_heap_trans); [intros s; reflexivity|].
  intros tr. apply (respects_bind _ same_heap_trans); [intros s; reflexivity|].
  intros _. destruct (host_sys tr call); [intros s; reflexivity|].
  destruct call; intros s; reflexivity.
Qed.

Lemma kl_write_call (c : Jail.JailConfig) self cmd call :
  respects keeps_linked (write_call (Jail.writable_fn c) self cmd call).
Proof. apply same_heap_keeps, write_call_same_heap. Qed.

(** The operations on the shadow tree. *)
Inductive tree_op :=
| OpInit (parent : option nat) (name : string) (data : init_data)
| OpGet (self : nat) (p : string) (root_ : option nat) (links : option (gset nat))
| OpGetdefault (self : nat) (p : option string) (fmt_ : Z)
    (root_ : option nat) (links : option (gset nat))
| OpLstat (self : nat) (p : string) (fmt_ : option Z)
| OpStat (self : nat) (p : string) (fmt_ : option Z)
| OpListdir (self : nat) (p : option string)
| OpRefresh (self : nat) (d : option stat_result)
| OpClear (self : nat)
| OpRemove (self : nat)
| OpRmdir (self : nat)
| OpRm_rf (self : nat) (dstpath : string)
| OpSymlink (self : nat) (target : string) (p : option string)
| OpMkdir (self : nat) (p : option string) (mode_ : Z) (uid gid : option Z)
| OpMknod (self : nat) (p : option string) (mode_ device : Z)
| OpChown (self : nat) (uid gid : option Z)
| OpChmod (self : nat) (mode_ : Z)
| OpUtime (self : nat) (mtime : utime_arg)
| OpChflags (self : nat) (flags : flags_arg).

(** Run one operation; its result is dropped, its effect on the state
    kept, whether it returns or raises. *)
Definition run_op (c : Jail.JailConfig) (fuel : nat) (op : tree_op) (s : state) : state :=
  let w := Jail.writable_fn c in
  match op with
  | OpInit parent name data => snd (__init__ parent name data s)
  | OpGet self p r l => snd (get fuel self p r l s)
  | OpGetdefault self p f r l => snd (getdefault fuel self p f r l s)
  | OpLstat self p f => snd (lstat fuel self p f s)
  | OpStat self p f => snd (stat fuel self p f s)
  | OpListdir self p => snd (listdir fuel self p s)
  | OpRefresh self d => snd (refresh self d s)
  | OpClear self => snd (clear self s)
  | OpRemove self => snd (remove w self s)
  | OpRmdir self => snd (rmdir w self s)
  | OpRm_rf self dstpath => snd (rm_rf w fuel self dstpath s)
  | OpSymlink self target p => snd (symlink w fuel self target p s)
  | OpMkdir self p m uid gid => snd (mkdir w fuel self p m uid gid s)
  | OpMknod self p m d => snd (mknod w fuel self p m d s)
  | OpChown self uid gid => snd (chown w self uid gid s)
  | OpChmod self m => snd (chmod w self m s)
  | OpUtime self t => snd (utime w self t s)
  | OpChflags self f => snd (chflags w self f s)
  end.

Definition run_ops (c : Jail.JailConfig) (fuel : nat) (ops : list tree_op) (s : state) : state :=
  foldl (fun s op => run_op c fuel op s) s ops.

Lemma run_op_linked (c : Jail.JailConfig) (fuel : nat) (op : tree_op) (s : state) :
  linked (heap s) -> linked (heap (run_op c fuel op s)).
Proof.
  pose proof keeps_linked_refl as Rr. pose proof keeps_linked_trans as Rt.
  pose proof kl_emit as Re. pose proof kl_statcalls as Rs. pose proof kl_accesses as Ra.
  pose proof kl_update as Ru. pose proof kl_register as Rg. pose proof kl_clear as Rc.
  pose proof (kl_write_call c) as Rw.
  assert (Rer : forall e, is_read e -> respects keeps_linked (emit e)) by (intros e _; apply Re).
  destruct op; cbn [run_op].
  - apply (respects_init keeps_linked); assumption.
  - apply (respects_get keeps_linked); assumption.
  - apply (respects_getdefault keeps_linked); assumption.
  - apply (respects_lstat keeps_linked); assumption.
  - apply (respects_stat keeps_linked); assumption.
  - apply (respects_listdir keeps_linked); assumption.
  - apply (respects_refresh keeps_linked); assumption.
  - apply Rc.
  - apply (respects_remove _ keeps_linked); assumption.
  - apply (respects_rmdir _ keeps_linked); assumption.
  - apply (respects_rm_rf _ keeps_linked); assumption.
  - apply (respects_symlink _ keeps_linked); assumption.
  - apply (respects_mkdir _ keeps_linked); assumption.
  - apply (respects_mknod _ keeps_linked); assumption.
  - apply (respects_chown _ keeps_linked); assumption.
  - apply (respects_chmod _ keeps_linked); assumption.
  - apply (respects_utime _ keeps_linked); assumption.
  - apply (respects_chflags _ keeps_linked); assumption.
Qed.

(** C6. After any sequence of shadow-tree operations, started from a tree
    in which every node with a parent is registered in that parent's
    [_children] under its own name, every node with a parent still is:
    [n.parent] is [None] or [n.parent.children[n.name] is n]. *)
Theorem parent_link_invariant (c : Jail.JailConfig) (fuel : nat) (ops : list tree_op)
    (s : state) :
  linked (heap s) -> linked (heap (run_ops c fuel ops s)).
Proof.
  unfold run_ops. revert s. induction ops as [|op ops IH]; intros s Hl; cbn [foldl].
  - exact Hl.
  - apply IH. now apply run_op_linked.
Qed.

End Instance.

Lemma linked_empty : linked ∅.
Proof. intros id n p Hn. rewrite lookup_empty in Hn. discriminate. Qed.

(** From the empty heap: create the root, look up two paths that the host
    does not have, plan a directory and a file placeholder, remove the file
    and clear the directory. *)
Definition session : list tree_op :=
  [ OpInit None "" DataNone;
    OpGet 0 "/var/jailbase" None None;
    OpGetdefault 0 (Some "/tmp") S_IFDIR None None;
    OpGetdefault 0 (Some "/tmp/x") S_IFREG None None;
    OpRm_rf 0 "/tmp/x";
    OpClear 1 ].

Lemma parent_link_invariant_witness :
  linked ∅ /\
  linked (heap (run_ops (H := Demo.quiet_host) Demo.test_mode 8 session (Demo.state_of ∅))).
Proof.
  split; [exact linked_empty|].
  apply (parent_link_invariant (H := Demo.quiet_host)). exact linked_empty.
Defined.

End TreeLinks.

(** ** The near-root guard of [rm_rf] *)

Module RmRf.
Import Sfs.

Section Guard.
Context `{Host}.
Variable writable : option string -> string -> M bool.

(** C4 (as amended). When the target of [rm_rf] is an existing directory
    whose path has at most two ['/'], the call fails on its assertion in
    the state the lookup left: nothing is listed, no [writable] question is
    asked, no system call is made and no node is cleared.  When the target
    is an existing node that is not a directory, [rm_rf] is [remove] on it,
    whatever its path. *)
Theorem rm_rf_guards_directories (fuel self : nat) (dstpath : string) (s s1 : state)
    (d : nat) (links : gset nat) (n : Stat) :
  get fuel self dstpath None None s = (Ret (Some d, links), s1) ->
  heap s1 !! d = Some n ->
  __nonzero__ n = true ->
  (isdir n = true ->
   forall p, path d s1 = (Ret p, s1) -> (Py.count "/" p <= 2)%nat ->
   rm_rf writable (S fuel) self dstpath s = (Exc AssertionError, s1)) /\
  (isdir n = false ->
   rm_rf writable (S fuel) self dstpath s = remove writable d s1).
Proof.
  intros Hget Hd Hnz. split.
  - intros Hdir p Hp Hc. cbn [rm_rf]. unfold bind at 1. rewrite Hget.
    unfold bind at 1. unfold load. rewrite Hd, Hnz, Hdir.
    unfold bind at 1. rewrite Hp. unfold bind at 1.
    destruct (Nat.ltb_spec 2 (Py.count "/" p)); [lia | reflexivity].
  - intros Hdir. cbn [rm_rf]. unfold bind at 1. rewrite Hget.
    unfold bind at 1. unfold load. rewrite Hd, Hnz, Hdir. reflexivity.
Qed.

End Guard.

(** [/tmp] with a regular file [foo] and a directory [dir] in it. *)
Definition tmp_tree : gmap nat Stat :=
  {[ 0%nat := Demo.node None "" {[ "tmp" := 1%nat ]} None (Z.lor S_IFDIR 493);
     1%nat := Demo.node (Some 0%nat) "tmp" {[ "foo" := 2%nat; "dir" := 3%nat ]} None
                (Z.lor S_IFDIR 511);
     2%nat := Demo.node (Some 1%nat) "foo" ∅ None (Z.lor S_IFREG 420);
     3%nat := Demo.node (Some 1%nat) "dir" ∅ None (Z.lor S_IFDIR 493) ]}.

Lemma rm_rf_guards_directories_witness :
  let w := Jail.writable_fn Demo.production in
  let s := Demo.state_of tmp_tree in
  let s1 := mkState tmp_tree [] 0 1 in
  rm_rf (H := Demo.quiet_host) w 9 0 "/tmp/dir" s = (Exc AssertionError, s1) /\
  rm_rf (H := Demo.quiet_host) w 9 0 "/tmp/foo" s = remove (H := Demo.quiet_host) w 2 s1.
Proof.
  cbv zeta. split.
  - apply (proj1 (rm_rf_guards_directories (H := Demo.quiet_host)
             (Jail.writable_fn Demo.production) 8 0 "/tmp/dir"
             (Demo.state_of tmp_tree) (mkState tmp_tree [] 0 1) 3 ∅
             (Demo.node (Some 1%nat) "dir" ∅ None (Z.lor S_IFDIR 493))
             ltac:(vm_compute; reflexivity) ltac:(vm_compute; reflexivity)
             ltac:(reflexivity)) ltac:(reflexivity) "/tmp/dir").
    + vm_compute. reflexivity.
    + vm_compute. lia.
  - apply (proj2 (rm_rf_guards_directories (H := Demo.quiet_host)
             (Jail.writable_fn Demo.production) 8 0 "/tmp/foo"
             (Demo.state_of tmp_tree) (mkState tmp_tree [] 0 1) 2 ∅
             (Demo.node (Some 1%nat) "foo" ∅ None (Z.lor S_IFREG 420))
             ltac:(vm_compute; reflexivity) ltac:(vm_compute; reflexivity)
             ltac:(reflexivity)) ltac:(reflexivity)).
Defined.

(** C4 (counterexample). [/tmp/foo] has two ['/'] and is a regular file:
    outside test mode [rm_rf] removes it -- [os.remove] is called and the
    node is cleared. *)
Lemma rm_rf_removes_near_root_file :
  let '(r, s') := rm_rf (H := Demo.quiet_host) (Jail.writable_fn Demo.production) 9 0
                    "/tmp/foo" (Demo.state_of tmp_tree) in
  Py.count "/" "/tmp/foo" = 2%nat /\
  r = Ret tt /\
  trace s' = [EvSys (os_remove "/tmp/foo")] /\
  heap s' !! 2%nat = Some cleared.
Proof. vm_compute. repeat split; reflexivity. Qed.

End RmRf.

(** ** Symlink loops in [get] *)

Module SymlinkLoop.
Import Sfs.

(** A path segment that names a child: not empty, not ["."], no ['/']. *)
Definition segment (nm : string) : Prop :=
  Py.truthy nm = true /\ String.eqb nm "." = false /\ Py.contains "/" nm = false.

Lemma append_nil (t : string) : "" ++ t = t.
Proof. reflexivity. Qed.

Lemma append_cons (a : ascii) (s t : string) : String a s ++ t = String a (s ++ t).
Proof. reflexivity. Qed.

Lemma for_each_app {A S} (body : S -> A -> M S) (l1 l2 : list A) (acc : S) (s : state) :
  for_each body (l1 ++ l2)%list acc s
  = bind (for_each body l1 acc) (for_each body l2) s.
Proof.
  revert acc s. induction l1 as [|x l1 IH]; intros acc s; [reflexivity|].
  cbn [for_each app]. unfold bind at 1 2 3.
  destruct (body acc x s) as [[a|e|] s1]; [apply IH | reflexivity | reflexivity].
Qed.

Section Walk.
Context `{Host}.

(** At a symlink that is in [links] the walk raises, without making the
    recursive call. *)
Lemma revisit_raises rec (root_ node : nat) (links : gset nat) (s : state) (n : Stat) :
  heap s !! node = Some n ->
  Py.truthy_opt (_link n) = true -> islnk n = true -> is_Some (_parent n) ->
  node ∈ links ->
  follow_link rec root_ node links s = (Exc (ValueError "recursive symlink"), s).
Proof.
  intros Hn Hl Hk Hp Hin. unfold follow_link.
  unfold bind at 1. unfold load. rewrite Hn, Hl, Hk.
  unfold bind at 1. cbn [assert]. unfold ret at 1.
  rewrite (bool_decide_eq_true_2 _ Hp). unfold bind at 1. cbn [assert]. unfold ret at 1.
  rewrite (bool_decide_eq_true_2 _ Hin). reflexivity.
Qed.

(** At a symlink that is not in [links] the walk adds it to the set and
    hands that set to the recursive call. *)
Lemma visit_follows rec (root_ node : nat) (links : gset nat) (s : state) (n : Stat)
    (p : nat) (target : string) :
  heap s !! node = Some n ->
  _link n = Some target -> Py.truthy target = true -> islnk n = true ->
  _parent n = Some p ->
  node ∉ links ->
  follow_link rec root_ node links s = rec p target root_ ({[node]} ∪ links) s.
Proof.
  intros Hn Hl Ht Hk Hp Hin. unfold follow_link.
  unfold bind at 1. unfold load. rewrite Hn, Hl. cbn [Py.truthy_opt]. rewrite Ht, Hk.
  unfold bind at 1. cbn [assert]. unfold ret at 1.
  rewrite Hp. rewrite bool_decide_eq_true_2 by eauto.
  unfold bind at 1. cbn [assert]. unfold ret at 1.
  rewrite (bool_decide_eq_false_2 _ Hin). reflexivity.
Qed.

(** A node that is no symlink is left as it is. *)
Lemma no_link_stays rec (root_ node : nat) (links : gset nat) (s : state) (n : Stat) :
  heap s !! node = Some n ->
  Py.truthy_opt (_link n) = false ->
  follow_link rec root_ node links s = (Ret (Some node, links), s).
Proof.
  intros Hn Hl. unfold follow_link. unfold bind, load. rewrite Hn, Hl. reflexivity.
Qed.

(** A revisit anywhere in the walk ends the loop of [get] with the
    error, in the state the walk had reached. *)
Lemma walk_revisit rec (root_ : nat) (pre post : list string) (name : string)
    (acc : option nat * gset nat) (s s1 : state) (node : nat) (links : gset nat) (n : Stat) :
  for_each (get_body rec root_) pre acc s = (Ret (Some node, links), s1) ->
  heap s1 !! node = Some n ->
  Py.truthy_opt (_link n) = true -> islnk n = true -> is_Some (_parent n) ->
  node ∈ links ->
  for_each (get_body rec root_) (pre ++ name :: post)%list acc s
  = (Exc (ValueError "recursive symlink"), s1).
Proof.
  intros Hpre Hn Hl Hk Hp Hin.
  rewrite for_each_app. unfold bind. rewrite Hpre.
  cbn [for_each get_body]. unfold bind.
  rewrite (revisit_raises rec root_ node links s1 n Hn Hl Hk Hp Hin). reflexivity.
Qed.






(** The state after [k] more calls of [get] that found everything in the
    heap. *)
Definition entered (k : nat) (s : state) : state :=
  mkState (heap s) (trace s) (_count_statcalls s) (k + _count_accesses s).

Lemma entered_entered (a b : nat) (s : state) :
  entered a (entered b s) = entered (a + b) s.
Proof. unfold entered. cbn. f_equal. lia. Qed.


End Walk.

End SymlinkLoop.

(** ** Dry runs: predicates that never answer true *)

Module DryRun.
Import Sfs Steps.

(** The step relation of a dry run: the trace grows by events that are not
    system calls. *)
Definition quiet (s s' : state) : Prop :=
  exists evs, trace s' = (evs ++ trace s)%list /\ Forall is_read evs.

(** The step relation of code that interacts with nothing. *)
Definition same_trace (s s' : state) : Prop := trace s' = trace s.

Lemma quiet_refl s : quiet s s.
Proof. exists []. split; [reflexivity | constructor]. Qed.

Lemma quiet_trans a b c : quiet a b -> quiet b c -> quiet a c.
Proof.
  intros [e1 [H1 F1]] [e2 [H2 F2]]. exists (e2 ++ e1)%list. split.
  - rewrite H2, H1. apply app_assoc.
  - apply Forall_app. split; assumption.
Qed.

Lemma same_trace_quiet {A} (m : M A) : respects same_trace m -> respects quiet m.
Proof. intros Hm s. exists []. split; [apply Hm | constructor]. Qed.

(** The operations that can change the world. *)
Inductive mutation :=
| MSymlink (self : nat) (target : string) (p : option string)
| MMkdir (self : nat) (p : option string) (mode_ : Z) (uid gid : option Z)
| MMakedirs (self : nat) (p : string) (mode_ : option Z)
    (root_ : option nat) (links : option (gset nat))
| MMknod (self : nat) (p : option string) (mode_ device : Z)
| MCopy2 (self dststat : nat)
| MCp_p (self : nat) (srcpath dstpath : string)
| MRemove (self : nat)
| MRmdir (self : nat)
| MRm_rf (self : nat) (dstpath : string)
| MChown (self : nat) (uid gid : option Z)
| MChmod (self : nat) (mode_ : Z)
| MUtime (self : nat) (mtime : utime_arg)
| MChflags (self : nat) (flags : flags_arg)
| MSetgid (gid : Z)
| MSetuid (uid : Z).

Section Quiet.
Context `{Host}.
Variable writable : option string -> string -> M bool.

(** Run one operation; its result is dropped, its effect on the state
    kept, whether it returns or raises. *)
Definition mutate (fuel : nat) (op : mutation) (s : state) : state :=
  match op with
  | MSymlink self target p => snd (symlink writable fuel self target p s)
  | MMkdir self p m uid gid => snd (mkdir writable fuel self p m uid gid s)
  | MMakedirs self p m r l => snd (makedirs writable fuel self p m r l s)
  | MMknod self p m d => snd (mknod writable fuel self p m d s)
  | MCopy2 self d => snd (copy2 writable self d s)
  | MCp_p self sp dp => snd (cp_p writable fuel self sp dp s)
  | MRemove self => snd (remove writable self s)
  | MRmdir self => snd (rmdir writable self s)
  | MRm_rf self p => snd (rm_rf writable fuel self p s)
  | MChown self uid gid => snd (chown writable self uid gid s)
  | MChmod self m => snd (chmod writable self m s)
  | MUtime self t => snd (utime writable self t s)
  | MChflags self f => snd (chflags writable self f s)
  | MSetgid gid => snd (setgid writable gid s)
  | MSetuid uid => snd (setuid writable uid s)
  end.

Definition mutate_all (fuel : nat) (ops : list mutation) (s : state) : state :=
  foldl (fun s op => mutate fuel op s) s ops.

(** What makes [writable] the predicate of a dry run: it does no system
    call itself and never answers true. *)
Hypothesis writable_quiet : forall p cmd, respects quiet (writable p cmd).
Hypothesis writable_false : forall p cmd s s', writable p cmd s <> (Ret true, s').

Lemma q_emit e : is_read e -> respects quiet (emit e).
Proof. intros He s. exists [e]. split; [reflexivity | repeat constructor; exact He]. Qed.

Lemma q_statcalls : respects quiet incr_statcalls.
Proof. apply same_trace_quiet. intros s. reflexivity. Qed.

Lemma q_accesses : respects quiet incr_accesses.
Proof. apply same_trace_quiet. intros s. reflexivity. Qed.

Lemma q_update id f : respects quiet (update id f).
Proof. apply same_trace_quiet. intros s. reflexivity. Qed.

Lemma q_register parent name uid gid t : respects quiet (register parent name uid gid t).
Proof.
  apply same_trace_quiet. intros s. unfold register, same_trace.
  destruct parent as [p|]; [|reflexivity].
  unfold bind, assert, load, alloc, update, bind, the_heap, set_heap, ret, raise.
  destruct (Py.truthy name); [|reflexivity].
  destruct (heap s !! p) as [pn|]; [|reflexivity].
  destruct (negb _); reflexivity.
Qed.

Lemma q_clear self : respects quiet (clear self).
Proof.
  apply same_trace_quiet. intros s. unfold clear, same_trace.
  unfold bind at 1. unfold load. destruct (heap s !! self) as [n|]; [|reflexivity].
  unfold bind. rewrite TreeLinks.clear_loop. reflexivity.
Qed.

Lemma q_path self : respects quiet (path self).
Proof. apply (respects_path quiet quiet_refl quiet_trans). Qed.

(** A predicate that never answers true keeps [write_call] from its
    system call. *)
Lemma write_call_none self cmd call s r s' :
  write_call writable self cmd call s = (Ret r, s') -> r = None.
Proof.
  unfold write_call. unfold bind at 1.
  destruct (path self s) as [[p|e|] s1]; [|discriminate..].
  unfold bind at 1. destruct (writable (Some p) cmd s1) as [[[|]|e|] s2] eqn:Hw;
    [|intros [= <- _]; reflexivity|discriminate..].
  exfalso. exact (writable_false _ _ _ _ Hw).
Qed.

Lemma q_write_call self cmd call : respects quiet (write_call writable self cmd call).
Proof.
  unfold write_call.
  apply (respects_bind quiet quiet_trans); [apply q_path|]. intros p.
  apply (respects_bind_ret quiet quiet_trans (fun ok => ok = false));
    [apply writable_quiet | |].
  - intros s [|] s' Hw; [|reflexivity]. exfalso. exact (writable_false _ _ _ _ Hw).
  - intros ok ->. intros s. apply quiet_refl.
Qed.

Lemma q_os_lstat p : respects quiet (os_lstat p).
Proof.
  apply (respects_os_lstat quiet quiet_refl quiet_trans); [apply q_emit | apply q_statcalls].
Qed.

Lemma q_get fuel self p root_ links : respects quiet (get fuel self p root_ links).
Proof.
  apply (respects_get quiet quiet_refl quiet_trans);
    first [apply q_emit | apply q_statcalls | apply q_accesses | apply q_register
          | intros; apply q_update].
Qed.

Lemma q_getdefault fuel self p fmt_ root_ links :
  respects quiet (getdefault fuel self p fmt_ root_ links).
Proof.
  apply (respects_getdefault quiet quiet_refl quiet_trans);
    first [apply q_emit | apply q_statcalls | apply q_accesses | apply q_register
          | intros; apply q_update].
Qed.

Ltac quiet_op lem :=
  apply (lem _ writable quiet quiet_refl quiet_trans);
  first [apply q_emit | apply q_statcalls | apply q_accesses | apply q_register
        | apply q_clear | apply q_write_call | intros; apply q_update].

Lemma q_symlink fuel self target p : respects quiet (symlink writable fuel self target p).
Proof. quiet_op @respects_symlink. Qed.

Lemma q_mkdir fuel self p mode_ uid gid :
  respects quiet (mkdir writable fuel self p mode_ uid gid).
Proof. quiet_op @respects_mkdir. Qed.

Lemma q_mknod fuel self p mode_ device :
  respects quiet (mknod writable fuel self p mode_ device).
Proof. quiet_op @respects_mknod. Qed.

Lemma q_remove self : respects quiet (remove writable self).
Proof. quiet_op @respects_remove. Qed.

Lemma q_rmdir self : respects quiet (rmdir writable self).
Proof. quiet_op @respects_rmdir. Qed.

Lemma q_rm_rf fuel self dstpath : respects quiet (rm_rf writable fuel self dstpath).
Proof. quiet_op @respects_rm_rf. Qed.

Lemma q_chown self uid gid : respects quiet (chown writable self uid gid).
Proof. quiet_op @respects_chown. Qed.

Lemma q_chmod self mode_ : respects quiet (chmod writable self mode_).
Proof. quiet_op @respects_chmod. Qed.

Lemma q_utime self mtime : respects quiet (utime writable self mtime).
Proof. quiet_op @respects_utime. Qed.

Lemma q_chflags self flags : respects quiet (chflags writable self flags).
Proof. quiet_op @respects_chflags. Qed.

Lemma qbind {A B} (m : M A) (f : A -> M B) :
  respects quiet m -> (forall a, respects quiet (f a)) -> respects quiet (bind m f).
Proof. apply respects_bind, quiet_trans. Qed.

Lemma qret {A} (a : A) : respects quiet (ret a).
Proof. apply respects_ret, quiet_refl. Qed.

Lemma qraise {A} (e : exn) : respects quiet (raise (A := A) e).
Proof. apply respects_raise, quiet_refl. Qed.

(** [copy2]: the calls that follow the copy are made only when
    [write_call] handed back a byte count. *)
Lemma q_copy2 self dststat : respects quiet (copy2 writable self dststat).
Proof.
  unfold copy2. destruct (Nat.eqb self dststat); [apply qret|].
  apply qbind; [apply (respects_load quiet quiet_refl)|]. intros src.
  destruct (negb (isreg src)); [apply qraise|].
  apply qbind; [apply (respects_load quiet quiet_refl)|]. intros dst.
  destruct (__nonzero__ dst && negb (isreg dst)); [apply qraise|].
  apply qbind; [apply q_path|]. intros sp.
  apply qbind; [apply q_path|]. intros dp.
  do 7 (apply qbind; [apply q_update|]; intros _).
  apply (respects_bind_ret quiet quiet_trans (fun w => w = None)).
  - apply q_write_call.
  - intros s r s' Hw. exact (write_call_none _ _ _ _ _ _ Hw).
  - intros w ->. apply qbind; apply qret || (intros; apply qret).
Qed.

Lemma q_cp_p fuel self srcpath dstpath : respects quiet (cp_p writable fuel self srcpath dstpath).
Proof.
  unfold cp_p. apply qbind; [apply q_get|]. intros [[src|] l]; [|apply qraise].
  apply qbind; [apply (respects_load quiet quiet_refl)|]. intros sn.
  apply qbind; [apply q_getdefault|]. intros [d l'].
  apply qbind; [apply q_copy2|]. intros _. apply qret.
Qed.

Lemma q_makedirs fuel self p mode_ root_ links :
  respects quiet (makedirs writable fuel self p mode_ root_ links).
Proof.
  unfold makedirs.
  apply qbind.
  { destruct root_; [apply qret | apply (respects_root quiet quiet_refl)]. }
  intros r. apply qbind; [|intros [nd l]; apply qret].
  apply (respects_for_each quiet quiet_refl quiet_trans). intros [nd l] name.
  apply qbind; [apply q_get|]. intros [[c|] l']; [apply qret|].
  apply qbind; [apply q_mkdir|]. intros c. apply qret.
Qed.

Lemma q_os_getegid : respects quiet os_getegid.
Proof. apply (respects_getegid quiet quiet_refl). Qed.

Lemma q_os_geteuid : respects quiet os_geteuid.
Proof. apply (respects_geteuid quiet quiet_refl). Qed.

Lemma q_setgid gid : respects quiet (setgid writable gid).
Proof.
  unfold setgid. apply qbind; [apply q_os_getegid|]. intros egid.
  destruct ((gid <? 1)%Z || (gid =? egid)%Z); [apply qret|].
  destruct (host_gr_name gid) as [name|]; [|apply qraise].
  apply (respects_bind_ret quiet quiet_trans (fun ok => ok = false));
    [apply writable_quiet | |].
  - intros s [|] s' Hw; [|reflexivity]. exfalso. exact (writable_false _ _ _ _ Hw).
  - intros ok ->. apply qret.
Qed.

Lemma q_setuid uid : respects quiet (setuid writable uid).
Proof.
  unfold setuid. apply qbind; [apply q_os_geteuid|]. intros euid.
  destruct ((uid <? 1)%Z || (uid =? euid)%Z); [apply qret|].
  destruct (host_pw_name uid) as [name|]; [|apply qraise].
  apply (respects_bind_ret quiet quiet_trans (fun ok => ok = false));
    [apply writable_quiet | |].
  - intros s [|] s' Hw; [|reflexivity]. exfalso. exact (writable_false _ _ _ _ Hw).
  - intros ok ->. apply qret.
Qed.

Lemma mutate_quiet fuel op s : quiet s (mutate fuel op s).
Proof.
  destruct op; cbn [mutate].
  - apply q_symlink.
  - apply q_mkdir.
  - apply q_makedirs.
  - apply q_mknod.
  - apply q_copy2.
  - apply q_cp_p.
  - apply q_remove.
  - apply q_rmdir.
  - apply q_rm_rf.
  - apply q_chown.
  - apply q_chmod.
  - apply q_utime.
  - apply q_chflags.
  - apply q_setgid.
  - apply q_setuid.
Qed.

Lemma mutate_all_quiet fuel ops s : quiet s (mutate_all fuel ops s).
Proof.
  unfold mutate_all. revert s. induction ops as [|op ops IH]; intros s; cbn [foldl].
  - apply quiet_refl.
  - eapply quiet_trans; [apply mutate_quiet | apply IH].
Qed.

End Quiet.

Section Predicates.
Context `{Host}.

Lemma test_writable_quiet (c : Jail.JailConfig) p cmd :
  respects quiet (Jail.writable_fn c p cmd).
Proof.
  intros s. unfold Jail.writable_fn, Jail.writable, bind, emit, raise, ret.
  destruct (Py.truthy_opt (Some cmd)); [|apply quiet_refl].
  destruct (negb _); [apply quiet_refl|].
  destruct (Jail.test c); [apply q_emit; exact I|].
  destruct (Jail.verbose c); [apply q_emit; exact I | apply quiet_refl].
Qed.

Lemma test_writable_false (c : Jail.JailConfig) p cmd s s' :
  Jail.test c = true -> Jail.writable_fn c p cmd s <> (Ret true, s').
Proof.
  intros Ht. unfold Jail.writable_fn, Jail.writable, bind, emit, raise, ret. rewrite Ht.
  destruct (Py.truthy_opt (Some cmd)); [|discriminate].
  destruct (negb _); discriminate.
Qed.

Lemma default_writable_quiet p cmd : respects quiet (Stat_writable p cmd).
Proof. intros s. apply quiet_refl. Qed.

Lemma default_writable_false p cmd s s' : Stat_writable p cmd s <> (Ret true, s').
Proof. discriminate. Qed.

(** X1. In test mode no operation of the shadow filesystem makes a system call
    that changes the world: whatever the operations, their arguments and
    the state they start from, and whether they return or raise, the trace
    grows by events that are not system calls. *)
Theorem test_mode_makes_no_syscall (c : Jail.JailConfig) (fuel : nat)
    (ops : list mutation) (s : state) :
  Jail.test c = true ->
  exists evs,
    trace (mutate_all (Jail.writable_fn c) fuel ops s) = (evs ++ trace s)%list /\
    forall call, EvSys call ∉ evs.
Proof.
  intros Ht.
  destruct (mutate_all_quiet (Jail.writable_fn c) (test_writable_quiet c)
              (fun p cmd s s' => test_writable_false c p cmd s s' Ht) fuel ops s)
    as [evs [Htr Hq]].
  exists evs. split; [exact Htr|]. intros call Hin.
  rewrite Forall_forall in Hq. exact (Hq _ Hin).
Qed.

(** X2. As long as no predicate has been installed with [writable_fn], the
    class attribute [writable] cannot be called: every [write_call] on a
    node that has a path raises [TypeError] in the state it was called in,
    and so does [chmod] with permission bits to change.  No operation of
    the shadow filesystem then makes a system call that changes the
    world. *)
Theorem default_predicate_makes_no_syscall (fuel : nat) (ops : list mutation) (s : state) :
  (exists evs,
     trace (mutate_all Stat_writable fuel ops s) = (evs ++ trace s)%list /\
     forall call, EvSys call ∉ evs) /\
  (forall self cmd call p,
     path self s = (Ret p, s) ->
     write_call Stat_writable self cmd call s = (Exc TypeError, s)) /\
  (forall self n m p,
     heap s !! self = Some n -> path self s = (Ret p, s) -> mode n <> S_IMODE m ->
     chmod Stat_writable self m s = (Exc TypeError, s)).
Proof.
  split; [|split].
  - destruct (mutate_all_quiet Stat_writable default_writable_quiet
                default_writable_false fuel ops s) as [evs [Htr Hq]].
    exists evs. split; [exact Htr|]. intros call Hin.
    rewrite Forall_forall in Hq. exact (Hq _ Hin).
  - intros self cmd call p Hp. unfold write_call, bind. rewrite Hp. reflexivity.
  - intros self n m p Hn Hp Hm. unfold chmod, bind, load. rewrite Hn.
    rewrite (proj2 (Z.eqb_neq _ _) Hm). cbn [negb]. rewrite Hp.
    unfold write_call, bind. rewrite Hp. reflexivity.
Qed.

End Predicates.

(** A dry run over [/tmp]: a mode change, a removal, a recursive removal, a
    new directory chain and a copy. *)
Definition rehearsal : list mutation :=
  [ MChmod 2 384;
    MRemove 2;
    MRm_rf 0 "/tmp/dir";
    MMakedirs 0 "/tmp/a/b" None None None;
    MCp_p 0 "/tmp/foo" "/tmp/bar" ].

Lemma default_predicate_makes_no_syscall_witness :
  chmod (H := Demo.quiet_host) Stat_writable 2 384 (Demo.state_of RmRf.tmp_tree)
  = (Exc TypeError, Demo.state_of RmRf.tmp_tree).
Proof.
  apply (proj2 (proj2 (default_predicate_makes_no_syscall (H := Demo.quiet_host) 0 []
                         (Demo.state_of RmRf.tmp_tree)))
           2%nat (Demo.node (Some 1%nat) "foo" ∅ None (Z.lor S_IFREG 420)) 384%Z "/tmp/foo").
  - vm_compute. reflexivity.
  - vm_compute. reflexivity.
  - vm_compute. discriminate.
Defined.

Lemma test_mode_makes_no_syscall_witness :
  exists evs,
    trace (mutate_all (H := Demo.quiet_host) (Jail.writable_fn Demo.test_mode) 9 rehearsal
             (Demo.state_of RmRf.tmp_tree))
    = (evs ++ [])%list /\
    forall call, EvSys call ∉ evs.
Proof.
  apply (test_mode_makes_no_syscall (H := Demo.quiet_host) Demo.test_mode 9 rehearsal
           (Demo.state_of RmRf.tmp_tree)).
  reflexivity.
Defined.

End DryRun.

(** ** The write policy at work in the metadata operations *)

Module WritePolicy.
Import Sfs.

(** The state after a line has been printed. *)
Definition printed (text : string) (s : state) : state :=
  mkState (heap s) (EvPrint text :: trace s) (_count_statcalls s) (_count_accesses s).

(** The state after a system call has been made. *)
Definition called (c : syscall) (s : state) : state :=
  mkState (heap s) (EvSys c :: trace s) (_count_statcalls s) (_count_accesses s).

(** The state after fields of the node [id] have been assigned. *)
Definition assigned (f : Stat -> Stat) (id : nat) (s : state) : state :=
  mkState (alter f id (heap s)) (trace s) (_count_statcalls s) (_count_accesses s).

(** What [writable] raises for a path outside [writepath]. *)
Definition refusal : exn := ValueError "writepath disallows".

Lemma S_IMODE_fmt_mode (x m : Z) : S_IMODE (Z.lor (S_IFMT x) (S_IMODE m)) = S_IMODE m.
Proof.
  unfold S_IMODE, S_IFMT. rewrite Z.land_lor_distr_l, <- !Z.land_assoc.
  change (Z.land 61440 4095) with 0%Z. change (Z.land 4095 4095) with 4095%Z.
  rewrite Z.land_0_r. apply Z.lor_0_l.
Qed.

Lemma S_IFMT_fmt_mode (x m : Z) : S_IFMT (Z.lor (S_IFMT x) (S_IMODE m)) = S_IFMT x.
Proof.
  unfold S_IMODE, S_IFMT. rewrite Z.land_lor_distr_l, <- !Z.land_assoc.
  change (Z.land 4095 61440) with 0%Z. change (Z.land 61440 61440) with 61440%Z.
  rewrite Z.land_0_r. apply Z.lor_0_r.
Qed.

Section Ops.
Context `{Host}.

Lemma load_run (id : nat) (n : Stat) (s : state) :
  heap s !! id = Some n -> load id s = (Ret n, s).
Proof. intros Hn. unfold load. rewrite Hn. reflexivity. Qed.

(** [path] reads the heap and nothing else. *)
Lemma path_reads (id : nat) (s : state) :
  path id s =
  (match heap s !! id with
   | None => Exc (SystemError "dangling reference")
   | Some n =>
       match path_loop (size (heap s)) (heap s) n (_name n) with
       | Ret (Some a) => Ret (if Py.startswith a "/" then a else "/" ++ a)
       | Ret None => Exc AttributeError
       | Exc e => Exc e
       | Fuel => Fuel
       end
   end, s).
Proof.
  unfold path, bind, load, the_heap.
  destruct (heap s !! id) as [n|]; [|reflexivity].
  destruct (path_loop (size (heap s)) (heap s) n (_name n)) as [[a|]|e|]; reflexivity.
Qed.

Lemma path_same_heap (id : nat) (s s2 : state) :
  heap s2 = heap s -> path id s2 = (fst (path id s), s2).
Proof. intros Hh. rewrite !path_reads, Hh. reflexivity. Qed.

Lemma path_run (id : nat) (p : string) (s s2 : state) :
  path id s = (Ret p, s) -> heap s2 = heap s -> path id s2 = (Ret p, s2).
Proof. intros Hp Hh. rewrite (path_same_heap id s s2 Hh), Hp. reflexivity. Qed.

Tactic Notation "run" := cbv beta iota zeta.
Tactic Notation "run" "in" hyp(H) := cbv beta iota zeta in H.

Ltac cond H := rewrite H; cbn [negb orb andb]; run.

Lemma neq_eqb (a b : Z) : a <> b -> (a =? b)%Z = false.
Proof. apply Z.eqb_neq. Qed.

(** The command texts of the operations. *)
Definition chmod_cmd (mode_ : Z) (p : string) : string :=
  "chmod " ++ py_oct mode_ ++ " " ++ py_repr p.
Definition chown_cmd (n : Stat) (uid gid : Z) (p : string) : string :=
  "chown " ++ (if negb (uid =? st_uid n)%Z then py_str uid else "") ++
  (if negb (gid =? st_gid n)%Z then ":" ++ py_str gid else "") ++ " " ++ py_repr p.
Definition remove_cmd (p : string) : string := "rm -f " ++ py_repr p.

(** [mtime] is far enough from the cached time for [utime] to act: the
    difference [mtime - st_mtime], as Python computes it, is not below 0.5
    in absolute value. *)
Definition utime_due (t : pytime) (n : Stat) : bool :=
  match Py.sub (time_val t) (time_val (st_mtime n)) with
  | Some d => negb (Py.lt_half (Py.abs d))
  | None => false
  end.

(** [mtime] is so close to the cached time that [utime] does nothing: the
    difference is below 0.5 in absolute value. *)
Definition utime_settled (t : pytime) (n : Stat) : bool :=
  match Py.sub (time_val t) (time_val (st_mtime n)) with
  | Some d => Py.lt_half (Py.abs d)
  | None => false
  end.

Lemma utime_due_run (t : pytime) (n : Stat) :
  utime_due t n = true ->
  exists d, Py.sub (time_val t) (time_val (st_mtime n)) = Some d /\
            Py.lt_half (Py.abs d) = false.
Proof.
  unfold utime_due. destruct (Py.sub _ _) as [d|]; [|discriminate].
  intros Hd. exists d. split; [reflexivity|]. now apply negb_true_iff.
Qed.

Lemma utime_settled_run (t : pytime) (n : Stat) :
  utime_settled t n = true ->
  exists d, Py.sub (time_val t) (time_val (st_mtime n)) = Some d /\
            Py.lt_half (Py.abs d) = true.
Proof.
  unfold utime_settled. destruct (Py.sub _ _) as [d|]; [|discriminate].
  intros Hd. exists d. split; [reflexivity | exact Hd].
Qed.

Section Jail.
Variable c : Jail.JailConfig.

(** In test mode, on an allowed path: the command is printed, no call is
    made. *)
Lemma write_call_test self cmd call s p :
  Jail.test c = true -> path self s = (Ret p, s) -> Jail.writepath_rx c p = true ->
  Py.truthy cmd = true ->
  write_call (Jail.writable_fn c) self cmd call s = (Ret None, printed cmd s).
Proof.
  intros Ht Hp Ha Hc. unfold write_call, bind. rewrite Hp. cbv beta iota.
  unfold Jail.writable_fn, Jail.writable, bind, emit, ret, raise.
  cbn [Py.truthy_opt default]. unfold id. rewrite Hc, Ha, Ht. reflexivity.
Qed.

(** On a path outside [writepath], in test mode or not: [ValueError]. *)
Lemma write_call_refused self cmd call s p :
  path self s = (Ret p, s) -> Jail.writepath_rx c p = false -> Py.truthy cmd = true ->
  write_call (Jail.writable_fn c) self cmd call s = (Exc refusal, s).
Proof.
  intros Hp Ha Hc. unfold write_call, bind. rewrite Hp. cbv beta iota.
  unfold Jail.writable_fn, Jail.writable, bind, emit, ret, raise.
  cbn [Py.truthy_opt default]. rewrite Hc, Ha. reflexivity.
Qed.

(** The state in which the system call of a live run is made: the command
    has been printed when [verbose] is set. *)
Definition announced (cmd : string) (s : state) : state :=
  if Jail.verbose c then printed ("# " ++ cmd) s else s.

(** Outside test mode, on an allowed path: the call is made, and its
    failure is raised with the command text in front. *)
Lemma write_call_live self cmd call s p :
  Jail.test c = false -> path self s = (Ret p, s) -> Jail.writepath_rx c p = true ->
  Py.truthy cmd = true ->
  write_call (Jail.writable_fn c) self cmd call s =
  match host_sys (trace (announced cmd s)) call with
  | SysOk v => (Ret (Some v), called call (announced cmd s))
  | SysError e =>
      (Exc match call with
           | copydata _ _ => IOError e
           | _ => OSError (cmd ++ ": " ++ e)
           end, called call (announced cmd s))
  end.
Proof.
  intros Ht Hp Ha Hc. unfold write_call, bind. rewrite Hp. cbv beta iota.
  unfold Jail.writable_fn, Jail.writable, bind, emit, ret, raise, the_trace, announced.
  cbn [Py.truthy_opt default]. unfold id. rewrite Hc, Ha, Ht. cbn [negb].
  destruct (Jail.verbose c); cbv beta iota.
  - unfold printed, called. cbn [trace heap _count_statcalls _count_accesses].
    destruct (host_sys _ call); [reflexivity|]. destruct call; reflexivity.
  - unfold called.
    destruct (host_sys _ call); [reflexivity|]. destruct call; reflexivity.
Qed.

(** X3. On a node whose path [writepath] does not match, every operation that
    has something to change and a system call to make raises [ValueError]
    in the state it was called in -- no system call, nothing printed, no
    field assigned -- in test mode as well as outside it.  [chflags] on a
    platform without [os.chflags], and [utime] on one without [os.utime],
    have no call to make: they do not ask the predicate and assign the
    cached fields, outside [writepath] too. *)
Theorem refused_outside_writepath (fuel id : nat) (n : Stat) (p : string) (s : state) :
  heap s !! id = Some n ->
  path id s = (Ret p, s) ->
  Jail.writepath_rx c p = false ->
  (forall m, mode n <> S_IMODE m -> chmod (Jail.writable_fn c) id m s = (Exc refusal, s)) /\
  (forall uid gid,
     id_or uid (st_uid n) <> st_uid n \/ id_or gid (st_gid n) <> st_gid n ->
     chown (Jail.writable_fn c) id uid gid s = (Exc refusal, s)) /\
  (forall f, st_flags n <> f ->
     chflags (Jail.writable_fn c) id (FlInt f) s
     = if host_has_chflags then (Exc refusal, s)
       else (Ret (Some id), assigned (set_flags f) id s)) /\
  (forall t, utime_due t n = true ->
     utime (Jail.writable_fn c) id (UtNum t) s
     = if host_has_utime then (Exc refusal, s)
       else (Ret (Some id), assigned (set_mtime t) id (assigned (set_atime t) id s))) /\
  (forall target, __nonzero__ n = false \/ _link n <> Some target ->
     symlink (Jail.writable_fn c) fuel id target None s = (Exc refusal, s)) /\
  (isdir n = false -> remove (Jail.writable_fn c) id s = (Exc refusal, s)) /\
  (isdir n = true -> rmdir (Jail.writable_fn c) id s = (Exc refusal, s)).
Proof.
  intros Hn Hp Ha. repeat split.
  - intros m Hm. unfold chmod, bind. rewrite (load_run _ _ _ Hn). run.
    cond (neq_eqb _ _ Hm). rewrite Hp. run.
    erewrite write_call_refused; [reflexivity | eassumption | assumption | reflexivity].
  - intros uid gid Hne. unfold chown, bind. rewrite (load_run _ _ _ Hn). run.
    assert (Hc : negb (id_or uid (st_uid n) =? st_uid n)%Z
                 || negb (id_or gid (st_gid n) =? st_gid n)%Z = true).
    { destruct Hne as [Hu|Hg]; [rewrite (neq_eqb _ _ Hu) | rewrite (neq_eqb _ _ Hg)];
        cbn [negb]; [reflexivity | apply orb_true_r]. }
    rewrite Hc. run. rewrite Hp. run.
    erewrite write_call_refused; [reflexivity | eassumption | assumption | reflexivity].
  - intros f Hf. unfold chflags, bind, ret. run. rewrite (load_run _ _ _ Hn). run.
    rewrite (neq_eqb _ _ Hf). destruct host_has_chflags; run; [|reflexivity].
    rewrite Hp. run.
    erewrite write_call_refused; [reflexivity | eassumption | assumption | reflexivity].
  - intros t Hdue. unfold utime, bind, ret. run. rewrite (load_run _ _ _ Hn). run.
    destruct (utime_due_run _ _ Hdue) as [d [Hd Hl]]. rewrite Hd, Hl.
    destruct host_has_utime; run; [|reflexivity].
    rewrite Hp. run.
    erewrite write_call_refused; [reflexivity | eassumption | assumption | reflexivity].
  - intros target Hne. unfold symlink, bind, ret. run. rewrite (load_run _ _ _ Hn). run.
    assert (Hc : negb (__nonzero__ n) || negb (bool_decide (_link n = Some target)) = true).
    { destruct Hne as [Hz|Hl]; [rewrite Hz; reflexivity|].
      rewrite (bool_decide_eq_false_2 _ Hl). apply orb_true_r. }
    rewrite Hc. run. rewrite Hp. run.
    erewrite write_call_refused; [reflexivity | eassumption | assumption | reflexivity].
  - intros Hd. unfold remove, bind, assert, ret. rewrite (load_run _ _ _ Hn). run.
    rewrite Hd. cbn [negb]. run. rewrite Hp. run.
    erewrite write_call_refused; [reflexivity | eassumption | assumption | reflexivity].
  - intros Hd. unfold rmdir, bind, assert, ret. rewrite (load_run _ _ _ Hn). run.
    rewrite Hd. run. rewrite Hp. run.
    erewrite write_call_refused; [reflexivity | eassumption | assumption | reflexivity].
Qed.


(** X5. Outside test mode, on a node whose path [writepath] matches, the
    cached fields follow the system call: [chmod], [chown] and [remove] make
    exactly their call; when it succeeds the cache is updated, when it fails
    [OSError] is raised with the command text in front and the cache is as
    it was. *)
Theorem live_cache_follows_call (id : nat) (n : Stat) (p : string) (s : state) :
  Jail.test c = false ->
  heap s !! id = Some n ->
  path id s = (Ret p, s) ->
  Jail.writepath_rx c p = true ->
  (forall m, mode n <> S_IMODE m ->
     let cmd := chmod_cmd (S_IMODE m) p in
     let call := os_chmod p (S_IMODE m) in
     chmod (Jail.writable_fn c) id m s
     = match host_sys (trace (announced cmd s)) call with
       | SysOk _ => (Ret id, assigned (set_mode (Z.lor (fmt n) (S_IMODE m))) id
                               (called call (announced cmd s)))
       | SysError e => (Exc (OSError (cmd ++ ": " ++ e)), called call (announced cmd s))
       end) /\
  (forall uid gid,
     let u := id_or uid (st_uid n) in
     let g := id_or gid (st_gid n) in
     u <> st_uid n \/ g <> st_gid n ->
     let cmd := chown_cmd n u g p in
     let call := os_lchown p u g in
     chown (Jail.writable_fn c) id uid gid s
     = match host_sys (trace (announced cmd s)) call with
       | SysOk _ => (Ret id, assigned (set_gid g) id (assigned (set_uid u) id
                               (called call (announced cmd s))))
       | SysError e => (Exc (OSError (cmd ++ ": " ++ e)), called call (announced cmd s))
       end) /\
  (isdir n = false ->
     let cmd := remove_cmd p in
     let call := os_remove p in
     remove (Jail.writable_fn c) id s
     = match host_sys (trace (announced cmd s)) call with
       | SysOk _ => clear id (called call (announced cmd s))
       | SysError e => (Exc (OSError (cmd ++ ": " ++ e)), called call (announced cmd s))
       end).
Proof.
  intros Ht Hn Hp Ha. repeat split.
  - intros m Hm cmd call. unfold chmod, bind. rewrite (load_run _ _ _ Hn). run.
    cond (neq_eqb _ _ Hm). rewrite Hp. run.
    erewrite write_call_live; [| assumption | eassumption | assumption | reflexivity].
    subst cmd call. unfold chmod_cmd. destruct (host_sys _ _); run; [|reflexivity].
    rewrite (load_run id n (called _ (announced _ s))); [reflexivity|].
    unfold announced. destruct (Jail.verbose c); exact Hn.
  - intros uid gid u g Hne cmd call. unfold chown, bind. rewrite (load_run _ _ _ Hn). run.
    assert (Hc : negb (u =? st_uid n)%Z || negb (g =? st_gid n)%Z = true).
    { destruct Hne as [Hu|Hg]; [rewrite (neq_eqb _ _ Hu) | rewrite (neq_eqb _ _ Hg)];
        cbn [negb]; [reflexivity | apply orb_true_r]. }
    fold u g. rewrite Hc. run. rewrite Hp. run.
    erewrite write_call_live; [| assumption | eassumption | assumption | reflexivity].
    subst cmd call. destruct (host_sys _ _); reflexivity.
  - intros Hd cmd call. unfold remove, bind, assert, ret. rewrite (load_run _ _ _ Hn). run.
    rewrite Hd. cbn [negb]. run. rewrite Hp. run.
    erewrite write_call_live; [| assumption | eassumption | assumption | reflexivity].
    subst cmd call. destruct (host_sys _ _); reflexivity.
Qed.

End Jail.

Section AnyPredicate.
Variable writable : option string -> string -> M bool.

(** The operations when the cached fields hold what is asked for. *)
Lemma unchanged (id : nat) (n : Stat) (s : state) :
  heap s !! id = Some n ->
  (forall m, mode n = S_IMODE m -> chmod writable id m s = (Ret id, s)) /\
  (forall uid gid,
     id_or uid (st_uid n) = st_uid n -> id_or gid (st_gid n) = st_gid n ->
     chown writable id uid gid s = (Ret id, s)) /\
  (forall f, st_flags n = f -> chflags writable id (FlInt f) s = (Ret None, s)) /\
  (forall t, utime_settled t n = true -> utime writable id (UtNum t) s = (Ret None, s)) /\
  (forall fuel target, __nonzero__ n = true -> _link n = Some target ->
     symlink writable fuel id target None s = (Ret id, s)).
Proof.
  intros Hn. repeat split.
  - intros m Hm. unfold chmod, bind. rewrite (load_run _ _ _ Hn). run.
    rewrite Hm, Z.eqb_refl. reflexivity.
  - intros uid gid Hu Hg. unfold chown, bind. rewrite (load_run _ _ _ Hn). run.
    rewrite Hu, Hg, !Z.eqb_refl. reflexivity.
  - intros f Hf. unfold chflags, bind, ret. run. rewrite (load_run _ _ _ Hn). run.
    rewrite Hf, Z.eqb_refl. reflexivity.
  - intros t Hnear. unfold utime, bind, ret. run. rewrite (load_run _ _ _ Hn). run.
    destruct (utime_settled_run _ _ Hnear) as [d [Hd Hl]]. rewrite Hd, Hl. reflexivity.
  - intros fuel target Hnz Hl. unfold symlink, bind, ret. run. rewrite (load_run _ _ _ Hn). run.
    rewrite Hnz, (bool_decide_eq_true_2 _ Hl). reflexivity.
Qed.

(** X6. When the cached fields already hold what is asked for, the operation
    returns in the state it was called in: the predicate is not asked,
    nothing is printed, no call is made.  For [utime] this is when the
    difference of the given and the cached time, as Python computes it, is
    below 0.5 in absolute value.  [chflags] and [utime] then return [None]
    instead of the node. *)
Theorem nothing_to_change (id : nat) (n : Stat) (s : state) :
  heap s !! id = Some n ->
  (forall m, mode n = S_IMODE m -> chmod writable id m s = (Ret id, s)) /\
  (forall uid gid,
     id_or uid (st_uid n) = st_uid n -> id_or gid (st_gid n) = st_gid n ->
     chown writable id uid gid s = (Ret id, s)) /\
  (forall f, st_flags n = f -> chflags writable id (FlInt f) s = (Ret None, s)) /\
  (forall t, utime_settled t n = true -> utime writable id (UtNum t) s = (Ret None, s)) /\
  (forall fuel target, __nonzero__ n = true -> _link n = Some target ->
     symlink writable fuel id target None s = (Ret id, s)).
Proof.
  intros Hn. repeat split.
  - intros m Hm. unfold chmod, bind. rewrite (load_run _ _ _ Hn). run.
    rewrite Hm, Z.eqb_refl. reflexivity.
  - intros uid gid Hu Hg. unfold chown, bind. rewrite (load_run _ _ _ Hn). run.
    rewrite Hu, Hg, !Z.eqb_refl. reflexivity.
  - intros f Hf. unfold chflags, bind, ret. run. rewrite (load_run _ _ _ Hn). run.
    rewrite Hf, Z.eqb_refl. reflexivity.
  - intros t Hnear. unfold utime, bind, ret. run. rewrite (load_run _ _ _ Hn). run.
    destruct (utime_settled_run _ _ Hnear) as [d [Hd Hl]]. rewrite Hd, Hl. reflexivity.
  - intros fuel target Hnz Hl. unfold symlink, bind, ret. run. rewrite (load_run _ _ _ Hn). run.
    rewrite Hnz, (bool_decide_eq_true_2 _ Hl). reflexivity.
Qed.

Lemma load_inv (id : nat) (s s0 : state) (n : Stat) :
  load id s = (Ret n, s0) -> heap s !! id = Some n /\ s0 = s.
Proof.
  unfold load. destruct (heap s !! id) as [n0|]; [|discriminate].
  intros [= <- <-]. split; reflexivity.
Qed.

Lemma path_state (id : nat) (s s1 : state) (r : outcome string) :
  path id s = (r, s1) -> s1 = s.
Proof. rewrite path_reads. intros [= _ <-]. reflexivity. Qed.

(** A predicate that looks at no node. *)
Hypothesis writable_heap : forall p cmd s, heap (snd (writable p cmd s)) = heap s.

Lemma write_call_heap self cmd call s :
  heap (snd (write_call writable self cmd call s)) = heap s.
Proof.
  unfold write_call, bind. rewrite path_reads.
  destruct (match heap s !! self with Some _ => _ | None => _ end) as [p|e|];
    [|reflexivity..].
  pose proof (writable_heap (Some p) cmd s) as Hw.
  destruct (writable (Some p) cmd s) as [[[|]|e|] s1]; cbn in Hw; try exact Hw.
  unfold the_trace, emit. cbn.
  destruct (host_sys (trace s1) call); [exact Hw|]. destruct call; exact Hw.
Qed.

Lemma id_or_idem (given : option Z) (x : Z) : id_or given (id_or given x) = id_or given x.
Proof. unfold id_or. destruct given as [v|]; [|reflexivity]. destruct (v <? 0)%Z eqn:E; [|reflexivity]. rewrite ?E. reflexivity. Qed.

(** A timestamp minus itself is zero: an [int] exactly, a finite float
    without rounding. *)
Lemma time_sub_diag (t : pytime) :
  Py.sub (time_val t) (time_val t) = Some (Py.Int 0) \/
  Py.sub (time_val t) (time_val t) = Some (Py.Float Py.zero).
Proof.
  destruct t as [z|[f Hf]]; cbn [time_val Py.sub Py.float_of].
  - left. rewrite Z.sub_diag. reflexivity.
  - right. do 2 f_equal. destruct f as [s|s| |s m e]; try discriminate Hf.
    + destruct s; reflexivity.
    + cbn [SpecFloat.SFsub]. rewrite Z.sub_diag. reflexivity.
Qed.

Lemma utime_not_due (t : pytime) (n : Stat) : utime_settled t (set_mtime t n) = true.
Proof.
  unfold utime_settled. cbn [st_mtime set_mtime].
  destruct (time_sub_diag t) as [E|E]; rewrite E; reflexivity.
Qed.

(** X7. Calling an operation a second time with the same arguments, right
    after it has returned, changes nothing: the state stays as the first
    call left it. *)
Theorem second_call_changes_nothing :
  (forall id m s r s',
     chmod writable id m s = (Ret r, s') -> chmod writable id m s' = (Ret id, s')) /\
  (forall id uid gid s r s',
     chown writable id uid gid s = (Ret r, s') ->
     chown writable id uid gid s' = (Ret id, s')) /\
  (forall id f s r s',
     chflags writable id (FlInt f) s = (Ret r, s') ->
     chflags writable id (FlInt f) s' = (Ret None, s')) /\
  (forall id t s r s',
     utime writable id (UtNum t) s = (Ret r, s') ->
     utime writable id (UtNum t) s' = (Ret None, s')) /\
  (forall fuel id target s r s',
     symlink writable fuel id target None s = (Ret r, s') ->
     symlink writable fuel id target None s' = (Ret id, s')).
Proof.
  repeat split.
  - intros id m s r s' Hrun. unfold chmod, bind in Hrun.
    destruct (load id s) as [[n|e|] s0] eqn:Hl; [|discriminate..].
    apply load_inv in Hl as [Hn ->]. run in Hrun.
    destruct (Z.eqb_spec (mode n) (S_IMODE m)) as [Heq|Hne]; cbn [negb] in Hrun.
    + injection Hrun as <- <-. now apply (unchanged id n s Hn).
    + destruct (path id s) as [[p|e|] s1] eqn:Hp; [|discriminate..].
      apply path_state in Hp as ->. run in Hrun.
      pose proof (write_call_heap id (chmod_cmd (S_IMODE m) p) (os_chmod p (S_IMODE m)) s) as Hh.
      unfold chmod_cmd in Hh.
      destruct (write_call writable id _ _ s) as [[w|e|] s2]; [|discriminate..].
      cbn [snd] in Hh. run in Hrun.
      rewrite (load_run id n s2) in Hrun by (rewrite Hh; exact Hn). run in Hrun.
      injection Hrun as <- <-.
      apply (unchanged id (set_mode (Z.lor (fmt n) (S_IMODE m)) n)).
      * cbn. rewrite lookup_alter_eq, Hh, Hn. reflexivity.
      * unfold mode. cbn [st_mode set_mode]. apply S_IMODE_fmt_mode.
  - intros id uid gid s r s' Hrun. unfold chown, bind in Hrun.
    destruct (load id s) as [[n|e|] s0] eqn:Hl; [|discriminate..].
    apply load_inv in Hl as [Hn ->]. run in Hrun.
    destruct (negb (id_or uid (st_uid n) =? st_uid n)%Z
              || negb (id_or gid (st_gid n) =? st_gid n)%Z) eqn:Hc.
    + destruct (path id s) as [[p|e|] s1] eqn:Hp; [|discriminate..].
      apply path_state in Hp as ->. run in Hrun.
      match type of Hrun with
      | context [write_call writable id ?cmd ?call s] =>
          pose proof (write_call_heap id cmd call s) as Hh;
          destruct (write_call writable id cmd call s) as [[w|e|] s2]; [|discriminate..]
      end.
      cbn [snd] in Hh. run in Hrun. injection Hrun as <- <-.
      apply (unchanged id
               (set_gid (id_or gid (st_gid n)) (set_uid (id_or uid (st_uid n)) n))).
      * cbn. rewrite !lookup_alter_eq, Hh, Hn. reflexivity.
      * cbn [st_uid set_uid set_gid]. apply id_or_idem.
      * cbn [st_gid set_uid set_gid]. apply id_or_idem.
    + injection Hrun as <- <-. apply orb_false_elim in Hc as [Hu Hg].
      apply negb_false_iff, Z.eqb_eq in Hu, Hg.
      now apply (unchanged id n s Hn).
  - intros id f s r s' Hrun. unfold chflags, bind, ret in Hrun. run in Hrun.
    destruct (load id s) as [[n|e|] s0] eqn:Hl; [|discriminate..].
    apply load_inv in Hl as [Hn ->]. run in Hrun.
    destruct (Z.eqb_spec (st_flags n) f) as [Heq|Hne].
    + injection Hrun as <- <-. now apply (unchanged id n s Hn).
    + assert (Hh : exists s2, heap s2 = heap s /\ s' = assigned (set_flags f) id s2).
      { destruct host_has_chflags.
        - destruct (path id s) as [[p|e|] s1] eqn:Hp; [|discriminate..].
          apply path_state in Hp as ->. run in Hrun.
          match type of Hrun with
          | context [write_call writable id ?cmd ?call s] =>
              pose proof (write_call_heap id cmd call s) as Hh;
              destruct (write_call writable id cmd call s) as [[w|e|] s2]; [|discriminate..]
          end.
          cbn [snd] in Hh. run in Hrun. injection Hrun as <- <-.
          exists s2. split; [exact Hh | reflexivity].
        - run in Hrun. injection Hrun as <- <-. exists s. split; reflexivity. }
      destruct Hh as [s2 [Hh ->]].
      apply (unchanged id (set_flags f n)); [|reflexivity].
      cbn. rewrite lookup_alter_eq, Hh, Hn. reflexivity.
  - intros id t s r s' Hrun. unfold utime, bind, ret in Hrun. run in Hrun.
    destruct (load id s) as [[n|e|] s0] eqn:Hl; [|discriminate..].
    apply load_inv in Hl as [Hn ->]. run in Hrun.
    destruct (Py.sub (time_val t) (time_val (st_mtime n))) as [d|] eqn:Hd; [|discriminate].
    destruct (Py.lt_half (Py.abs d)) eqn:Hl; cycle 1.
    + assert (Hh : exists s2, heap s2 = heap s /\
                     s' = assigned (set_mtime t) id (assigned (set_atime t) id s2)).
      { destruct host_has_utime.
        - destruct (path id s) as [[p|e|] s1] eqn:Hp; [|discriminate..].
          apply path_state in Hp as ->. run in Hrun.
          match type of Hrun with
          | context [write_call writable id ?cmd ?call s] =>
              pose proof (write_call_heap id cmd call s) as Hh;
              destruct (write_call writable id cmd call s) as [[w|e|] s2]; [|discriminate..]
          end.
          cbn [snd] in Hh. run in Hrun. injection Hrun as <- <-.
          exists s2. split; [exact Hh | reflexivity].
        - run in Hrun. injection Hrun as <- <-. exists s. split; reflexivity. }
      destruct Hh as [s2 [Hh ->]].
      apply (unchanged id (set_mtime t (set_atime t n))).
      * cbn. rewrite !lookup_alter_eq, Hh, Hn. reflexivity.
      * apply utime_not_due.
    + injection Hrun as <- <-. apply (unchanged id n s Hn).
      unfold utime_settled. rewrite Hd. exact Hl.
  - intros fuel id target s r s' Hrun. unfold symlink, bind, ret in Hrun. run in Hrun.
    destruct (load id s) as [[n|e|] s0] eqn:Hl; [|discriminate..].
    apply load_inv in Hl as [Hn ->]. run in Hrun.
    destruct (negb (__nonzero__ n) || negb (bool_decide (_link n = Some target))) eqn:Hc.
    + destruct (path id s) as [[p|e|] s1] eqn:Hp; [|discriminate..].
      apply path_state in Hp as ->. run in Hrun.
      match type of Hrun with
      | context [write_call writable id ?cmd ?call s] =>
          pose proof (write_call_heap id cmd call s) as Hh;
          destruct (write_call writable id cmd call s) as [[w|e|] s2]; [|discriminate..]
      end.
      cbn [snd] in Hh. run in Hrun. injection Hrun as <- <-.
      apply (unchanged id
               (set_link (Some target) (set_size (Z.of_nat (String.length target))
                  (set_mode (Z.lor S_IFLNK 511) n)))).
      * cbn. rewrite !lookup_alter_eq, Hh, Hn. reflexivity.
      * unfold __nonzero__, mode. cbn [st_mode st_ino set_link set_size set_mode].
        change (S_IMODE (Z.lor S_IFLNK 511)) with 511%Z. apply orb_true_r.
      * reflexivity.
    + injection Hrun as <- <-. apply orb_false_elim in Hc as [Hz Hl].
      apply negb_false_iff in Hz, Hl. apply bool_decide_eq_true in Hl.
      now apply (unchanged id n s Hn).
Qed.

End AnyPredicate.
End Ops.

(** [/etc/hosts], a regular file outside the default [writepath]. *)
Definition etc_tree : gmap nat Stat :=
  {[ 0%nat := Demo.node None "" {[ "etc" := 1%nat ]} None (Z.lor S_IFDIR 493);
     1%nat := Demo.node (Some 0%nat) "etc" {[ "hosts" := 2%nat ]} None (Z.lor S_IFDIR 493);
     2%nat := Demo.node (Some 1%nat) "hosts" ∅ None (Z.lor S_IFREG 420) ]}.

Definition hosts : Stat := Demo.node (Some 1%nat) "hosts" ∅ None (Z.lor S_IFREG 420).
Definition foo : Stat := Demo.node (Some 1%nat) "foo" ∅ None (Z.lor S_IFREG 420).

Lemma refused_outside_writepath_witness :
  chmod (H := Demo.quiet_host) (Jail.writable_fn Demo.test_mode) 2 384 (Demo.state_of etc_tree)
  = (Exc refusal, Demo.state_of etc_tree).
Proof.
  apply (proj1 (refused_outside_writepath (H := Demo.quiet_host) Demo.test_mode 0 2 hosts
                  "/etc/hosts" (Demo.state_of etc_tree)
                  ltac:(vm_compute; reflexivity) ltac:(vm_compute; reflexivity)
                  ltac:(vm_compute; reflexivity))).
  vm_compute. discriminate.
Defined.


Lemma live_cache_follows_call_witness :
  let s := Demo.state_of RmRf.tmp_tree in
  let call := os_chmod "/tmp/foo" (S_IMODE 384) in
  chmod (H := Demo.quiet_host) (Jail.writable_fn Demo.production) 2 384 s
  = (Ret 2%nat, assigned (set_mode (Z.lor (fmt foo) (S_IMODE 384))) 2 (called call s)).
Proof.
  cbv zeta.
  apply (proj1 (live_cache_follows_call (H := Demo.quiet_host) Demo.production 2 foo
                  "/tmp/foo" (Demo.state_of RmRf.tmp_tree)
                  ltac:(reflexivity) ltac:(vm_compute; reflexivity)
                  ltac:(vm_compute; reflexivity) ltac:(vm_compute; reflexivity))).
  vm_compute. discriminate.
Defined.

(** [/tmp/foo] has the mode 0644 and the modification time 0: a [chmod]
    to 0644 and a [utime] to 0.4 have nothing to do. *)
Lemma nothing_to_change_witness :
  chmod (H := Demo.quiet_host) (Jail.writable_fn Demo.production) 2 420
    (Demo.state_of RmRf.tmp_tree)
  = (Ret 2%nat, Demo.state_of RmRf.tmp_tree) /\
  utime (H := Demo.quiet_host) (Jail.writable_fn Demo.production) 2
    (UtNum (TFloat (Demo.tenths 4))) (Demo.state_of RmRf.tmp_tree)
  = (Ret None, Demo.state_of RmRf.tmp_tree).
Proof.
  pose proof (nothing_to_change (H := Demo.quiet_host) (Jail.writable_fn Demo.production)
                2 foo (Demo.state_of RmRf.tmp_tree) ltac:(vm_compute; reflexivity))
    as [Hchmod [_ [_ [Hutime _]]]].
  split.
  - apply Hchmod. vm_compute. reflexivity.
  - apply Hutime. vm_compute. reflexivity.
Defined.

(** The half second of [utime] is measured on the float difference: the
    floats nearest to 0.6 and 0.1 differ by 0.5 as floats, which is not
    below 0.5, so that [utime] acts; those nearest to 0.5 and 0.1 differ by
    less. *)
Lemma utime_half_second :
  utime_due (TFloat (Demo.tenths 6)) (CmpOrder.file_at (Demo.tenths 1)) = true /\
  utime_settled (TFloat (Demo.tenths 5)) (CmpOrder.file_at (Demo.tenths 1)) = true.
Proof. vm_compute. split; reflexivity. Qed.

Lemma production_keeps_heap p cmd s :
  heap (snd (Jail.writable_fn Demo.production p cmd s)) = heap s.
Proof. apply TreeLinks.writable_same_heap. Qed.

Lemma second_call_changes_nothing_witness :
  let s := Demo.state_of RmRf.tmp_tree in
  let s' := assigned (set_mode (Z.lor (fmt foo) (S_IMODE 384))) 2
              (called (os_chmod "/tmp/foo" (S_IMODE 384)) s) in
  chmod (H := Demo.quiet_host) (Jail.writable_fn Demo.production) 2 384 s' = (Ret 2%nat, s').
Proof.
  cbv zeta.
  apply (proj1 (second_call_changes_nothing (H := Demo.quiet_host)
                  (Jail.writable_fn Demo.production) production_keeps_heap)
           2%nat 384%Z (Demo.state_of RmRf.tmp_tree) 2%nat).
  vm_compute. reflexivity.
Defined.

End WritePolicy.

(** ** Lookups answered from the cache *)

Module Lookup.
Import Sfs.

(** The walk of [get] over nodes that are in the heap already, as long as
    it crosses no symlink: [None] when the walk would have to follow a link,
    ask the host, or step above a node without parent. *)
Fixpoint cached_walk (h : gmap nat Stat) (r node : nat) (segs : list string) : option nat :=
  match segs with
  | [] => Some node
  | name :: rest =>
      match h !! node with
      | None => None
      | Some n =>
          if Py.truthy_opt (_link n) then None
          else if negb (Py.truthy name) || String.eqb name "." then cached_walk h r node rest
          else
            match _children n !! name with
            | Some child => cached_walk h r child rest
            | None =>
                if String.eqb name ".." then
                  if Nat.eqb node r then cached_walk h r node rest
                  else match _parent n with
                       | Some p => cached_walk h r p rest
                       | None => None
                       end
                else None
            end
      end
  end.

(** The node at which [get] starts. *)
Definition start (self r : nat) (p : string) : nat :=
  if Py.startswith p "/" then r else self.

Section Get.
Context `{Host}.

Lemma cached_loop rec (r : nat) (segs : list string) (node d : nat) (links : gset nat)
    (s : state) :
  cached_walk (heap s) r node segs = Some d ->
  for_each (get_body rec r) segs (Some node, links) s = (Ret (Some d, links), s).
Proof.
  revert node. induction segs as [|name rest IH]; intros node Hw; cbn [cached_walk] in Hw.
  - injection Hw as <-. reflexivity.
  - destruct (heap s !! node) as [n|] eqn:Hn; [|discriminate].
    destruct (Py.truthy_opt (_link n)) eqn:Hl; [discriminate|].
    cbn [for_each]. unfold bind at 1. unfold get_body. unfold bind at 1.
    rewrite (SymlinkLoop.no_link_stays rec r node links s n Hn Hl).
    destruct (negb (Py.truthy name) || String.eqb name ".") eqn:Hd.
    { unfold ret at 1. apply IH, Hw. }
    unfold bind at 1. unfold load. rewrite Hn.
    destruct (_children n !! name) as [child|].
    { unfold ret at 1. apply IH, Hw. }
    destruct (String.eqb name ".."); [|discriminate].
    destruct (Nat.eqb node r).
    { unfold ret at 1. apply IH, Hw. }
    destruct (_parent n) as [p|]; [|discriminate].
    unfold ret at 1. apply IH, Hw.
Qed.

(** [get] over a walk that stays in the cache. *)
Lemma cached_get (f self r d : nat) (p : string) (links : option (gset nat)) (s : state) :
  cached_walk (heap s) r (start self r p) (Py.split "/" p) = Some d ->
  get (S f) self p (Some r) links s
  = (Ret (Some d, default ∅ links), SymlinkLoop.entered 1 s).
Proof.
  intros Hw. cbn [get]. unfold bind at 1. unfold ret at 1.
  unfold bind at 1. unfold incr_accesses.
  apply (cached_loop _ r (Py.split "/" p) (start self r p) d (default ∅ links)
           (SymlinkLoop.entered 1 s)).
  exact Hw.
Qed.

(** X8. A path whose components are all in the cache, and on which no
    symlink is crossed, is resolved without any interaction with the host:
    [get] returns the node the cached links lead to, the heap and the trace
    are as before, no [lstat] call is counted, one access is. *)
Theorem cached_lookup (f self r d : nat) (p : string) (links : option (gset nat)) (s : state) :
  cached_walk (heap s) r (start self r p) (Py.split "/" p) = Some d ->
  get (S f) self p (Some r) links s
  = (Ret (Some d, default ∅ links), SymlinkLoop.entered 1 s).
Proof.
  intros Hw. cbn [get]. unfold bind at 1. unfold ret at 1.
  unfold bind at 1. unfold incr_accesses.
  apply (cached_loop _ r (Py.split "/" p) (start self r p) d (default ∅ links)
           (SymlinkLoop.entered 1 s)).
  exact Hw.
Qed.

(** A segment at which the walk stays where it is: the empty one, ["."],
    and [".."] at the root. *)
Definition stays (at_root : bool) (n : Stat) (seg : string) : Prop :=
  seg = "" \/ seg = "." \/ (seg = ".." /\ at_root = true /\ _children n !! ".." = None).

Lemma stays_walk (h : gmap nat Stat) (r node : nat) (n : Stat) (segs : list string) :
  h !! node = Some n -> Py.truthy_opt (_link n) = false ->
  Forall (stays (Nat.eqb node r) n) segs ->
  cached_walk h r node segs = Some node.
Proof.
  intros Hn Hl. induction 1 as [|seg segs Hs _ IH]; [reflexivity|].
  cbn [cached_walk]. rewrite Hn, Hl.
  destruct Hs as [->|[->|[-> [Hr Hc]]]]; [exact IH | exact IH |].
  cbn [Py.truthy negb orb]. change (String.eqb ".." ".") with false. cbv iota.
  rewrite Hc. change (String.eqb ".." "..") with true. cbv iota. rewrite Hr. exact IH.
Qed.

(** X9. From a node that is no symlink, a path made of empty components,
    ["."] and -- at the root -- [".."] resolves to the node the walk starts
    at: [""] and ["."] are the node itself, ["/"] is the root, and [".."]
    does not lead above the root.  The host is not asked.  (A symlink is
    followed instead: [get] on [""] is how [stat] resolves one.) *)
Theorem get_stays_put (f self r : nat) (p : string) (links : option (gset nat))
    (s : state) (n : Stat) :
  heap s !! start self r p = Some n ->
  Py.truthy_opt (_link n) = false ->
  Forall (stays (Nat.eqb (start self r p) r) n) (Py.split "/" p) ->
  get (S f) self p (Some r) links s
  = (Ret (Some (start self r p), default ∅ links), SymlinkLoop.entered 1 s).
Proof.
  intros Hn Hl Hs. apply cached_get. now apply (stays_walk _ _ _ n).
Qed.

Lemma split_no_sep (sep : ascii) (nm : string) :
  Py.contains sep nm = false -> Py.split sep nm = [nm].
Proof.
  induction nm as [|a nm IH]; intros Hc; [reflexivity|].
  cbn [Py.contains] in Hc. apply orb_false_elim in Hc as [Ha Hc].
  cbn [Py.split]. rewrite Ha, (IH Hc). reflexivity.
Qed.

Lemma relative_no_sep (nm : string) :
  Py.contains "/" nm = false -> Py.startswith nm "/" = false.
Proof.
  intros Hc. destruct nm as [|a nm]; [reflexivity|].
  cbn [Py.contains] in Hc. apply orb_false_elim in Hc as [Ha _].
  unfold Py.startswith. cbn [String.prefix].
  destruct (ascii_dec "/" a) as [<-|Hne]; [|reflexivity].
  rewrite Ascii.eqb_refl in Ha. discriminate Ha.
Qed.

(** [get] on a single segment: one access counted, one run of the loop
    body. *)
Lemma get_one (f self r : nat) (name : string) (links : option (gset nat)) (s : state) :
  Py.contains "/" name = false ->
  get (S f) self name (Some r) links s
  = get_body (fun q t r' l => get f q t (Some r') (Some l)) r (Some self, default ∅ links)
      name (SymlinkLoop.entered 1 s).
Proof.
  intros Hc. cbn [get]. unfold bind at 1. unfold ret at 1.
  rewrite (relative_no_sep name Hc), (split_no_sep "/" name Hc).
  unfold bind at 1. unfold incr_accesses. cbn [for_each].
  unfold bind at 1.
  change (mkState (heap s) (trace s) (_count_statcalls s) (S (_count_accesses s)))
    with (SymlinkLoop.entered 1 s).
  destruct (get_body _ r (Some self, default ∅ links) name (SymlinkLoop.entered 1 s))
    as [[a|e|] s1]; reflexivity.
Qed.

(** The state after a [lstat] call on [q] that came with a lookup. *)
Definition looked_up (q : string) (s : state) : state :=
  mkState (heap s) (EvLstat q :: trace s) (S (_count_statcalls s)) (S (_count_accesses s)).

(** [get] on a name that is nowhere. *)
Lemma get_miss (f self r : nat) (name : string) (links : option (gset nat))
    (s : state) (n : Stat) (q : string) :
  SymlinkLoop.segment name ->
  String.eqb name ".." = false ->
  heap s !! self = Some n ->
  Py.truthy_opt (_link n) = false ->
  _children n !! name = None ->
  path self s = (Ret q, s) ->
  host_lstat (trace s) (Py.path_join q name) = LstatENOENT ->
  get (S f) self name (Some r) links s
  = (Ret (None, default ∅ links), looked_up (Py.path_join q name) s).
Proof.
  intros [Ht [Hd Hc]] Hdd Hn Hl Hch Hp Hhost.
  rewrite (get_one f self r name links s Hc). unfold get_body.
  unfold bind at 1.
  rewrite (SymlinkLoop.no_link_stays _ r self (default ∅ links) (SymlinkLoop.entered 1 s) n Hn Hl).
  rewrite Ht, Hd. cbn [negb orb].
  unfold bind at 1. unfold load.
  change (heap (SymlinkLoop.entered 1 s)) with (heap s). rewrite Hn, Hch, Hdd.
  unfold bind at 1.
  rewrite (WritePolicy.path_run self q s (SymlinkLoop.entered 1 s) Hp eq_refl).
  unfold bind at 1. unfold os_lstat, bind, incr_statcalls, the_trace, emit.
  cbn [trace SymlinkLoop.entered]. rewrite Hhost. reflexivity.
Qed.

(** X10. A name that is not in the cache and not on the disk is looked up
    with one [lstat] call, and [get] returns [None]; no node is created for
    it, so that the heap is as before and the next lookup of the name asks
    the host again. *)
Theorem miss_is_not_cached (f self r : nat) (name : string) (links : option (gset nat))
    (s : state) (n : Stat) (q : string) :
  SymlinkLoop.segment name ->
  String.eqb name ".." = false ->
  heap s !! self = Some n ->
  Py.truthy_opt (_link n) = false ->
  _children n !! name = None ->
  path self s = (Ret q, s) ->
  host_lstat (trace s) (Py.path_join q name) = LstatENOENT ->
  get (S f) self name (Some r) links s
  = (Ret (None, default ∅ links), looked_up (Py.path_join q name) s).
Proof.
  intros [Ht [Hd Hc]] Hdd Hn Hl Hch Hp Hhost.
  rewrite (get_one f self r name links s Hc). unfold get_body.
  unfold bind at 1.
  rewrite (SymlinkLoop.no_link_stays _ r self (default ∅ links) (SymlinkLoop.entered 1 s) n Hn Hl).
  rewrite Ht, Hd. cbn [negb orb].
  unfold bind at 1. unfold load.
  change (heap (SymlinkLoop.entered 1 s)) with (heap s). rewrite Hn, Hch, Hdd.
  unfold bind at 1.
  rewrite (WritePolicy.path_run self q s (SymlinkLoop.entered 1 s) Hp eq_refl).
  unfold bind at 1. unfold os_lstat, bind, incr_statcalls, the_trace, emit.
  cbn [trace SymlinkLoop.entered]. rewrite Hhost. reflexivity.
Qed.

(** The constructor enters the new node in its parent. *)
Lemma register_enters (p : nat) (name : string) (uid gid : Z) (t : Py.finite_float) (s s1 : state)
    (c : nat) (pn : Stat) :
  register (Some p) name uid gid t s = (Ret c, s1) ->
  heap s !! p = Some pn ->
  c <> p /\ heap s1 !! p = Some (set_children (<[name := c]> (_children pn)) pn).
Proof.
  intros Hr Hp. unfold register in Hr. unfold bind at 1 in Hr. unfold assert in Hr.
  destruct (Py.truthy name); [|discriminate]. unfold ret at 1 in Hr.
  unfold bind at 1 in Hr. rewrite (WritePolicy.load_run p pn s Hp) in Hr.
  unfold bind at 1 in Hr. unfold assert in Hr.
  destruct (negb (bool_decide (is_Some (_children pn !! name)))); [|discriminate].
  unfold ret at 1 in Hr. unfold bind, alloc, update, bind, the_heap, set_heap, ret in Hr.
  cbn in Hr. injection Hr as <- <-. cbn [heap].
  assert (Hne : fresh (dom (heap s)) <> p).
  { intros He. pose proof (is_fresh (dom (heap s))) as Hf. rewrite He in Hf.
    apply Hf. apply elem_of_dom. eauto. }
  split; [exact Hne|].
  rewrite lookup_alter_eq, lookup_insert_ne, Hp by exact Hne. reflexivity.
Qed.

(** [refresh] assigns to its own node only. *)
Lemma refresh_other (c p : nat) (d : stat_result) (s : state) :
  c <> p -> heap (snd (refresh c (Some d) s)) !! p = heap s !! p.
Proof.
  intros Hne. unfold refresh. unfold bind at 1. unfold ret at 1.
  unfold bind at 1. unfold update at 1. unfold bind at 1, the_heap, set_heap.
  unfold bind at 1. unfold load. cbn [heap].
  destruct (alter (set_st_attr d) c (heap s) !! c) as [n|] eqn:Hn;
    [|cbn; now rewrite lookup_alter_ne].
  destruct (islnk n).
  - unfold bind at 1. rewrite WritePolicy.path_reads. cbn [heap].
    destruct (match alter (set_st_attr d) c (heap s) !! c with Some _ => _ | None => _ end)
      as [q|e|]; [|cbn; now rewrite lookup_alter_ne..].
    unfold bind, the_trace, emit. cbn [trace heap].
    destruct (host_readlink _ q); cbn; [|now rewrite lookup_alter_ne].
    now rewrite !lookup_alter_ne.
  - cbn. now rewrite !lookup_alter_ne.
Qed.

Lemma init_enters (p : nat) (name : string) (d : stat_result) (s s' : state)
    (c : nat) (pn : Stat) :
  __init__ (Some p) name (DataStat d) s = (Ret c, s') ->
  heap s !! p = Some pn ->
  heap s' !! p = Some (set_children (<[name := c]> (_children pn)) pn).
Proof.
  intros Hi Hp. unfold __init__ in Hi. unfold bind at 1 in Hi. unfold assert in Hi.
  destruct (negb (Py.contains "/" name)); [|discriminate]. unfold ret at 1 in Hi.
  unfold bind at 1 in Hi. unfold os_geteuid, bind, the_trace, ret in Hi.
  cbv beta iota in Hi. unfold os_getegid, time_time, bind, the_trace, emit, ret in Hi.
  cbv beta iota in Hi. cbn [trace heap _count_statcalls _count_accesses] in Hi.
  match type of Hi with
  | context [register (Some p) name ?u ?g ?t ?s0] =>
      destruct (register (Some p) name u g t s0) as [[c0|e|] s1] eqn:Hr; [|discriminate..];
      apply (register_enters p name u g t s0 s1 c0 pn) in Hr as [Hne Hp1]; [|exact Hp]
  end.
  pose proof (refresh_other c0 p d s1 Hne) as Ho.
  destruct (refresh c0 (Some d) s1) as [[[]|e|] s2]; [|discriminate..].
  cbn [snd] in Ho. injection Hi as <- <-. rewrite Ho. exact Hp1.
Qed.

(** X11. A lookup is answered from the cache the second time: when [get]
    on a name has returned a node -- whether it found it in the cache or
    created it from the host's answer -- the same call made again returns the
    same node and asks the host nothing: no [lstat] call is counted, the
    trace and the heap stay as they are. *)
Theorem second_lookup_is_cached (f self r c : nat) (name : string)
    (links links' : option (gset nat)) (l : gset nat) (s s' : state) (n : Stat) :
  SymlinkLoop.segment name ->
  heap s !! self = Some n ->
  Py.truthy_opt (_link n) = false ->
  get (S f) self name (Some r) links s = (Ret (Some c, l), s') ->
  get (S f) self name (Some r) links' s'
  = (Ret (Some c, default ∅ links'), SymlinkLoop.entered 1 s').
Proof.
  intros Hseg Hn Hl Hget.
  assert (Hstart : start self r name = self).
  { unfold start. now rewrite (relative_no_sep name (proj2 (proj2 Hseg))). }
  apply cached_get. rewrite Hstart, (split_no_sep "/" name (proj2 (proj2 Hseg))).
  destruct Hseg as [Ht [Hd Hc]].
  rewrite (get_one f self r name links s Hc) in Hget. unfold get_body in Hget.
  unfold bind at 1 in Hget.
  rewrite (SymlinkLoop.no_link_stays _ r self (default ∅ links) (SymlinkLoop.entered 1 s) n Hn Hl)
    in Hget.
  rewrite Ht, Hd in Hget. cbn [negb orb] in Hget.
  unfold bind at 1 in Hget. unfold load in Hget.
  change (heap (SymlinkLoop.entered 1 s)) with (heap s) in Hget. rewrite Hn in Hget.
  cbn [cached_walk]. rewrite Ht, Hd. cbn [negb orb].
  destruct (_children n !! name) as [child|] eqn:Hch.
  { injection Hget as <- <- <-. cbn [heap SymlinkLoop.entered]. rewrite Hn, Hl, Hch.
    reflexivity. }
  destruct (String.eqb name "..") eqn:Hdd.
  { destruct (Nat.eqb self r) eqn:Hr.
    - injection Hget as <- <- <-. cbn [heap SymlinkLoop.entered].
      rewrite Hn, Hl, Hch. reflexivity.
    - injection Hget as Hpar <- <-. cbn [heap SymlinkLoop.entered].
      rewrite Hn, Hl, Hch, Hpar. reflexivity. }
  unfold bind at 1 in Hget. rewrite WritePolicy.path_reads in Hget.
  destruct (match heap (SymlinkLoop.entered 1 s) !! self with Some _ => _ | None => _ end)
    as [q|e|]; [|discriminate..].
  unfold bind at 1 in Hget.
  destruct (os_lstat (Py.path_join q name) (SymlinkLoop.entered 1 s)) as [[[d|]|e|] s1] eqn:Hls;
    [| discriminate..].
  assert (Hh1 : heap s1 = heap s).
  { unfold os_lstat, bind, incr_statcalls, the_trace, emit in Hls. cbv beta iota in Hls.
    cbn [trace heap _count_statcalls _count_accesses SymlinkLoop.entered] in Hls.
    destruct (host_lstat _ _); [|discriminate..]. injection Hls as _ <-. reflexivity. }
  unfold bind at 1 in Hget.
  destruct (__init__ (Some self) name (DataStat d) s1) as [[c0|e|] s2] eqn:Hi; [|discriminate..].
  injection Hget as <- <- <-.
  apply (init_enters self name d s1 s2 c0 n) in Hi; [|rewrite Hh1; exact Hn].
  rewrite Hi. cbn [_link set_children _children]. rewrite Hl, lookup_insert_eq. reflexivity.
Qed.

(** The heap after [clear] on [self]: the children have lost their
    parent, the node itself all its fields. *)
Lemma clear_effect (self : nat) (s s' : state) :
  clear self s = (Ret tt, s') ->
  exists n, heap s !! self = Some n /\
    heap s' = alter (fun _ => cleared) self
                (TreeLinks.detach_all (map_to_list (_children n)).*2 (heap s)) /\
    trace s' = trace s.
Proof.
  unfold clear. unfold bind at 1. unfold load.
  destruct (heap s !! self) as [n|]; [|discriminate].
  unfold bind. rewrite TreeLinks.clear_loop. cbn. intros [= <-].
  exists n. repeat split.
Qed.

(** X12. [clear] -- and with it [remove] and [rmdir], which end in it --
    leaves the node in its former parent's [_children]: the node is still
    found under its old name, with every field zero so that it counts as
    not existing, and the lookup does not ask the host whether the name is
    on the disk. *)
Theorem cleared_node_stays_cached (f p id r : nat) (name : string) (pn : Stat)
    (links : option (gset nat)) (s s' : state) :
  SymlinkLoop.segment name ->
  heap s !! p = Some pn ->
  Py.truthy_opt (_link pn) = false ->
  _children pn !! name = Some id ->
  p <> id ->
  clear id s = (Ret tt, s') ->
  heap s' !! id = Some cleared /\
  __nonzero__ cleared = false /\
  get (S f) p name (Some r) links s'
  = (Ret (Some id, default ∅ links), SymlinkLoop.entered 1 s').
Proof.
  intros Hseg Hp Hl Hch Hne Hclear.
  apply clear_effect in Hclear as [n [Hn [Hh _]]].
  split; [|split; [reflexivity|]].
  - rewrite Hh, lookup_alter_eq, TreeLinks.detach_all_lookup, Hn.
    destruct (bool_decide _); reflexivity.
  - apply cached_get.
    assert (Hstart : start p r name = p).
    { unfold start. now rewrite (relative_no_sep name (proj2 (proj2 Hseg))). }
    rewrite Hstart, (split_no_sep "/" name (proj2 (proj2 Hseg))).
    destruct Hseg as [Ht [Hd Hc]]. cbn [cached_walk].
    rewrite Hh, lookup_alter_ne, TreeLinks.detach_all_lookup, Hp by congruence.
    destruct (bool_decide _); cbn [fmap option_fmap option_map _link _children set_parent];
      rewrite Hl, Ht, Hd, Hch; reflexivity.
Qed.

End Get.

(** The quiet host, on whose disk [path] is a regular file. *)
Definition with_file (path : string) : Host := {|
  host_lstat := fun _ q =>
    if String.eqb q path
    then LstatOk (mkStatResult (Z.lor S_IFREG 420) 7 0 1 1000 1000 12 Demo.epoch Demo.epoch Demo.epoch 8 4096 0 None)
    else LstatENOENT;
  host_readlink := @host_readlink Demo.quiet_host;
  host_listdir := @host_listdir Demo.quiet_host;
  host_exists := fun _ q => String.eqb q path;
  host_sys := @host_sys Demo.quiet_host;
  host_popen := @host_popen Demo.quiet_host;
  host_time := @host_time Demo.quiet_host;
  host_geteuid := @host_geteuid Demo.quiet_host;
  host_getegid := @host_getegid Demo.quiet_host;
  host_pw_name := @host_pw_name Demo.quiet_host;
  host_gr_name := @host_gr_name Demo.quiet_host;
  host_has_utime := @host_has_utime Demo.quiet_host;
  host_has_chflags := @host_has_chflags Demo.quiet_host;
  host_major := @host_major Demo.quiet_host;
  host_minor := @host_minor Demo.quiet_host;
  host_strftime := @host_strftime Demo.quiet_host;
  host_strptime := @host_strptime Demo.quiet_host;
  py_int0 := @py_int0 Demo.quiet_host;
  py_repr := @py_repr Demo.quiet_host;
  py_oct := @py_oct Demo.quiet_host;
  py_format_o := @py_format_o Demo.quiet_host;
  py_str := @py_str Demo.quiet_host
|}.

Definition tmp : Stat :=
  Demo.node (Some 0%nat) "tmp" {[ "foo" := 2%nat; "dir" := 3%nat ]} None (Z.lor S_IFDIR 511).
Definition top : Stat :=
  Demo.node None "" {[ "tmp" := 1%nat ]} None (Z.lor S_IFDIR 493).

Lemma cached_lookup_witness :
  get (H := Demo.quiet_host) 1 2 "/tmp/./foo/../dir" (Some 0%nat) None (Demo.state_of RmRf.tmp_tree)
  = (Ret (Some 3%nat, ∅), SymlinkLoop.entered 1 (Demo.state_of RmRf.tmp_tree)).
Proof.
  apply (cached_lookup (H := Demo.quiet_host) 0 2 0 3 "/tmp/./foo/../dir" None
           (Demo.state_of RmRf.tmp_tree)).
  vm_compute. reflexivity.
Defined.

Lemma get_stays_put_witness :
  get (H := Demo.quiet_host) 1 2 "/../.././" (Some 0%nat) None (Demo.state_of RmRf.tmp_tree)
  = (Ret (Some 0%nat, ∅), SymlinkLoop.entered 1 (Demo.state_of RmRf.tmp_tree)).
Proof.
  apply (get_stays_put (H := Demo.quiet_host) 0 2 0 "/../.././" None
           (Demo.state_of RmRf.tmp_tree) top).
  - vm_compute. reflexivity.
  - reflexivity.
  - repeat constructor; unfold stays; auto;
      right; right; repeat split; vm_compute; reflexivity.
Defined.

Lemma miss_is_not_cached_witness :
  get (H := Demo.quiet_host) 1 1 "nope" (Some 0%nat) None (Demo.state_of RmRf.tmp_tree)
  = (Ret (None, ∅), looked_up "/tmp/nope" (Demo.state_of RmRf.tmp_tree)).
Proof.
  apply (miss_is_not_cached (H := Demo.quiet_host) 0 1 0 "nope" None
           (Demo.state_of RmRf.tmp_tree) tmp "/tmp").
  - repeat split.
  - reflexivity.
  - vm_compute. reflexivity.
  - reflexivity.
  - vm_compute. reflexivity.
  - vm_compute. reflexivity.
  - reflexivity.
Defined.

Lemma second_lookup_is_cached_witness :
  let s' := snd (get (H := with_file "/tmp/new") 1 1 "new" (Some 0%nat) None
                   (Demo.state_of RmRf.tmp_tree)) in
  _count_statcalls s' = 1%nat /\
  get (H := with_file "/tmp/new") 1 1 "new" (Some 0%nat) None s'
  = (Ret (Some 4%nat, ∅), SymlinkLoop.entered 1 s').
Proof.
  cbv zeta. split; [vm_compute; reflexivity|].
  apply (second_lookup_is_cached (H := with_file "/tmp/new") 0 1 0 4 "new" None None ∅
           (Demo.state_of RmRf.tmp_tree) _ tmp).
  - repeat split.
  - vm_compute. reflexivity.
  - reflexivity.
  - vm_compute. reflexivity.
Defined.

Lemma cleared_node_stays_cached_witness :
  let s' := snd (clear 2 (Demo.state_of RmRf.tmp_tree)) in
  heap s' !! 2%nat = Some cleared /\
  __nonzero__ cleared = false /\
  get (H := Demo.quiet_host) 1 1 "foo" (Some 0%nat) None s'
  = (Ret (Some 2%nat, ∅), SymlinkLoop.entered 1 s').
Proof.
  cbv zeta.
  apply (cleared_node_stays_cached (H := Demo.quiet_host) 0 1 2 0 "foo" tmp None
           (Demo.state_of RmRf.tmp_tree)).
  - repeat split.
  - vm_compute. reflexivity.
  - reflexivity.
  - vm_compute. reflexivity.
  - discriminate.
  - vm_compute. reflexivity.
Defined.

End Lookup.

(** ** Symlinks that are followed twice *)

Module LinkCycle.
Import Sfs.

(** What [get] raises at a symlink it has followed before. *)
Definition recursive : exn := ValueError "recursive symlink".

(** [x] is a symlink in the heap: its node, its target and the directory
    it is in. *)
Definition symlink_at (h : gmap nat Stat) (x : nat) (n : Stat) (t : string) (p : nat) : Prop :=
  h !! x = Some n /\ _link n = Some t /\ Py.truthy t = true /\ islnk n = true /\
  _parent n = Some p.

(** The path [t], taken from the node [from], comes to the node [y] with
    a component still to follow: the components before it are in the cache
    and cross no symlink. *)
Definition reaches (h : gmap nat Stat) (r from : nat) (t : string) (y : nat) : Prop :=
  exists pre name post,
    Py.split "/" t = (pre ++ name :: post)%list /\
    Lookup.cached_walk h r (Lookup.start from r t) pre = Some y.

(** The target of the symlink [x] leads to [y], with a component still to
    follow. *)
Definition leads (h : gmap nat Stat) (r x y : nat) : Prop :=
  exists n t p, symlink_at h x n t p /\ reaches h r p t y.

(** Each symlink of the list leads to the one after it, the last one to
    [first]. *)
Fixpoint chain (h : gmap nat Stat) (r first : nat) (l : list nat) : Prop :=
  match l with
  | [] => True
  | x :: rest =>
      leads h r x (match rest with [] => first | y :: _ => y end) /\ chain h r first rest
  end.

(** A cycle of symlinks. *)
Definition cycle (h : gmap nat Stat) (r : nat) (l : list nat) : Prop :=
  match l with
  | [] => False
  | first :: _ => chain h r first l /\ NoDup l
  end.

Section Walk.
Context `{Host}.

(** One step of the walk of [get] with [f] levels of symlinks left. *)
Definition body (f r : nat) : option nat * gset nat -> string -> M (option nat * gset nat) :=
  get_body (fun q t r' l => get f q t (Some r') (Some l)) r.

Lemma get_loop (f self r : nat) (p : string) (links : gset nat) (s : state) :
  get (S f) self p (Some r) (Some links) s
  = for_each (body f r) (Py.split "/" p) (Some (Lookup.start self r p), links)
      (SymlinkLoop.entered 1 s).
Proof. reflexivity. Qed.

(** [get] comes to a symlink it has followed before, with a component
    still to follow: it raises. *)
Lemma revisit (f self r x p0 : nat) (p t0 : string) (n0 : Stat) (links : gset nat)
    (s : state) :
  reaches (heap s) r self p x -> symlink_at (heap s) x n0 t0 p0 -> x ∈ links ->
  get (S f) self p (Some r) (Some links) s = (Exc recursive, SymlinkLoop.entered 1 s).
Proof.
  intros [pre [name [post [Hsplit Hwalk]]]] [Hn [Hl [Ht [Hk Hp]]]] Hin.
  rewrite get_loop, Hsplit. unfold body.
  apply (SymlinkLoop.walk_revisit _ r pre post name _ _ _ x links n0); try assumption.
  - apply Lookup.cached_loop. exact Hwalk.
  - rewrite Hl. exact Ht.
  - rewrite Hp. eauto.
Qed.

(** [get] comes to a symlink it has not followed yet, with a component
    still to follow: the symlink goes into the set and its target is looked
    up from its directory; an error of that lookup is the error of
    [get]. *)
Lemma follow_raises (f self r x p0 : nat) (p t0 : string) (n0 : Stat) (links : gset nat)
    (s s' : state) (e : exn) :
  reaches (heap s) r self p x -> symlink_at (heap s) x n0 t0 p0 -> x ∉ links ->
  get f p0 t0 (Some r) (Some ({[x]} ∪ links)) (SymlinkLoop.entered 1 s) = (Exc e, s') ->
  get (S f) self p (Some r) (Some links) s = (Exc e, s').
Proof.
  intros [pre [name [post [Hsplit Hwalk]]]] [Hn [Hl [Ht [Hk Hp]]]] Hin Hrec.
  rewrite get_loop, Hsplit, SymlinkLoop.for_each_app. unfold bind at 1.
  unfold body at 1.
  rewrite (Lookup.cached_loop _ r pre _ x links (SymlinkLoop.entered 1 s) Hwalk).
  cbn [for_each]. unfold bind at 1. unfold body at 1, get_body. unfold bind at 1.
  rewrite (SymlinkLoop.visit_follows _ r x links (SymlinkLoop.entered 1 s) n0 p0 t0
             Hn Hl Ht Hk Hp Hin).
  rewrite Hrec. reflexivity.
Qed.

(** The walk along what is left of a cycle, with the symlinks behind it in
    [links]: it ends when it is back at the first one. *)
Lemma ring (r first p0 : nat) (n0 : Stat) (t0 : string) (xs : list nat) :
  forall (x : nat) (links : gset nat) (f self : nat) (p : string) (s : state),
  symlink_at (heap s) first n0 t0 p0 ->
  chain (heap s) r first (x :: xs) ->
  NoDup (x :: xs) ->
  (forall y, y ∈ x :: xs -> y ∉ links) ->
  first ∈ links ∪ list_to_set (x :: xs) ->
  reaches (heap s) r self p x ->
  (length xs + 2 <= f)%nat ->
  get f self p (Some r) (Some links) s
  = (Exc recursive, SymlinkLoop.entered (length xs + 2) s).
Proof.
  induction xs as [|y xs IH]; intros x links f self p s Hfirst Hch Hnd Hfresh Hin Hx Hf.
  - destruct Hch as [[n [t [q [Hsym Hreach]]]] _].
    destruct f as [|[|f]]; [cbn in Hf; lia | cbn in Hf; lia |].
    apply (follow_raises _ self r x q p t n links s _ _ Hx Hsym).
    { apply Hfresh. left. }
    rewrite (revisit f q r first p0 t t0 n0 _ (SymlinkLoop.entered 1 s) Hreach Hfirst).
    + rewrite SymlinkLoop.entered_entered. reflexivity.
    + cbn in Hin. rewrite !elem_of_union in Hin. rewrite elem_of_union.
      rewrite elem_of_empty in Hin. tauto.
  - destruct Hch as [[n [t [q [Hsym Hreach]]]] Hch'].
    destruct f as [|f]; [cbn in Hf; lia|].
    apply NoDup_cons in Hnd as [Hnotin Hnd'].
    apply (follow_raises _ self r x q p t n links s _ _ Hx Hsym).
    { apply Hfresh. left. }
    rewrite (IH y ({[x]} ∪ links) f q t (SymlinkLoop.entered 1 s)); try assumption.
    + rewrite SymlinkLoop.entered_entered. cbn [length].
      replace (length xs + 2 + 1)%nat with (S (length xs) + 2)%nat by lia. reflexivity.
    + intros z Hz.
      assert (Hzx : z <> x) by (intros ->; apply Hnotin; exact Hz).
      assert (Hzl : z ∉ links) by (apply Hfresh; right; exact Hz).
      rewrite elem_of_union, elem_of_singleton. tauto.
    + cbn in Hin. cbn. rewrite !elem_of_union in Hin. rewrite !elem_of_union. tauto.
    + cbn [length] in Hf. lia.
Qed.




End Walk.





End LinkCycle.

(** ** Paths, listings and the comparison with the disk *)

Module Paths.
Import Sfs.

Lemma append_assoc (a b c : string) : (a ++ b) ++ c = a ++ (b ++ c).
Proof.
  induction a as [|x a IH]; [reflexivity|].
  rewrite !SymlinkLoop.append_cons, IH. reflexivity.
Qed.

(** What [path_loop] has collected so far stays at the end of its
    result. *)
Lemma path_loop_app (f : nat) (h : gmap nat Stat) (n : Stat) (a b : string) :
  path_loop f h n (Some (a ++ b))
  = match path_loop f h n (Some a) with
    | Ret (Some x) => Ret (Some (x ++ b))
    | other => other
    end.
Proof.
  revert n a. induction f as [|f IH]; intros n a.
  - cbn [path_loop]. destruct (_parent n); reflexivity.
  - cbn [path_loop]. destruct (_parent n) as [p|]; [|reflexivity].
    destruct (h !! p) as [pn|]; [|reflexivity].
    destruct (_name pn) as [pname|]; [|reflexivity].
    rewrite <- IH. f_equal. f_equal. rewrite !append_assoc. reflexivity.
Qed.

(** More fuel does not change what [path_loop] returns. *)
Lemma path_loop_more (f : nat) (h : gmap nat Stat) (n : Stat) (acc r : option string) :
  path_loop f h n acc = Ret r -> path_loop (S f) h n acc = Ret r.
Proof.
  revert n acc. induction f as [|f IH]; intros n acc.
  - cbn [path_loop]. destruct (_parent n); [discriminate | auto].
  - intros Hr. cbn [path_loop] in Hr. change (path_loop (S (S f)) h n acc)
      with (match _parent n with
            | None => Ret acc
            | Some p =>
                match h !! p with
                | None => Exc (SystemError "dangling reference")
                | Some pn =>
                    match _name pn, acc with
                    | Some pname, Some a => path_loop (S f) h pn (Some (pname ++ "/" ++ a))
                    | _, _ => Exc TypeError
                    end
                end
            end).
    destruct (_parent n) as [p|]; [|exact Hr].
    destruct (h !! p) as [pn|]; [|exact Hr].
    destruct (_name pn) as [pname|]; [|exact Hr].
    destruct acc as [a|]; [|exact Hr]. apply IH, Hr.
Qed.

Lemma startswith_slash (y : string) : Py.startswith (String "/" y) "/" = true.
Proof.
  unfold Py.startswith. cbn [String.prefix].
  destruct (ascii_dec "/" "/") as [_|Hne]; [destruct y; reflexivity | congruence].
Qed.

Lemma startswith_other (a : ascii) (y : string) :
  "/"%char <> a -> Py.startswith (String a y) "/" = false.
Proof.
  intros Hne. unfold Py.startswith. cbn [String.prefix].
  destruct (ascii_dec "/" a) as [He|_]; [contradiction | reflexivity].
Qed.

(** X13. The path of a node is absolute and is made from the path of its
    parent: it is the parent's path, a ['/'] and the node's name -- or ['/']
    and the name when the parent's path is ["/"].  Computing a path changes
    nothing. *)
Theorem path_of_child (c p : nat) (cn : Stat) (nm cp : string) (s s' : state) :
  heap s !! c = Some cn ->
  _parent cn = Some p ->
  _name cn = Some nm ->
  path c s = (Ret cp, s') ->
  s' = s /\
  Py.startswith cp "/" = true /\
  exists pp, path p s = (Ret pp, s) /\
    (cp = pp ++ "/" ++ nm \/ (pp = "/" /\ cp = "/" ++ nm)).
Proof.
  intros Hc Hp Hnm Hpath. rewrite WritePolicy.path_reads in Hpath.
  rewrite Hc, Hnm in Hpath.
  destruct (size (heap s)) as [|k] eqn:Hsize; cbn [path_loop] in Hpath; rewrite Hp in Hpath;
    [discriminate|].
  destruct (heap s !! p) as [pn|] eqn:Hpn; [|discriminate].
  destruct (_name pn) as [pname|] eqn:Hpname; [|discriminate].
  rewrite path_loop_app in Hpath.
  destruct (path_loop k (heap s) pn (Some pname)) as [[x|]|e|] eqn:Hloop; [|discriminate..].
  apply path_loop_more in Hloop.
  injection Hpath as <- <-. split; [reflexivity|].
  assert (Hpp : path p s = (Ret (if Py.startswith x "/" then x else "/" ++ x), s)).
  { rewrite WritePolicy.path_reads, Hpn, Hsize, Hpname, Hloop. reflexivity. }
  destruct x as [|a x].
  - rewrite SymlinkLoop.append_nil, SymlinkLoop.append_cons, SymlinkLoop.append_nil in *.
    rewrite startswith_slash. split; [apply startswith_slash|].
    exists "/". split; [exact Hpp|]. right. split; reflexivity.
  - rewrite SymlinkLoop.append_cons. destruct (ascii_dec "/" a) as [<-|Hne].
    + rewrite startswith_slash in Hpp. rewrite startswith_slash.
      split; [apply startswith_slash|].
      eexists. split; [exact Hpp|]. left. reflexivity.
    + rewrite (startswith_other a x Hne) in Hpp. rewrite (startswith_other a _ Hne).
      split; [apply startswith_slash|].
      eexists. split; [exact Hpp|]. left. reflexivity.
Qed.

Lemma path_of_child_witness :
  path 2 (Demo.state_of RmRf.tmp_tree)
  = (Ret "/tmp/foo", Demo.state_of RmRf.tmp_tree) /\
  Demo.state_of RmRf.tmp_tree = Demo.state_of RmRf.tmp_tree /\
  Py.startswith "/tmp/foo" "/" = true /\
  exists pp, path 1 (Demo.state_of RmRf.tmp_tree)
             = (Ret pp, Demo.state_of RmRf.tmp_tree) /\
    ("/tmp/foo" = pp ++ "/" ++ "foo" \/ (pp = "/" /\ "/tmp/foo" = "/" ++ "foo")).
Proof.
  split; [vm_compute; reflexivity|].
  apply (path_of_child 2 1 WritePolicy.foo "foo" "/tmp/foo"
           (Demo.state_of RmRf.tmp_tree) (Demo.state_of RmRf.tmp_tree)).
  - vm_compute. reflexivity.
  - reflexivity.
  - reflexivity.
  - vm_compute. reflexivity.
Defined.

(** *** [listdir] *)

(** Python 2 orders [str] bytewise. *)
Definition str_lt (a b : string) : Prop := String.compare a b = Lt.

Lemma str_lt_trans (a b c : string) : str_lt a b -> str_lt b c -> str_lt a c.
Proof.
  unfold str_lt. change String.compare with OrderedTypeEx.String_as_OT.cmp.
  rewrite !OrderedTypeEx.String_as_OT.cmp_lt. apply OrderedTypeEx.String_as_OT.lt_trans.
Qed.

Lemma str_gt_lt (a b : string) : String.compare a b = Gt -> str_lt b a.
Proof.
  unfold str_lt. intros Hg. rewrite String.compare_antisym, Hg. reflexivity.
Qed.

Lemma insert_sorted_elem (x y : string) (l : list string) :
  y ∈ Py.insert_sorted x l <-> y = x \/ y ∈ l.
Proof.
  induction l as [|z l IH]; cbn [Py.insert_sorted].
  - rewrite list_elem_of_singleton, elem_of_nil. tauto.
  - destruct (String.compare x z) eqn:Hc.
    + apply String.compare_eq_iff in Hc as ->. rewrite elem_of_cons. tauto.
    + rewrite !elem_of_cons. tauto.
    + rewrite !elem_of_cons, IH. tauto.
Qed.

Lemma insert_sorted_sorted (x : string) (l : list string) :
  StronglySorted str_lt l -> StronglySorted str_lt (Py.insert_sorted x l).
Proof.
  induction 1 as [|z l Hs IH Hz]; cbn [Py.insert_sorted].
  - repeat constructor.
  - destruct (String.compare x z) eqn:Hc.
    + now constructor.
    + constructor; [now constructor|]. constructor; [exact Hc|].
      eapply Forall_impl; [exact Hz|]. intros w Hw. now apply (str_lt_trans x z w).
    + constructor; [exact IH|]. apply Forall_forall. intros w Hw.
      apply insert_sorted_elem in Hw as [->|Hw]; [now apply str_gt_lt|].
      rewrite Forall_forall in Hz. now apply Hz.
Qed.

Lemma sorted_set_elem (y : string) (l : list string) : y ∈ Py.sorted_set l <-> y ∈ l.
Proof.
  unfold Py.sorted_set. induction l as [|x l IH]; cbn [foldr]; [reflexivity|].
  rewrite insert_sorted_elem, IH, elem_of_cons. reflexivity.
Qed.

Lemma sorted_set_sorted (l : list string) : StronglySorted str_lt (Py.sorted_set l).
Proof.
  unfold Py.sorted_set. induction l as [|x l IH]; cbn [foldr]; [constructor|].
  now apply insert_sorted_sorted.
Qed.

(** The state after the directory [q] has been listed. *)
Definition listed (q : string) (s : state) : state :=
  mkState (heap s) (EvListdir q :: trace s) (_count_statcalls s) (_count_accesses s).

Section Listing.
Context `{Host}.

(** X14. [listdir] of a node returns the names on the disk together with
    the names of the cached children -- the cached ones alone when the
    directory is not on the disk -- each name once, in ascending order; the
    directory is listed once and nothing else happens. *)
Theorem listdir_merges (fuel self : nat) (n : Stat) (q : string) (disk : list string)
    (s : state) :
  heap s !! self = Some n ->
  path self s = (Ret q, s) ->
  host_listdir (trace s) q = ListdirOk disk \/
    (host_listdir (trace s) q = ListdirENOENT /\ disk = []) ->
  exists names,
    listdir fuel self None s = (Ret names, listed q s) /\
    (forall x, x ∈ names <-> x ∈ disk \/ is_Some (_children n !! x)) /\
    StronglySorted str_lt names.
Proof.
  intros Hn Hp Hd.
  exists (Py.sorted_set (disk ++ (map_to_list (_children n)).*1)). split; [|split].
  - unfold listdir. unfold bind at 1. unfold ret at 1.
    unfold bind at 1. rewrite Hp. unfold bind, the_trace, emit. cbv beta iota.
    cbn [trace heap]. unfold load.
    destruct Hd as [Hd|[Hd ->]]; rewrite Hd; unfold ret; cbv beta iota; cbn [heap];
      rewrite Hn; reflexivity.
  - intros x. rewrite sorted_set_elem, elem_of_app, list_elem_of_fmap.
    split; intros [Hx|Hx]; auto; right.
    + destruct Hx as [[k v] [-> Hkv]]. apply elem_of_map_to_list in Hkv. cbn. eauto.
    + destruct Hx as [v Hv]. exists (x, v). split; [reflexivity|].
      now apply elem_of_map_to_list.
  - apply sorted_set_sorted.
Qed.

End Listing.

Lemma listdir_merges_witness :
  exists names,
    listdir (H := Demo.quiet_host) 1 1 None (Demo.state_of RmRf.tmp_tree)
    = (Ret names, listed "/tmp" (Demo.state_of RmRf.tmp_tree)) /\
    (forall x, x ∈ names <-> x ∈ [] \/ is_Some (_children Lookup.tmp !! x)) /\
    StronglySorted str_lt names.
Proof.
  apply (listdir_merges (H := Demo.quiet_host) 1 1 Lookup.tmp "/tmp" []
           (Demo.state_of RmRf.tmp_tree)).
  - vm_compute. reflexivity.
  - vm_compute. reflexivity.
  - right. split; reflexivity.
Defined.

(** *** The cache against the disk *)

(** The state after the host was asked whether [q] exists. *)
Definition asked (q : string) (s : state) : state :=
  mkState (heap s) (EvExists q :: trace s) (_count_statcalls s) (_count_accesses s).

(** The state after an [lstat] call on [q]. *)
Definition statted (q : string) (s : state) : state :=
  mkState (heap s) (EvLstat q :: trace s) (S (_count_statcalls s)) (_count_accesses s).

Lemma time_same (t : pytime) : time_differs t t = Some false.
Proof.
  destruct t as [z|f]; unfold time_differs.
  - cbn [time_val]. unfold Py.ne. rewrite Z.eqb_refl. reflexivity.
  - destruct (WritePolicy.time_sub_diag (TFloat f)) as [E|E]; rewrite E; reflexivity.
Qed.

(** The comparison of the cached modification time with the one on the
    disk raises [OverflowError]: the times are compared, and the cached one
    is an [int] beyond the range of the floats. *)
Definition overflows (n : Stat) (d : stat_result) : bool :=
  negb (isdir n || islnk n)
  && match time_differs (st_mtime n) (TFloat (r_mtime d)) with
     | None => true
     | Some _ => false
     end.

Section Disk.
Context `{Host}.

(** X15. A file that has vanished from the disk goes unnoticed: [refresh]
    leaves the cached fields as they are when [lstat] finds nothing, and
    [checkcache] answers [True] without comparing anything when the path
    does not exist.  When the path exists with another mode than the cached
    one, [checkcache] raises [ValueError] -- after [refresh] has put the
    disk's values into the cache -- or [OverflowError] when the cached
    modification time cannot be compared with the disk's. *)
Theorem checkcache_against_disk (self : nat) (n : Stat) (q : string) (s : state) :
  heap s !! self = Some n ->
  path self s = (Ret q, s) ->
  (host_lstat (trace s) q = LstatENOENT -> refresh self None s = (Ret tt, statted q s)) /\
  (host_exists (trace s) q = false -> checkcache self s = (Ret true, asked q s)) /\
  (forall d,
     host_exists (trace s) q = true ->
     host_lstat (EvExists q :: trace s) q = LstatOk d ->
     S_IFMT (r_mode d) <> S_IFLNK ->
     r_mode d <> st_mode n ->
     checkcache self s
     = (Exc (if overflows n d then OverflowError else ValueError "mismatch vs disk"),
        WritePolicy.assigned (set_link None) self
          (WritePolicy.assigned (set_st_attr d) self (statted q (asked q s))))).
Proof.
  intros Hn Hp. split; [|split].
  - intros Hl. unfold refresh. unfold bind at 1. unfold bind at 1. rewrite Hp.
    unfold os_lstat, bind, incr_statcalls, the_trace, emit. cbv beta iota.
    cbn [trace heap _count_statcalls _count_accesses]. rewrite Hl. reflexivity.
  - intros He. unfold checkcache. unfold bind at 1. rewrite (WritePolicy.load_run _ _ _ Hn).
    unfold bind at 1. rewrite Hp. unfold bind, the_trace, emit. cbv beta iota.
    cbn [trace heap _count_statcalls _count_accesses]. rewrite He. unfold ret, load.
    cbv beta iota. cbn [heap]. rewrite Hn. cbv beta iota. rewrite time_same.
    destruct (negb (isdir n || islnk n)); cbv beta iota;
      rewrite bool_decide_eq_true_2 by reflexivity; rewrite !Z.eqb_refl; reflexivity.
  - intros d He Hl Hk Hm. unfold checkcache. unfold bind at 1.
    rewrite (WritePolicy.load_run _ _ _ Hn).
    unfold bind at 1. rewrite Hp. unfold bind at 1. unfold the_trace.
    unfold bind at 1. unfold emit. rewrite He.
    fold (asked q s). unfold bind at 1.
    assert (Hr : refresh self None (asked q s)
                 = (Ret tt, WritePolicy.assigned (set_link None) self
                              (WritePolicy.assigned (set_st_attr d) self
                                 (statted q (asked q s))))).
    { unfold refresh. unfold bind at 1. unfold bind at 1.
      rewrite (WritePolicy.path_run self q s (asked q s) Hp eq_refl).
      unfold os_lstat, bind, incr_statcalls, the_trace, emit. cbv beta iota.
      cbn [trace heap _count_statcalls _count_accesses asked]. rewrite Hl.
      unfold ret at 1. cbv beta iota. unfold update at 1. unfold bind, the_heap, set_heap.
      cbv beta iota. unfold load. cbn [heap]. rewrite lookup_alter_eq, Hn. cbn [fmap option_fmap option_map].
      assert (Hnl : islnk (set_st_attr d n) = false).
      { unfold islnk, fmt. cbn [st_mode set_st_attr]. now apply Z.eqb_neq. }
      rewrite Hnl. reflexivity. }
    rewrite Hr. unfold bind at 1. unfold load.
    cbn [heap WritePolicy.assigned statted asked]. rewrite !lookup_alter_eq, Hn.
    cbn [fmap option_fmap option_map st_mode st_mtime set_link set_st_attr].
    unfold overflows, bind, raise, ret.
    destruct (negb (isdir n || islnk n)); cbn [andb].
    + destruct (time_differs (st_mtime n) (TFloat (r_mtime d))); [|reflexivity].
      rewrite (proj2 (Z.eqb_neq (r_mode d) (st_mode n)) Hm). cbn [negb].
      rewrite orb_true_r. reflexivity.
    + rewrite (proj2 (Z.eqb_neq (r_mode d) (st_mode n)) Hm). cbn [negb].
      rewrite orb_true_r. reflexivity.
Qed.

End Disk.

Lemma checkcache_against_disk_witness :
  checkcache (H := Demo.quiet_host) 2 (Demo.state_of RmRf.tmp_tree)
  = (Ret true, asked "/tmp/foo" (Demo.state_of RmRf.tmp_tree)).
Proof.
  apply (proj1 (proj2 (checkcache_against_disk (H := Demo.quiet_host) 2 WritePolicy.foo
                         "/tmp/foo" (Demo.state_of RmRf.tmp_tree)
                         ltac:(vm_compute; reflexivity) ltac:(vm_compute; reflexivity)))).
  reflexivity.
Defined.

(** *** [copy2] *)

Lemma path_loop_alter (f : Stat -> Stat) (d : nat) (h : gmap nat Stat) (fuel : nat)
    (n n' : Stat) (acc : option string) :
  Steps.keeps_links f -> _parent n' = _parent n ->
  path_loop fuel (alter f d h) n' acc = path_loop fuel h n acc.
Proof.
  intros Hk. revert n n' acc. induction fuel as [|fuel IH]; intros n n' acc Hpar;
    cbn [path_loop]; rewrite Hpar; [reflexivity|].
  destruct (_parent n) as [p|]; [|reflexivity].
  destruct (decide (d = p)) as [->|Hne].
  - rewrite lookup_alter_eq. destruct (h !! p) as [pn|]; [|reflexivity].
    cbn [fmap option_fmap option_map]. destruct (Hk pn) as [Hp [Hn _]]. rewrite Hn.
    destruct (_name pn); [|reflexivity]. destruct acc; [|reflexivity]. now apply IH.
  - rewrite lookup_alter_ne by exact Hne. destruct (h !! p) as [pn|]; [|reflexivity].
    destruct (_name pn); [|reflexivity]. destruct acc; [|reflexivity]. now apply IH.
Qed.

(** Assigning fields other than the tree links changes no path. *)
Lemma path_assigned (f : Stat -> Stat) (d id : nat) (p : string) (s : state) :
  Steps.keeps_links f ->
  path id s = (Ret p, s) ->
  path id (WritePolicy.assigned f d s) = (Ret p, WritePolicy.assigned f d s).
Proof.
  intros Hk Hp. rewrite WritePolicy.path_reads in *. cbn [heap WritePolicy.assigned].
  assert (Hsize : size (alter f d (heap s)) = size (heap s)).
  { rewrite <- !(size_dom (D := gset nat)), dom_alter_L. reflexivity. }
  rewrite Hsize.
  destruct (decide (d = id)) as [->|Hne].
  - rewrite lookup_alter_eq. destruct (heap s !! id) as [n|]; [|discriminate].
    cbn [fmap option_fmap option_map]. destruct (Hk n) as [Hpar [Hn _]].
    rewrite Hn, (path_loop_alter f id (heap s) _ n (f n) _ Hk Hpar).
    injection Hp as Hp. rewrite Hp. reflexivity.
  - rewrite lookup_alter_ne by exact Hne. destruct (heap s !! id) as [n|]; [|discriminate].
    rewrite (path_loop_alter f d (heap s) _ n n _ Hk eq_refl).
    injection Hp as Hp. rewrite Hp. reflexivity.
Qed.

(** The assignments [copy2] makes to the destination before it asks
    whether the copy may be made. *)
Definition copied (src : Stat) (dst : nat) (s : state) : state :=
  WritePolicy.assigned (set_mtime (st_mtime src)) dst
    (WritePolicy.assigned (set_atime (st_atime src)) dst
       (WritePolicy.assigned (set_mode (st_mode src)) dst
          (WritePolicy.assigned (set_flags (st_flags src)) dst
             (WritePolicy.assigned (set_gid (st_gid src)) dst
                (WritePolicy.assigned (set_uid (st_uid src)) dst
                   (WritePolicy.assigned (set_size (st_size src)) dst s)))))).

Lemma path_copied (src : Stat) (dst id : nat) (p : string) (s : state) :
  path id s = (Ret p, s) -> path id (copied src dst s) = (Ret p, copied src dst s).
Proof.
  intros Hp. unfold copied.
  repeat (apply path_assigned; [intros n; repeat split|]). exact Hp.
Qed.

Section Copy.
Context `{Host}.
Variable c : Jail.JailConfig.

(** X16. [copy2] of a node onto itself does nothing.  A source that is
    not a regular file, or an existing destination that is not one, ends in
    [UnboundLocalError] (the message of the intended error reads [cmd]
    before it is assigned), with nothing changed.  Otherwise the cached
    size, owner, flags, mode and times of the destination are overwritten
    with the source's before [writable] is asked: when the destination is
    outside [writepath] the call raises [ValueError] with the cache already
    overwritten, and in test mode on an allowed destination it prints the
    [cp -p] command, makes no call and returns the destination. *)
Theorem copy2_outcomes (self dst : nat) (src dn : Stat) (s : state) :
  self <> dst ->
  heap s !! self = Some src ->
  heap s !! dst = Some dn ->
  copy2 (Jail.writable_fn c) self self s = (Ret None, s) /\
  (isreg src = false ->
   copy2 (Jail.writable_fn c) self dst s = (Exc UnboundLocalError, s)) /\
  (isreg src = true -> __nonzero__ dn = true -> isreg dn = false ->
   copy2 (Jail.writable_fn c) self dst s = (Exc UnboundLocalError, s)) /\
  (forall sp dp,
     isreg src = true -> __nonzero__ dn = false \/ isreg dn = true ->
     path self s = (Ret sp, s) -> path dst s = (Ret dp, s) ->
     (Jail.writepath_rx c dp = false ->
      copy2 (Jail.writable_fn c) self dst s
      = (Exc WritePolicy.refusal, copied src dst s)) /\
     (Jail.test c = true -> Jail.writepath_rx c dp = true ->
      copy2 (Jail.writable_fn c) self dst s
      = (Ret (Some dst),
         WritePolicy.printed ("cp -p " ++ sp ++ " " ++ dp) (copied src dst s)))).
Proof.
  intros Hne Hs Hd.
  assert (Hneq : Nat.eqb self dst = false) by now apply Nat.eqb_neq.
  split; [|split; [|split]].
  - unfold copy2. rewrite Nat.eqb_refl. reflexivity.
  - intros Hreg. unfold copy2. rewrite Hneq. unfold bind.
    rewrite (WritePolicy.load_run _ _ _ Hs), Hreg. reflexivity.
  - intros Hreg Hnz Hdreg. unfold copy2. rewrite Hneq. unfold bind.
    rewrite (WritePolicy.load_run _ _ _ Hs), Hreg. cbn [negb].
    rewrite (WritePolicy.load_run _ _ _ Hd), Hnz, Hdreg. reflexivity.
  - intros sp dp Hreg Hdst Hsp Hdp.
    assert (Hok : __nonzero__ dn && negb (isreg dn) = false).
    { destruct Hdst as [Hz|Hr]; [rewrite Hz | rewrite Hr, andb_false_r]; reflexivity. }
    assert (Hhead : forall r,
              write_call (Jail.writable_fn c) dst ("cp -p " ++ sp ++ " " ++ dp)
                (copydata sp dp) (copied src dst s) = r ->
              copy2 (Jail.writable_fn c) self dst s
              = bind (fun _ => r)
                  (fun written =>
                     bind match written with
                          | Some v =>
                              if (v =? 0)%Z then ret tt
                              else
                                bind (path dst) (fun dp =>
                                bind (os_call (os_lchown dp (st_uid src) (st_gid src))) (fun _ =>
                                bind (os_call (os_chmod dp (st_mode src))) (fun _ =>
                                bind (if host_has_chflags
                                      then os_call (os_chflags dp (st_flags src))
                                      else ret tt) (fun _ =>
                                bind (os_call (os_utime dp (st_atime src) (st_mtime src))) (fun _ =>
                                bind (checkcache dst) (fun _ => ret tt))))))
                          | None => ret tt
                          end (fun _ => ret (Some dst))) s).
    { intros r <-. unfold copy2. rewrite Hneq. unfold bind at 1.
      rewrite (WritePolicy.load_run _ _ _ Hs), Hreg. cbn [negb].
      unfold bind at 1. rewrite (WritePolicy.load_run _ _ _ Hd), Hok.
      unfold bind at 1. rewrite Hsp. unfold bind at 1. rewrite Hdp.
      reflexivity. }
    split.
    + intros Ha.
      rewrite (Hhead _ (WritePolicy.write_call_refused c dst ("cp -p " ++ sp ++ " " ++ dp)
                          (copydata sp dp) _ dp
                          (path_copied src dst dst dp s Hdp) Ha eq_refl)).
      reflexivity.
    + intros Ht Ha.
      rewrite (Hhead _ (WritePolicy.write_call_test c dst ("cp -p " ++ sp ++ " " ++ dp)
                          (copydata sp dp) _ dp Ht
                          (path_copied src dst dst dp s Hdp) Ha eq_refl)).
      reflexivity.
Qed.

End Copy.

Lemma copy2_outcomes_witness :
  copy2 (H := Demo.quiet_host) (Jail.writable_fn Demo.test_mode) 3 2
    (Demo.state_of RmRf.tmp_tree)
  = (Exc UnboundLocalError, Demo.state_of RmRf.tmp_tree).
Proof.
  apply (proj1 (proj2 (copy2_outcomes (H := Demo.quiet_host) Demo.test_mode 3 2
                         (Demo.node (Some 1%nat) "dir" ∅ None (Z.lor S_IFDIR 493))
                         WritePolicy.foo (Demo.state_of RmRf.tmp_tree)
                         ltac:(discriminate) ltac:(vm_compute; reflexivity)
                         ltac:(vm_compute; reflexivity)))).
  reflexivity.
Defined.

End Paths.

(** ** What the options of a bind mount never are *)

Module BindSafety.
Import Jail.

(** The option a token takes out of the set before it is added. *)
Definition displaced (opt : string) : string :=
  if String.eqb opt "rw" then "ro"
  else if String.eqb opt "ro" then "rw"
  else if Py.startswith opt "no" then Py.drop 2 opt
  else "no" ++ opt.

(** A token the loop of [bindopts] passes over. *)
Definition skipped (opt : string) : bool :=
  negb (Py.truthy opt) || String.eqb opt "suid".

Lemma token_elem (opts : gset string) (opt x : string) :
  x ∈ bindopts_token opts opt <->
  if skipped opt then x ∈ opts else (x ∈ opts /\ x <> displaced opt) \/ x = opt.
Proof.
  unfold bindopts_token, skipped, displaced.
  destruct (negb (Py.truthy opt) || String.eqb opt "suid"); [reflexivity|].
  destruct (String.eqb opt "rw"); [set_solver|].
  destruct (String.eqb opt "ro"); [set_solver|].
  destruct (Py.startswith opt "no"); set_solver.
Qed.

(** The sets of options in which [ro] excludes [rw] and [exec] excludes
    [noexec]. *)
Definition exclusive (opts : gset string) : Prop :=
  ~ ("ro" ∈ opts /\ "rw" ∈ opts) /\ ~ ("exec" ∈ opts /\ "noexec" ∈ opts).

Lemma eqb_false_neq (a b : string) : String.eqb a b = false -> a <> b.
Proof. apply String.eqb_neq. Qed.

Lemma token_cases (opt : string) :
  skipped opt = true \/
  (skipped opt = false /\
   ((opt = "rw" /\ displaced opt = "ro") \/
    (opt = "ro" /\ displaced opt = "rw") \/
    (opt = "exec" /\ displaced opt = "noexec") \/
    (opt = "noexec" /\ displaced opt = "exec") \/
    (opt <> "rw" /\ opt <> "ro" /\ opt <> "exec" /\ opt <> "noexec" /\ opt <> "suid"))).
Proof.
  destruct (skipped opt) eqn:Hs; [left; reflexivity | right; split; [reflexivity|]].
  unfold skipped in Hs. apply orb_false_elim in Hs as [_ Hsuid].
  apply eqb_false_neq in Hsuid.
  destruct (String.eqb_spec opt "rw") as [->|Hrw]; [left; split; reflexivity|].
  destruct (String.eqb_spec opt "ro") as [->|Hro]; [right; left; split; reflexivity|].
  destruct (String.eqb_spec opt "exec") as [->|Hex];
    [right; right; left; split; reflexivity|].
  destruct (String.eqb_spec opt "noexec") as [->|Hnx];
    [right; right; right; left; split; reflexivity|].
  right; right; right; right. repeat split; assumption.
Qed.

Lemma token_exclusive (opts : gset string) (opt : string) :
  exclusive opts -> exclusive (bindopts_token opts opt).
Proof.
  intros [Hr He]. unfold exclusive. rewrite !token_elem.
  destruct (token_cases opt) as [Hs|[Hs Hc]]; rewrite Hs; [split; assumption|].
  destruct Hc as [[-> ->]|[[-> ->]|[[-> ->]|[[-> ->]|(Hrw & Hro & Hex & Hnx & _)]]]];
    split; intros [[[? ?]|?] [[? ?]|?]]; try congruence; tauto.
Qed.

Lemma token_no_suid (opts : gset string) (opt : string) :
  "suid" ∉ opts -> "suid" ∉ bindopts_token opts opt.
Proof.
  intros Hn. rewrite token_elem.
  destruct (skipped opt) eqn:Hs; [exact Hn|].
  unfold skipped in Hs. apply orb_false_elim in Hs as [_ Hsuid].
  apply eqb_false_neq in Hsuid. intros [[? _]|?]; [contradiction | congruence].
Qed.

Lemma tokens_exclusive (tokens : list string) (opts : gset string) :
  exclusive opts -> exclusive (foldl bindopts_token opts tokens).
Proof.
  revert opts. induction tokens as [|t tokens IH]; intros opts Ho; [exact Ho|].
  cbn [foldl]. apply IH. now apply token_exclusive.
Qed.

Lemma tokens_no_suid (tokens : list string) (opts : gset string) :
  "suid" ∉ opts -> "suid" ∉ foldl bindopts_token opts tokens.
Proof.
  revert opts. induction tokens as [|t tokens IH]; intros opts Ho; [exact Ho|].
  cbn [foldl]. apply IH. now apply token_no_suid.
Qed.

Lemma exclusive_src :
  exclusive ({["noexec"; "ro"; "nosuid"; "remount"; "bind"; "noatime"]} : gset string).
Proof. split; set_unfold; intuition discriminate. Qed.

Lemma no_suid_src :
  "suid" ∉ ({["noexec"; "ro"; "nosuid"; "remount"; "bind"; "noatime"]} : gset string).
Proof. set_unfold. intuition discriminate. Qed.

Lemma exclusive_none :
  exclusive ({["exec"; "rw"; "suid"; "remount"; "noatime"]} : gset string).
Proof. split; set_unfold; intuition discriminate. Qed.

(** X17. Whatever the source path and the option text, the options
    [bindopts] returns never hold both [ro] and [rw], nor both [exec] and
    [noexec]; and for a source path that is not empty they never hold
    [suid]. *)
Theorem bindopts_never (JAILHOME : string) (c : JailConfig)
    (srcpath bindopts_ : option string) :
  let opts := bindopts JAILHOME c srcpath bindopts_ in
  ~ ("ro" ∈ opts /\ "rw" ∈ opts) /\
  ~ ("exec" ∈ opts /\ "noexec" ∈ opts) /\
  (if Py.truthy_opt srcpath then "suid" ∉ opts else True).
Proof.
  cbv zeta. unfold bindopts.
  destruct (Py.truthy_opt srcpath).
  - match goal with
    | |- context [foldl bindopts_token ?o ?t] =>
        pose proof (tokens_exclusive t o) as He; pose proof (tokens_no_suid t o) as Hs
    end.
    destruct He as [H1 H2]; [exact exclusive_src|].
    split; [exact H1|]. split; [exact H2|]. apply Hs. exact no_suid_src.
  - match goal with
    | |- context [foldl bindopts_token ?o ?t] => pose proof (tokens_exclusive t o) as He
    end.
    destruct He as [H1 H2]; [exact exclusive_none|].
    split; [exact H1|]. split; [exact H2 | exact I].
Qed.

End BindSafety.

(** ** Nested mount points *)

Module Nesting.
Import Jail.

(** [a] comes before [b] in the list. *)
Definition before (a b : string) (l : list string) : Prop :=
  exists l1 l2 l3, l = (l1 ++ a :: l2 ++ b :: l3)%list.

Lemma insert_by_desc_perm (key : string -> nat) (x : string) (l : list string) :
  Permutation (insert_by_desc key x l) (x :: l).
Proof.
  induction l as [|y l IH]; cbn [insert_by_desc]; [reflexivity|].
  destruct (key y <=? key x)%nat; [reflexivity|].
  rewrite IH. apply perm_swap.
Qed.

Lemma sort_by_desc_perm (key : string -> nat) (l : list string) :
  Permutation (sort_by_desc key l) l.
Proof.
  induction l as [|x l IH]; [reflexivity|].
  unfold sort_by_desc in *. cbn [foldr]. rewrite insert_by_desc_perm. now constructor.
Qed.

Lemma insert_by_desc_sorted (key : string -> nat) (x : string) (l : list string) :
  StronglySorted (fun a b => (key b <= key a)%nat) l ->
  StronglySorted (fun a b => (key b <= key a)%nat) (insert_by_desc key x l).
Proof.
  induction 1 as [|y l Hs IH Hy]; cbn [insert_by_desc].
  - repeat constructor.
  - destruct (Nat.leb_spec (key y) (key x)) as [Hle|Hgt].
    + constructor; [constructor; assumption|].
      constructor; [exact Hle|].
      eapply Forall_impl; [exact Hy|]. cbn. intros z Hz. lia.
    + constructor; [exact IH|].
      eapply Permutation_Forall; [symmetry; apply insert_by_desc_perm|].
      constructor; [lia | exact Hy].
Qed.

Lemma sort_by_desc_sorted (key : string -> nat) (l : list string) :
  StronglySorted (fun a b => (key b <= key a)%nat) (sort_by_desc key l).
Proof.
  induction l as [|x l IH]; [constructor|].
  unfold sort_by_desc in *. cbn [foldr]. now apply insert_by_desc_sorted.
Qed.

(** In a list sorted by a relation, of two members the one that is not
    related to the other comes after it. *)
Lemma sorted_before (R : string -> string -> Prop) (l : list string) (a b : string) :
  StronglySorted R l -> a ∈ l -> b ∈ l -> ~ R b a -> a <> b -> before a b l.
Proof.
  intros Hs. induction Hs as [|x l Hs IH Hx]; intros Ha Hb Hn Hab.
  - apply elem_of_nil in Ha. contradiction.
  - apply elem_of_cons in Ha as [->|Ha].
    + apply elem_of_cons in Hb as [->|Hb]; [congruence|].
      apply list_elem_of_split in Hb as [l2 [l3 ->]]. exists [], l2, l3. reflexivity.
    + apply elem_of_cons in Hb as [->|Hb].
      * exfalso. apply Hn. rewrite Forall_forall in Hx. now apply Hx.
      * destruct (IH Ha Hb Hn Hab) as [l1 [l2 [l3 ->]]].
        exists (x :: l1), l2, l3. reflexivity.
Qed.

Lemma count_app (ch : ascii) (a b : string) :
  Py.count ch (a ++ b) = (Py.count ch a + Py.count ch b)%nat.
Proof.
  induction a as [|x a IH]; [reflexivity|].
  rewrite SymlinkLoop.append_cons. cbn [Py.count]. rewrite IH. lia.
Qed.

Lemma prefix_app (p s : string) : String.prefix p s = true -> exists r, s = p ++ r.
Proof.
  revert s. induction p as [|x p IH]; intros s Hp.
  - exists s. reflexivity.
  - destruct s as [|y s]; [discriminate|]. cbn [String.prefix] in Hp.
    destruct (ascii_dec x y) as [->|]; [|discriminate].
    destruct (IH s Hp) as [r ->]. exists r. reflexivity.
Qed.

(** A path below the directory [a] has more slashes than [a]. *)
Lemma deeper (a b : string) :
  Py.startswith b (a ++ "/") = true -> (Py.count "/" a < Py.count "/" b)%nat.
Proof.
  intros Hp. apply prefix_app in Hp as [r ->].
  rewrite !count_app. cbn [Py.count]. rewrite Ascii.eqb_refl. lia.
Qed.

(** X18. Of two mount points of which one lies below the other, [mount]
    takes the outer one first and [umount] the inner one first: in the
    list [mount] works through, a destination comes before every
    destination below it, and in the list of [umount] it comes after. *)
Theorem nested_mount_points (iterkeys : gmap string (string * gset string) -> list string)
    (m : gmap string (string * gset string)) (a b : string) :
  a ∈ iterkeys m -> b ∈ iterkeys m ->
  Py.startswith b (a ++ "/") = true ->
  before a b (pathlist iterkeys m) /\ before b a (umount_dirs iterkeys m).
Proof.
  intros Ha Hb Hp. pose proof (deeper a b Hp) as Hd.
  assert (Hab : a <> b) by (intros ->; lia).
  split.
  - apply (sorted_before (fun x y => (Py.count "/" x <= Py.count "/" y)%nat)).
    + apply MountOrder.sort_by_sorted.
    + unfold pathlist. now rewrite !MountOrder.sort_by_perm.
    + unfold pathlist. now rewrite !MountOrder.sort_by_perm.
    + lia.
    + exact Hab.
  - apply (sorted_before (fun x y => (Py.count "/" y <= Py.count "/" x)%nat)).
    + apply sort_by_desc_sorted.
    + unfold umount_dirs. now rewrite !sort_by_desc_perm.
    + unfold umount_dirs. now rewrite !sort_by_desc_perm.
    + lia.
    + congruence.
Qed.

(** The keys in ascending order, as one iteration order a [dict] may
    have. *)
Definition some_order (m : gmap string (string * gset string)) : list string :=
  (map_to_list m).*1.

Definition two_binds : gmap string (string * gset string) :=
  {[ "/mnt/jailbase/bob/home" := ("/home", ∅); "/mnt/jailbase/bob" := ("/var/jailbase/bob", ∅) ]}.

Lemma nested_mount_points_witness :
  before "/mnt/jailbase/bob" "/mnt/jailbase/bob/home" (pathlist some_order two_binds) /\
  before "/mnt/jailbase/bob/home" "/mnt/jailbase/bob" (umount_dirs some_order two_binds).
Proof.
  apply (nested_mount_points some_order two_binds).
  - vm_compute. apply list_elem_of_In. cbn. tauto.
  - vm_compute. apply list_elem_of_In. cbn. tauto.
  - vm_compute. reflexivity.
Defined.

End Nesting.

(** ** Command-line arguments *)

Module CliArgs.
Import Jail.

(** One short option: a dash and one character. *)
Definition short (ch : ascii) : string := String "-" (String ch EmptyString).

Lemma short_is_kept (ch : ascii) : _cli_mapper_arg (short ch) = [short ch].
Proof. reflexivity. Qed.

Lemma shorts_kept (l : list ascii) :
  flat_map _cli_mapper_arg (map short l) = map short l.
Proof.
  induction l as [|ch l IH]; [reflexivity|].
  cbn [map flat_map]. rewrite IH, short_is_kept. reflexivity.
Qed.

Lemma mapper_arg_form (arg : string) :
  (exists l, _cli_mapper_arg arg = map short l) \/ _cli_mapper_arg arg = [arg].
Proof.
  unfold _cli_mapper_arg. destruct (_ && _ && _); [left; eexists; reflexivity | now right].
Qed.

Lemma mapper_arg_again (arg : string) :
  flat_map _cli_mapper_arg (_cli_mapper_arg arg) = _cli_mapper_arg arg.
Proof.
  destruct (mapper_arg_form arg) as [[l Hl]|Hl]; rewrite Hl.
  - apply shorts_kept.
  - cbn [flat_map]. rewrite app_nil_r. exact Hl.
Qed.

(** X19. [_cli_mapper] takes bundles of short options apart and is
    idempotent: what it returns holds no bundle any more, so that mapping
    the result again returns it unchanged.  Every argument it returns is an
    argument it was given or a dash followed by one character. *)
Theorem cli_mapper_idempotent (args : list string) :
  _cli_mapper (_cli_mapper args) = _cli_mapper args /\
  Forall (fun x => x ∈ args \/ exists ch, x = short ch) (_cli_mapper args).
Proof.
  split.
  - unfold _cli_mapper. induction args as [|arg args IH]; [reflexivity|].
    cbn [flat_map]. rewrite flat_map_app, IH, mapper_arg_again. reflexivity.
  - unfold _cli_mapper. induction args as [|arg args IH]; [constructor|].
    cbn [flat_map]. apply Forall_app. split.
    + destruct (mapper_arg_form arg) as [[l Hl]|Hl]; rewrite Hl.
      * apply Forall_forall. intros x Hx. apply list_elem_of_In, in_map_iff in Hx.
        destruct Hx as [ch [<- _]]. right. exists ch. reflexivity.
      * repeat constructor.
    + eapply Forall_impl; [exact IH|]. intros x [Hx|Hx]; [left; now right | now right].
Qed.

(** A name of [namespec]'s result that is a string: not empty, and
    matched by [validname_rx]. *)
Definition valid_name (validname_rx : string -> bool) (x : name_arg) : Prop :=
  match x with
  | NameStr s => Py.truthy s = true /\ validname_rx s = true
  | _ => True
  end.

Lemma checked_name_valid (rx : string -> bool) (what : string) (x y : name_arg) :
  checked_name rx what x = Ret y -> valid_name rx y.
Proof.
  unfold checked_name, or_none. destruct x as [|s|z]; [intros [= <-]; exact I | |intros [= <-]; exact I].
  destruct (Py.truthy s) eqn:Ht; [|intros [= <-]; exact I].
  destruct (rx s) eqn:Hv; [|discriminate]. intros [= <-]. split; assumption.
Qed.

(** The user part and the group part of the arguments: a user text is
    taken apart at its first colon when no group is given. *)
Definition name_parts (user group : name_arg) : name_arg * name_arg :=
  match user, group with
  | NameStr u, NameNone =>
      (NameStr (fst (Py.partition ":" u)), NameStr (snd (Py.partition ":" u)))
  | _, _ => (user, group)
  end.

(** A text that is not empty and that [validname_rx] does not match. *)
Definition invalid (validname_rx : string -> bool) (x : name_arg) : bool :=
  match x with
  | NameStr s => Py.truthy s && negb (validname_rx s)
  | _ => false
  end.

(** What is returned for a part: [None] for an empty text. *)
Definition returned (x : name_arg) : name_arg :=
  match x with
  | NameStr s => or_none s
  | other => other
  end.

Lemma checked_name_run (rx : string -> bool) (what : string) (x : name_arg) :
  checked_name rx what x
  = if invalid rx x then Exc (JailError ("invalid " ++ what ++ " name"))
    else Ret (returned x).
Proof.
  destruct x as [|s|z]; try reflexivity. unfold checked_name, invalid, returned, or_none.
  destruct (Py.truthy s); [|reflexivity]. destruct (rx s); reflexivity.
Qed.

Lemma namespec_parts (rx : string -> bool) (user group : name_arg) :
  namespec rx user group
  = match checked_name rx "user" (fst (name_parts user group)) with
    | Ret u =>
        match checked_name rx "group" (snd (name_parts user group)) with
        | Ret g => Ret (u, g)
        | Exc e => Exc e
        | Fuel => Fuel
        end
    | Exc e => Exc e
    | Fuel => Fuel
    end.
Proof.
  unfold namespec, name_parts.
  destruct user as [|us|uz]; destruct group as [|gs|gz]; try reflexivity.
  destruct (Py.partition ":" us) as [a b]. reflexivity.
Qed.

(** X20. Every name [namespec] returns as a string is not empty and is
    matched by [validname_rx]; a number is passed through, an empty text
    becomes [None], and a user given as [user:group] with no group argument
    is taken apart at its first colon.  [namespec] raises [JailError] when
    the user part is a text that is not empty and not matched, and when the
    user part passes and the group part is such a text; it returns both
    parts in every other case. *)
Theorem namespec_validates (validname_rx : string -> bool) (user group : name_arg) :
  (forall u g, namespec validname_rx user group = Ret (u, g) ->
     valid_name validname_rx u /\ valid_name validname_rx g /\
     (forall z, user = NameInt z -> u = NameInt z) /\
     (forall z, group = NameInt z -> g = NameInt z)) /\
  (invalid validname_rx (fst (name_parts user group)) = true ->
   namespec validname_rx user group = Exc (JailError "invalid user name")) /\
  (invalid validname_rx (fst (name_parts user group)) = false ->
   invalid validname_rx (snd (name_parts user group)) = true ->
   namespec validname_rx user group = Exc (JailError "invalid group name")) /\
  (invalid validname_rx (fst (name_parts user group)) = false ->
   invalid validname_rx (snd (name_parts user group)) = false ->
   namespec validname_rx user group
   = Ret (returned (fst (name_parts user group)), returned (snd (name_parts user group)))).
Proof.
  split; [|split; [|split]].
  - intros u g Hr. unfold namespec in Hr.
    destruct user as [|us|uz]; destruct group as [|gs|gz];
      try destruct (Py.partition ":" us) as [a b];
      match type of Hr with
      | context [checked_name validname_rx "user" ?x] =>
          destruct (checked_name validname_rx "user" x) as [u0| |] eqn:Hu; [|discriminate..]
      end;
      match type of Hr with
      | context [checked_name validname_rx "group" ?x] =>
          destruct (checked_name validname_rx "group" x) as [g0| |] eqn:Hg; [|discriminate..]
      end;
      injection Hr as <- <-;
      (split; [exact (checked_name_valid _ _ _ _ Hu)|]);
      (split; [exact (checked_name_valid _ _ _ _ Hg)|]);
      split; intros z [= ->]; cbn in Hu, Hg; congruence.
  - intros Hu. rewrite namespec_parts, checked_name_run, Hu. reflexivity.
  - intros Hu Hg. rewrite namespec_parts, !checked_name_run, Hu, Hg. reflexivity.
  - intros Hu Hg. rewrite namespec_parts, !checked_name_run, Hu, Hg. reflexivity.
Qed.

(** Names of lower-case letters. *)
Definition letters (s : string) : bool :=
  forallb (fun ch => (97 <=? nat_of_ascii ch)%nat && (nat_of_ascii ch <=? 122)%nat)
    (list_ascii_of_string s).

Lemma namespec_validates_witness :
  namespec letters (NameStr "bob:staff") NameNone = Ret (NameStr "bob", NameStr "staff") /\
  namespec letters (NameStr "b0b:staff") NameNone = Exc (JailError "invalid user name") /\
  namespec letters (NameStr "bob:st@ff") NameNone = Exc (JailError "invalid group name").
Proof.
  split; [|split].
  - apply (proj2 (proj2 (proj2 (namespec_validates letters (NameStr "bob:staff") NameNone))));
      reflexivity.
  - apply (proj1 (proj2 (namespec_validates letters (NameStr "b0b:staff") NameNone)));
      reflexivity.
  - apply (proj1 (proj2 (proj2 (namespec_validates letters (NameStr "bob:st@ff") NameNone))));
      reflexivity.
Defined.

End CliArgs.

(** ** The hit ratio *)

Module HitRatio.
Import Sfs.

(** The value of [hitratio] in a state. *)
Definition ratio (s : state) : Q :=
  match fst (hitratio s) with Ret q => q | _ => 0 end.

(** X21. [hitratio] changes nothing and is [100] as long as nothing was
    accessed or no [lstat] call was made; it is never more than [100], and
    it is negative exactly when more [lstat] calls than accesses were
    counted. *)
Theorem hitratio_bounds (s : state) :
  snd (hitratio s) = s /\
  (ratio s <= 100)%Q /\
  (_count_accesses s = 0%nat \/ _count_statcalls s = 0%nat -> (ratio s == 100)%Q) /\
  ((ratio s < 0)%Q <-> (_count_accesses s < _count_statcalls s /\ _count_accesses s <> 0)%nat).
Proof.
  unfold ratio, hitratio. cbn [fst snd].
  destruct (_count_accesses s) as [|a] eqn:Ha; cbn [Nat.eqb].
  - split; [reflexivity|]. split; [discriminate|]. split; [reflexivity|].
    split; [intros H; discriminate H | intros [_ H]; congruence].
  - set (sc := inject_Z (Z.of_nat (_count_statcalls s))).
    set (ac := inject_Z (Z.of_nat (S a))).
    assert (Hac : (0 < ac)%Q).
    { unfold ac. rewrite <- (Zlt_Qlt 0). lia. }
    assert (Hsc : (0 <= sc)%Q).
    { unfold sc. rewrite <- (Zle_Qle 0). lia. }
    assert (Hdiv : (0 <= 100 * sc / ac)%Q).
    { apply Qle_shift_div_l; [exact Hac|]. rewrite Qmult_0_l.
      apply Qmult_le_0_compat; [discriminate | exact Hsc]. }
    assert (Hiff : (100 < 100 * sc / ac)%Q <-> (ac < sc)%Q).
    { split; intros Hlt.
      - apply Qlt_shift_div_r in Hlt; [|exact Hac].
        now apply (Qmult_lt_l ac sc 100).
      - apply Qlt_shift_div_l; [exact Hac|]. now apply Qmult_lt_l. }
    split; [reflexivity|]. split; [|split].
    + set (d := (100 * sc / ac)%Q) in *. rewrite Qle_minus_iff.
      assert (E : (100 + - (100 - d) == d)%Q) by ring. rewrite E. exact Hdiv.
    + intros [H|H]; [discriminate|]. unfold sc. rewrite H.
      change (inject_Z (Z.of_nat 0)) with 0%Q. unfold Qdiv. ring.
    + assert (Hneg : (100 - 100 * sc / ac < 0)%Q <-> (100 < 100 * sc / ac)%Q).
      { set (d := (100 * sc / ac)%Q) in *.
        rewrite (Qlt_minus_iff (100 - d) 0), (Qlt_minus_iff 100 d).
        assert (E : (0 + - (100 - d) == d + - (100))%Q) by ring. rewrite E. reflexivity. }
      rewrite Hneg, Hiff. unfold ac, sc. rewrite <- Zlt_Qlt. split.
      * intros Hlt. split; [lia | discriminate].
      * intros [Hlt _]. lia.
Qed.

End HitRatio.

(** ** What the lookups hand back *)

Module Results.
Import Sfs.


Lemma root_loop_top (f : nat) (h : gmap nat Stat) (node r : nat) :
  root_loop f h node = Ret r ->
  exists rn, h !! r = Some rn /\ _parent rn = None.
Proof.
  revert node. induction f as [|f IH]; intros node; cbn [root_loop]; [discriminate|].
  destruct (h !! node) as [n|] eqn:Hn; [|discriminate].
  destruct (_parent n) as [p|] eqn:Hp; [apply IH|].
  intros [= <-]. exists n. split; assumption.
Qed.

Section Lookups.
Context `{Host}.

(** X22. [root] changes nothing and returns a node without parent; on
    such a node it returns the node itself, so that the root of the root is
    the root. *)
Theorem root_is_top (self r : nat) (s s' : state) :
  root self s = (Ret r, s') ->
  s' = s /\
  (exists rn, heap s !! r = Some rn /\ _parent rn = None) /\
  root r s = (Ret r, s).
Proof.
  unfold root. intros [= Hr <-]. split; [reflexivity|].
  destruct (root_loop_top (S (size (heap s))) (heap s) self r Hr) as [rn [Hrn Hp]].
  split; [exists rn; split; assumption|].
  cbn [root_loop]. rewrite Hrn, Hp. reflexivity.
Qed.


(** X24. [lstat] and [stat] agree wherever no symlink ends the path: on
    a path that leads to a node that is no symlink both return that node,
    [stat] after one more access that asks the host nothing; on a path that
    leads nowhere both return [None]. *)
Theorem stat_agrees_with_lstat (f self : nat) (p : string) (l : gset nat) (s s1 : state) :
  (forall nd n,
     get (S f) self p (Some self) (Some ∅) s = (Ret (Some nd, l), s1) ->
     heap s1 !! nd = Some n ->
     Py.truthy_opt (_link n) = false ->
     lstat (S f) self p None s = (Ret (Some nd), s1) /\
     stat (S f) self p None s = (Ret (Some nd), SymlinkLoop.entered 1 s1)) /\
  (get (S f) self p (Some self) (Some ∅) s = (Ret (None, l), s1) ->
   lstat (S f) self p None s = (Ret None, s1) /\
   stat (S f) self p None s = (Ret None, s1)).
Proof.
  assert (Hsame : get (S f) self p (Some self) None s
                  = get (S f) self p (Some self) (Some ∅) s) by reflexivity.
  split.
  - intros nd n Hget Hn Hl. split.
    + unfold lstat, bind. rewrite Hsame, Hget. reflexivity.
    + unfold stat. unfold bind at 1. rewrite Hget. unfold bind.
      rewrite (Lookup.cached_get f nd self nd "" (Some l) s1); [reflexivity|].
      unfold Lookup.start. cbn [Py.split Py.startswith String.prefix Lookup.cached_walk].
      rewrite Hn, Hl. reflexivity.
  - intros Hget. split.
    + unfold lstat, bind. rewrite Hsame, Hget. reflexivity.
    + unfold stat. unfold bind at 1. rewrite Hget. reflexivity.
Qed.

End Lookups.

Lemma root_is_top_witness :
  Demo.state_of RmRf.tmp_tree = Demo.state_of RmRf.tmp_tree /\
  (exists rn, heap (Demo.state_of RmRf.tmp_tree) !! 0%nat = Some rn /\ _parent rn = None) /\
  root 0 (Demo.state_of RmRf.tmp_tree) = (Ret 0%nat, Demo.state_of RmRf.tmp_tree).
Proof.
  apply (root_is_top 2 0 (Demo.state_of RmRf.tmp_tree) (Demo.state_of RmRf.tmp_tree)).
  vm_compute. reflexivity.
Defined.

End Results.

(** ** Directories planned in a dry run *)

Module Planning.
Import Sfs.

Lemma rfind_none (name : string) :
  Py.contains "/" name = false -> Py.rfind_slash name = None.
Proof.
  induction name as [|a name IH]; intros Hc; [reflexivity|].
  cbn [Py.contains] in Hc. apply orb_false_elim in Hc as [Ha Hc].
  cbn [Py.rfind_slash]. rewrite (IH Hc), Ha. reflexivity.
Qed.

Lemma path_split_name (name : string) :
  Py.contains "/" name = false -> Py.path_split name = ("", name).
Proof. intros Hc. unfold Py.path_split. now rewrite (rfind_none name Hc). Qed.

(** The heap [h2] holds every node of [h], with the same parent and
    name. *)
Definition extends (h h2 : gmap nat Stat) : Prop :=
  forall p pn, h !! p = Some pn ->
    exists pn', h2 !! p = Some pn' /\ _parent pn' = _parent pn /\ _name pn' = _name pn.

Lemma path_loop_extends (h h2 : gmap nat Stat) (f : nat) (n n' : Stat)
    (acc r : option string) :
  extends h h2 -> _parent n' = _parent n ->
  path_loop f h n acc = Ret r -> path_loop f h2 n' acc = Ret r.
Proof.
  intros He. revert n n' acc. induction f as [|f IH]; intros n n' acc Hp;
    cbn [path_loop]; rewrite Hp; [auto|].
  destruct (_parent n) as [p|]; [|auto].
  destruct (h !! p) as [pn|] eqn:Hpn; [|discriminate].
  destruct (He p pn Hpn) as [pn' [Hpn' [Hpar Hnm]]]. rewrite Hpn', Hnm.
  destruct (_name pn); [|discriminate]. destruct acc; [|discriminate].
  now apply IH.
Qed.

Section Mkdir.
Context `{Host}.

(** The constructor's new node, with the mode it was given. *)
Definition placeholder (parent : nat) (name : string) (md : Z) (tr : list event) : Stat :=
  set_mode md (blank (Some parent) name (host_geteuid tr) (host_getegid tr) (host_time tr)).

(** The state after the constructor has made a node [name] under
    [parent] with the mode [md]. *)
Definition created (parent : nat) (name : string) (md : Z) (s : state) : state :=
  let id := fresh (dom (heap s)) in
  mkState
    (<[id := placeholder parent name md (trace s)]>
       (alter (fun pn => set_children (<[name := id]> (_children pn)) pn) parent (heap s)))
    (EvClock :: trace s) (_count_statcalls s) (_count_accesses s).

Lemma fresh_not (s : state) (id : nat) (n : Stat) :
  heap s !! id = Some n -> fresh (dom (heap s)) <> id.
Proof.
  intros Hn He. pose proof (is_fresh (dom (heap s))) as Hf. rewrite He in Hf.
  apply Hf. apply elem_of_dom. eauto.
Qed.

Lemma init_int (parent : nat) (name : string) (md : Z) (s : state) (n : Stat) :
  Py.contains "/" name = false -> Py.truthy name = true ->
  heap s !! parent = Some n -> _children n !! name = None ->
  __init__ (Some parent) name (DataInt md) s
  = (Ret (fresh (dom (heap s))), created parent name md s).
Proof.
  intros Hc Ht Hn Hch. pose proof (fresh_not s parent n Hn) as Hne.
  unfold __init__. unfold bind at 1. rewrite Hc. cbn [negb assert]. unfold ret at 1.
  unfold bind at 1. unfold os_geteuid, bind, the_trace, ret. cbv beta iota.
  unfold os_getegid, time_time, bind, the_trace, emit, ret. cbv beta iota.
  cbn [trace heap _count_statcalls _count_accesses].
  unfold register, bind, assert, load, alloc, update, bind, the_heap, set_heap, ret.
  rewrite Ht. cbv beta iota. cbn [heap]. rewrite Hn. cbv beta iota. rewrite Hch.
  rewrite bool_decide_eq_false_2 by (intros [? ?]; discriminate). cbn [negb]. cbv beta iota.
  cbn [heap trace _count_statcalls _count_accesses]. unfold created. f_equal. f_equal.
  apply map_eq. intros i. unfold placeholder.
  destruct (decide (i = fresh (dom (heap s)))) as [->|Hi].
  - rewrite lookup_alter_eq, lookup_alter_ne, !lookup_insert_eq by congruence. reflexivity.
  - rewrite lookup_alter_ne, lookup_insert_ne by congruence.
    destruct (decide (i = parent)) as [->|Hp].
    + rewrite !lookup_alter_eq, lookup_insert_ne by congruence. reflexivity.
    + rewrite !lookup_alter_ne, lookup_insert_ne by congruence. reflexivity.
Qed.

Lemma created_new (parent : nat) (name : string) (md : Z) (s : state) :
  heap (created parent name md s) !! fresh (dom (heap s))
  = Some (placeholder parent name md (trace s)).
Proof. unfold created. cbn [heap]. apply lookup_insert_eq. Qed.

Lemma created_parent (parent : nat) (name : string) (md : Z) (s : state) (n : Stat) :
  heap s !! parent = Some n ->
  heap (created parent name md s) !! parent
  = Some (set_children (<[name := fresh (dom (heap s))]> (_children n)) n).
Proof.
  intros Hn. pose proof (fresh_not s parent n Hn) as Hne. unfold created. cbn [heap].
  rewrite lookup_insert_ne, lookup_alter_eq, Hn by exact Hne. reflexivity.
Qed.

Lemma created_extends (parent : nat) (name : string) (md : Z) (s : state) :
  extends (heap s) (heap (created parent name md s)).
Proof.
  intros p pn Hp. pose proof (fresh_not s p pn Hp) as Hne. unfold created. cbn [heap].
  rewrite lookup_insert_ne by exact Hne.
  destruct (decide (parent = p)) as [->|Hpp].
  - rewrite lookup_alter_eq, Hp. eexists. repeat split.
  - rewrite lookup_alter_ne, Hp by exact Hpp. eexists. repeat split.
Qed.

Lemma created_size (parent : nat) (name : string) (md : Z) (s : state) :
  size (heap (created parent name md s)) = S (size (heap s)).
Proof.
  unfold created. cbn [heap]. rewrite map_size_insert_None.
  - rewrite <- !(size_dom (D := gset nat)), dom_alter_L. reflexivity.
  - destruct (decide (parent = fresh (dom (heap s)))) as [->|Hne].
    + rewrite lookup_alter_eq.
      rewrite (proj1 (not_elem_of_dom (D := gset nat) (heap s) _) (is_fresh _)). reflexivity.
    + rewrite lookup_alter_ne by exact Hne.
      apply (not_elem_of_dom (D := gset nat)), is_fresh.
Qed.

Lemma path_loop_named (f : nat) (h : gmap nat Stat) (n : Stat) (x : string) :
  path_loop f h n None = Ret (Some x) -> False.
Proof.
  destruct f; cbn [path_loop]; destruct (_parent n) as [p|]; try discriminate.
  destruct (h !! p) as [pn|]; [|discriminate]. destruct (_name pn); discriminate.
Qed.

(** The path of the node the constructor has made: the parent's path, a
    ['/'] and the name, or ['/'] and the name under ["/"]. *)
Definition below (q name dp : string) : Prop :=
  dp = q ++ "/" ++ name \/ (q = "/" /\ dp = "/" ++ name).

Lemma path_new (parent : nat) (name : string) (md : Z) (s : state) (n : Stat) (q : string) :
  heap s !! parent = Some n ->
  path parent s = (Ret q, s) ->
  exists dp,
    path (fresh (dom (heap s))) (created parent name md s)
    = (Ret dp, created parent name md s) /\
    below q name dp.
Proof.
  intros Hn Hp. rewrite WritePolicy.path_reads, Hn in Hp.
  destruct (path_loop (size (heap s)) (heap s) n (_name n)) as [[raw|]|e|] eqn:Hloop;
    [|discriminate..].
  injection Hp as Hq.
  destruct (_name n) as [pname|] eqn:Hname; [|destruct (path_loop_named _ _ _ _ Hloop)].
  assert (Hnew : path_loop (S (size (heap s))) (heap (created parent name md s))
                   (placeholder parent name md (trace s)) (Some name)
                 = Ret (Some (raw ++ "/" ++ name))).
  { cbn [path_loop placeholder blank set_mode _parent].
    rewrite (created_parent parent name md s n Hn). cbn [_name set_children]. rewrite Hname.
    apply (path_loop_extends (heap s) _ _ n); [apply created_extends | reflexivity |].
    rewrite Paths.path_loop_app, Hloop. reflexivity. }
  rewrite WritePolicy.path_reads, created_new, created_size.
  cbn [_name placeholder blank set_mode]. rewrite Hnew.
  eexists. split; [reflexivity|]. subst q. unfold below.
  destruct raw as [|a raw].
  - rewrite SymlinkLoop.append_nil, SymlinkLoop.append_cons, SymlinkLoop.append_nil.
    rewrite Paths.startswith_slash. right. split; reflexivity.
  - rewrite SymlinkLoop.append_cons. destruct (ascii_dec "/" a) as [<-|Hne].
    + rewrite !Paths.startswith_slash. left. reflexivity.
    + rewrite !(Paths.startswith_other a _ Hne). left. reflexivity.
Qed.

Variable c : Jail.JailConfig.

(** The command text of [mkdir]. *)
Definition mkdir_cmd (mode_ : Z) (dp : string) : string :=
  "mkdir -m " ++ py_format_o mode_ ++ " " ++ py_repr dp.

(** [getdefault] on a name that is nowhere: one [lstat] call, and a
    placeholder of the format asked for. *)
Lemma getdefault_new (f self r : nat) (name : string) (md : Z) (n : Stat) (q : string)
    (s : state) :
  SymlinkLoop.segment name -> String.eqb name ".." = false ->
  heap s !! self = Some n -> islnk n = false -> Py.truthy_opt (_link n) = false ->
  _children n !! name = None ->
  root self s = (Ret r, s) -> path self s = (Ret q, s) ->
  host_lstat (trace s) (Py.path_join q name) = LstatENOENT ->
  md <> 0%Z -> S_IFMT md = md ->
  getdefault (S f) self (Some name) md None None s
  = (Ret (fresh (dom (heap s)), ∅),
     created self name md
       (Lookup.looked_up (Py.path_join q name) (SymlinkLoop.entered 1 s))).
Proof.
  intros Hseg Hdd Hn Hlnk Hl Hch Hroot Hp Hhost Hmd Hfmt.
  pose proof Hseg as [Ht [Hd Hc]].
  unfold getdefault. unfold default, id. cbv beta iota zeta.
  unfold bind at 1. rewrite Hroot.
  rewrite (path_split_name name Hc). cbv beta iota zeta.
  unfold bind at 1.
  rewrite (Lookup.cached_get f self r self "" (Some ∅) s)
    by (unfold Lookup.start; cbn [Py.split Py.startswith String.prefix Lookup.cached_walk];
        rewrite Hn, Hl; reflexivity).
  cbn [default]. unfold bind at 1. unfold bind at 1.
  rewrite (WritePolicy.load_run self n (SymlinkLoop.entered 1 s) Hn), Hlnk.
  unfold ret at 1. rewrite Ht.
  unfold bind at 1. unfold bind at 1. unfold bind at 1.
  rewrite (Lookup.get_miss f self r name (Some ∅) (SymlinkLoop.entered 1 s) n q Hseg Hdd Hn Hl Hch
             (WritePolicy.path_run self q s (SymlinkLoop.entered 1 s) Hp eq_refl) Hhost).
  cbn [default]. unfold bind at 1.
  rewrite (init_int self name md
             (Lookup.looked_up (Py.path_join q name) (SymlinkLoop.entered 1 s)) n Hc Ht Hn Hch).
  unfold ret at 1. cbv beta iota.
  rewrite (WritePolicy.load_run _ _ _
             (created_new self name md
                (Lookup.looked_up (Py.path_join q name) (SymlinkLoop.entered 1 s)))).
  unfold placeholder at 1. unfold fmt. cbn [st_mode set_mode]. rewrite Hfmt, Z.eqb_refl.
  rewrite andb_false_r. reflexivity.
Qed.

Lemma isdir_not_link (n : Stat) : isdir n = true -> islnk n = false.
Proof.
  unfold isdir, islnk. intros Hd. apply Z.eqb_eq in Hd. rewrite Hd. reflexivity.
Qed.

(** X25. In test mode, [mkdir] of a name that is neither in the cache
    nor on the disk, in a directory in which [writepath] matches the new
    path, asks the host once ([lstat]), prints the [mkdir] command and makes
    no call; it returns a new node that is entered in the directory under the
    name, as a directory with the permissions asked for.  The directory is
    planned, not made: yet a later lookup of the name finds the node without
    asking the host. *)
Theorem mkdir_is_planned (f self r : nat) (name : string) (m : Z) (n : Stat) (q : string)
    (s : state) :
  Jail.test c = true ->
  SymlinkLoop.segment name -> String.eqb name ".." = false ->
  heap s !! self = Some n -> isdir n = true -> Py.truthy_opt (_link n) = false ->
  _children n !! name = None ->
  root self s = (Ret r, s) -> path self s = (Ret q, s) ->
  host_lstat (trace s) (Py.path_join q name) = LstatENOENT ->
  (forall dp, below q name dp -> Jail.writepath_rx c dp = true) ->
  exists d dp s',
    mkdir (Jail.writable_fn c) (S f) self (Some name) m None None s = (Ret d, s') /\
    heap s !! d = None /\
    trace s' = ([EvPrint (mkdir_cmd (S_IMODE m) dp); EvClock;
                 EvLstat (Py.path_join q name)] ++ trace s)%list /\
    path d s' = (Ret dp, s') /\
    (exists dn, heap s' !! d = Some dn /\ st_mode dn = Z.lor S_IFDIR (S_IMODE m) /\
                _parent dn = Some self /\ _name dn = Some name) /\
    (forall links,
       get (S f) self name (Some r) links s'
       = (Ret (Some d, default ∅ links), SymlinkLoop.entered 1 s')).
Proof.
  intros Htest Hseg Hdd Hn Hdir Hl Hch Hroot Hp Hhost Hw.
  pose proof Hseg as [Ht [Hd Hc]].
  set (s2 := Lookup.looked_up (Py.path_join q name) (SymlinkLoop.entered 1 s)).
  set (s3 := created self name S_IFDIR s2).
  set (d := fresh (dom (heap s))).
  destruct (path_new self name S_IFDIR s2 n q Hn
              (WritePolicy.path_run self q s s2 Hp eq_refl)) as [dp [Hdp Hpre]].
  fold s3 in Hdp. change (fresh (dom (heap s2))) with d in Hdp.
  pose proof (created_new self name S_IFDIR s2) as Hnew.
  fold s3 in Hnew. change (fresh (dom (heap s2))) with d in Hnew.
  set (nc := placeholder self name S_IFDIR (trace s2)) in *.
  set (s4 := WritePolicy.printed (mkdir_cmd (S_IMODE m) dp) s3).
  set (s5 := WritePolicy.assigned (set_mode (Z.lor (fmt nc) (S_IMODE m))) d s4).
  assert (Hd5 : heap s5 !! d = Some (set_mode (Z.lor (fmt nc) (S_IMODE m)) nc)).
  { unfold s5, s4. cbn [heap WritePolicy.assigned WritePolicy.printed].
    rewrite lookup_alter_eq, Hnew. reflexivity. }
  assert (Hself5 : heap s5 !! self
                   = Some (set_children (<[name := d]> (_children n)) n)).
  { unfold s5, s4. cbn [heap WritePolicy.assigned WritePolicy.printed].
    rewrite lookup_alter_ne by (apply (fresh_not s self n Hn)).
    apply (created_parent self name S_IFDIR s2 n Hn). }
  exists d, dp, s5. split; [|split; [|split; [|split; [|split]]]].
  - unfold mkdir. unfold bind at 1.
    rewrite (getdefault_new f self r name S_IFDIR n q s Hseg Hdd Hn (isdir_not_link n Hdir)
               Hl Hch Hroot Hp Hhost ltac:(discriminate) eq_refl).
    fold s2 s3 d. cbv beta iota zeta. unfold bind at 1.
    rewrite (WritePolicy.load_run d nc s3 Hnew).
    assert (Hz : __nonzero__ nc = false) by reflexivity.
    unfold bind at 1. rewrite Hz. cbn [negb]. unfold bind at 1. rewrite Hdp.
    unfold bind at 1.
    rewrite (WritePolicy.write_call_test c d (mkdir_cmd (S_IMODE m) dp) _ s3 dp Htest Hdp
               (Hw dp Hpre) eq_refl).
    fold s4. unfold bind at 1.
    rewrite (WritePolicy.load_run d nc s4 Hnew).
    unfold update, bind, the_heap, set_heap. cbv beta iota.
    change (mkState (alter (set_mode (Z.lor (fmt nc) (S_IMODE m))) d (heap s4)) (trace s4)
              (_count_statcalls s4) (_count_accesses s4)) with s5.
    unfold chown, bind. rewrite (WritePolicy.load_run d _ s5 Hd5). cbn [id_or].
    rewrite !Z.eqb_refl. reflexivity.
  - apply (not_elem_of_dom (D := gset nat)), is_fresh.
  - reflexivity.
  - unfold s5. apply Paths.path_assigned; [intros x; repeat split|].
    apply (WritePolicy.path_run d dp s3 s4 Hdp eq_refl).
  - eexists. split; [exact Hd5|]. repeat split.
  - intros links. apply Lookup.cached_get.
    unfold Lookup.start. rewrite (Lookup.relative_no_sep name Hc), (Lookup.split_no_sep "/" name Hc).
    cbn [Lookup.cached_walk]. rewrite Hself5. cbn [_link _children set_children].
    rewrite Hl, Ht, Hd, lookup_insert_eq. reflexivity.
Qed.

Variable writable : option string -> string -> M bool.

Lemma split_parts (sep : ascii) (p : string) :
  Forall (fun name => Py.contains sep name = false) (Py.split sep p).
Proof.
  induction p as [|a p IH]; cbn [Py.split]; [repeat constructor|].
  destruct (Ascii.eqb a sep) eqn:Ha; [constructor; [reflexivity | exact IH]|].
  destruct (Py.split sep p) as [|h t]; [repeat constructor; cbn; now rewrite Ha|].
  inversion IH as [|? ? Hh Ht]; subst. constructor; [|exact Ht].
  cbn [Py.contains]. now rewrite Ha, Hh.
Qed.

(** The walk over a list of names is the walk over its first name,
    continued from where that one ends. *)
Lemma cached_walk_cons (h : gmap nat Stat) (r node d : nat) (name : string)
    (rest : list string) :
  Lookup.cached_walk h r node (name :: rest) = Some d ->
  exists d1, Lookup.cached_walk h r node [name] = Some d1 /\
             Lookup.cached_walk h r d1 rest = Some d.
Proof.
  cbn [Lookup.cached_walk]. destruct (h !! node) as [n|]; [|discriminate].
  destruct (Py.truthy_opt (_link n)); [discriminate|].
  destruct (negb (Py.truthy name) || String.eqb name "."); [eauto|].
  destruct (_children n !! name) as [child|]; [eauto|].
  destruct (String.eqb name ".."); [|discriminate].
  destruct (Nat.eqb node r); [eauto|].
  destruct (_parent n) as [p|]; [eauto | discriminate].
Qed.

(** A loop whose body takes each name through the cache ends where the
    cached walk ends. *)
Lemma cached_for_each (r : nat) (body : nat * gset nat -> string -> M (nat * gset nat))
    (names : list string) (node d : nat) (links : gset nat) (s : state) :
  (forall node links name s0 d1,
     Py.contains "/" name = false ->
     Lookup.cached_walk (heap s0) r node [name] = Some d1 ->
     body (node, links) name s0 = (Ret (d1, links), SymlinkLoop.entered 1 s0)) ->
  Forall (fun name => Py.contains "/" name = false) names ->
  Lookup.cached_walk (heap s) r node names = Some d ->
  for_each body names (node, links) s
  = (Ret (d, links), SymlinkLoop.entered (length names) s).
Proof.
  intros Hbody Hparts. revert node s.
  induction Hparts as [|name rest Hc _ IH]; intros node s Hw.
  - cbn [Lookup.cached_walk] in Hw. injection Hw as <-. destruct s; reflexivity.
  - apply cached_walk_cons in Hw as [d1 [H1 Hrest]].
    cbn [for_each]. unfold bind at 1. rewrite (Hbody node links name s d1 Hc H1).
    rewrite (IH d1 (SymlinkLoop.entered 1 s) Hrest).
    rewrite SymlinkLoop.entered_entered. cbn [length]. do 2 f_equal. lia.
Qed.

(** X26. [makedirs] on a path whose components are all in the cache
    creates nothing: it returns the node at the end of the path, asks the
    host nothing and does not ask whether it may write; it counts one
    access for every component that is not empty. *)
Theorem makedirs_on_cached_path (f self r d : nat) (p : string) (mode_ : option Z)
    (links : option (gset nat)) (s : state) :
  Lookup.cached_walk (heap s) r (Lookup.start self r p)
    (List.filter Py.truthy (Py.split "/" p)) = Some d ->
  makedirs writable (S f) self p mode_ (Some r) links s
  = (Ret d, SymlinkLoop.entered (length (List.filter Py.truthy (Py.split "/" p))) s).
Proof.
  intros Hw. unfold makedirs. unfold bind at 1. unfold ret at 1.
  unfold bind at 1. fold (Lookup.start self r p).
  erewrite (cached_for_each r _ _ (Lookup.start self r p) d (default ∅ links) s);
    [reflexivity | | | exact Hw].
  - intros node l name s0 d1 Hc H1. cbv beta iota. unfold bind at 1.
    rewrite (Lookup.cached_get f node r d1 name (Some l) s0)
      by (unfold Lookup.start;
          rewrite (Lookup.relative_no_sep name Hc), (Lookup.split_no_sep "/" name Hc);
          exact H1).
    reflexivity.
  - pose proof (split_parts "/" p) as Hparts. rewrite Forall_forall in *.
    intros x Hx. apply Hparts. apply list_elem_of_In. apply list_elem_of_In in Hx.
    apply filter_In in Hx. tauto.
Qed.

End Mkdir.

Lemma mkdir_is_planned_witness :
  exists d dp s',
    mkdir (H := Demo.quiet_host) (Jail.writable_fn Demo.test_mode) 1 1 (Some "new") 448
      None None (Demo.state_of RmRf.tmp_tree) = (Ret d, s') /\
    heap (Demo.state_of RmRf.tmp_tree) !! d = None /\
    trace s' = ([EvPrint (mkdir_cmd (H := Demo.quiet_host) (S_IMODE 448) dp); EvClock;
                 EvLstat (Py.path_join "/tmp" "new")] ++ [])%list /\
    path d s' = (Ret dp, s') /\
    (exists dn, heap s' !! d = Some dn /\ st_mode dn = Z.lor S_IFDIR (S_IMODE 448) /\
                _parent dn = Some 1%nat /\ _name dn = Some "new") /\
    (forall links,
       get (H := Demo.quiet_host) 1 1 "new" (Some 0%nat) links s'
       = (Ret (Some d, default ∅ links), SymlinkLoop.entered 1 s')).
Proof.
  apply (mkdir_is_planned (H := Demo.quiet_host) Demo.test_mode 0 1 0 "new" 448 Lookup.tmp
           "/tmp" (Demo.state_of RmRf.tmp_tree)).
  - reflexivity.
  - repeat split.
  - reflexivity.
  - vm_compute. reflexivity.
  - reflexivity.
  - reflexivity.
  - vm_compute. reflexivity.
  - vm_compute. reflexivity.
  - vm_compute. reflexivity.
  - reflexivity.
  - intros dp [->|[Hq _]]; [vm_compute; reflexivity | discriminate].
Defined.

Lemma makedirs_on_cached_path_witness :
  makedirs (H := Demo.quiet_host) (Jail.writable_fn Demo.production) 1 2 "/tmp//dir/" None
    (Some 0%nat) None (Demo.state_of RmRf.tmp_tree)
  = (Ret 3%nat, SymlinkLoop.entered 2 (Demo.state_of RmRf.tmp_tree)).
Proof.
  apply (makedirs_on_cached_path (H := Demo.quiet_host) (Jail.writable_fn Demo.production)
           0 2 0 3 "/tmp//dir/" None None (Demo.state_of RmRf.tmp_tree)).
  vm_compute. reflexivity.
Defined.

End Planning.

(** ** What [getdefault] answers *)

Module Defaults.
Import Sfs.



Section Outcomes.
Context `{Host}.


End Outcomes.


End Defaults.

(** ** The dry run of test mode *)

Module TestMode.
Import Sfs.
Import WritePolicy.

Ltac step := cbv beta iota zeta.

Section Ops.
Context `{Host}.
Variable c : Jail.JailConfig.


(** What [writepath] says of the path handed to [writable]: no path is
    allowed. *)
Definition allowed (dst : option string) : bool :=
  match dst with
  | None => true
  | Some q => Jail.writepath_rx c q
  end.




End Ops.



End TestMode.
